(** * AgroVue: the advisor's local fallback (src/App.js)

    A shallow embedding of [getAIReply] and [getLocalFallback] of
    src/App.js, with the part of the JavaScript runtime they rely on, and
    the properties of the keyword classifier, the crop resolver and the
    answer templates.

    Strings are JavaScript strings: finite sequences of UTF-16 code units.
    [String.prototype.toLowerCase] depends on the Unicode case tables; it is
    a parameter of every definition that calls it on the user's text, and the
    theorems hold for whatever function is supplied (the ones that need
    something of it say so).  [ascii_toLowerCase] is the instance used to run
    the code on concrete questions. *)

From Stdlib Require Import Strings.String Strings.Ascii Numbers.DecimalString.
From Stdlib Require Import List NArith ZArith QArith Bool Lia.
From Stdlib Require Import Sorting.Permutation Sorting.Sorted.
Import ListNotations.

Close Scope Q_scope.

(* ================================================================== *)
(** ** The JavaScript runtime, as far as App.js uses it *)
(* ================================================================== *)

Module JS.

(** A string value: its UTF-16 code units. *)
Definition jsstring : Type := list N.

Definition unit_eqb (a b : N) : bool := N.eqb a b.

(** *** Reading the literals of the source

    The string and template literals of App.js are written here as they are
    in the source file (UTF-8); [js] turns one into the string value it
    denotes: the escape [\n] is cooked to U+000A, the bytes are decoded to
    code points and the code points are written as UTF-16. *)

Fixpoint cook (bs : list N) : list N :=
  match bs with
  | [] => []
  | 92%N :: rest =>
      match rest with
      | 110%N :: rest' => 10%N :: cook rest'
      | _ => 92%N :: cook rest
      end
  | b :: rest => b :: cook rest
  end.

(** [utf8_decode pending need bs]: [need] continuation bytes are still
    expected for the code point whose leading bits are [pending]. *)
Fixpoint utf8_decode (pending : N) (need : nat) (bs : list N) : list N :=
  match bs with
  | [] => []
  | b :: rest =>
      match need with
      | O =>
          if (b <? 128)%N then b :: utf8_decode 0%N 0 rest
          else if (b <? 224)%N then utf8_decode (N.land b 31) 1 rest
          else if (b <? 240)%N then utf8_decode (N.land b 15) 2 rest
          else utf8_decode (N.land b 7) 3 rest
      | S O => (pending * 64 + N.land b 63)%N :: utf8_decode 0%N 0 rest
      | S n => utf8_decode (pending * 64 + N.land b 63)%N n rest
      end
  end.

Definition utf16_of_code_point (cp : N) : list N :=
  if (cp <? 65536)%N then [cp]
  else
    let v := (cp - 65536)%N in
    [(55296 + N.shiftr v 10)%N; (56320 + N.land v 1023)%N].

Definition js (lit : String.string) : jsstring :=
  flat_map utf16_of_code_point
    (utf8_decode 0%N 0 (cook (map N_of_ascii (list_ascii_of_string lit)))).

(** *** String.prototype.includes, on code units *)

Fixpoint startsWith (s t : jsstring) {struct t} : bool :=
  match t, s with
  | [], _ => true
  | _ :: _, [] => false
  | b :: t', a :: s' => unit_eqb a b && startsWith s' t'
  end.

Fixpoint includes (s t : jsstring) : bool :=
  startsWith s t ||
  match s with
  | [] => false
  | _ :: s' => includes s' t
  end.

(** *** White space: what [\s] matches and what [trim] removes

    WhiteSpace and LineTerminator of ECMA-262: TAB, LF, VT, FF, CR, SP,
    NBSP, the other space separators (U+1680, U+2000..U+200A, U+202F,
    U+205F, U+3000), LS, PS and U+FEFF. *)
Definition is_space (c : N) : bool :=
  ((9 <=? c) && (c <=? 13) || (c =? 32) || (c =? 160) || (c =? 5760)
   || (8192 <=? c) && (c <=? 8202) || (c =? 8232) || (c =? 8233)
   || (c =? 8239) || (c =? 8287) || (c =? 12288) || (c =? 65279))%N.

Definition SP : N := 32%N.

(** [s.replace(/\s+/g, " ")]: every maximal run of white space becomes one
    U+0020.  [in_run] says that the previous unit was white space. *)
Fixpoint collapse_from (in_run : bool) (s : jsstring) : jsstring :=
  match s with
  | [] => []
  | c :: s' =>
      if is_space c then
        if in_run then collapse_from true s' else SP :: collapse_from true s'
      else c :: collapse_from false s'
  end.

Definition collapse_spaces (s : jsstring) : jsstring := collapse_from false s.

Fixpoint trimStart (s : jsstring) : jsstring :=
  match s with
  | [] => []
  | c :: s' => if is_space c then trimStart s' else s
  end.

Fixpoint trimEnd (s : jsstring) : jsstring :=
  match s with
  | [] => []
  | c :: s' =>
      match trimEnd s' with
      | [] => if is_space c then [] else [c]
      | r => c :: r
      end
  end.

Definition trim (s : jsstring) : jsstring := trimEnd (trimStart s).

(** Truthiness of a string: the empty string is the only falsy one. *)
Definition truthy (s : jsstring) : bool :=
  match s with [] => false | _ => true end.

(** [a || b] on strings. *)
Definition or_str (a b : jsstring) : jsstring := if truthy a then a else b.

(** *** Numbers

    The numbers of the fallback are the integer prices of the crop table;
    Number::toString of an integer is its decimal numeral. *)
Definition Number_toString (z : Z) : jsstring :=
  map N_of_ascii (list_ascii_of_string (NilZero.string_of_int (Z.to_int z))).

(** [Math.round(x * 1.2)] for an integer [x].  The exact product has
    fractional part 0, .2, .4, .6 or .8, never within rounding error of one
    half, so the binary64 product rounds to the integer nearest to 6x/5. *)
Definition round_times_1_2 (x : Z) : Z := ((12 * x + 5) / 10)%Z.

(** *** Array.prototype.join with the empty separator *)
Definition join_empty (parts : list jsstring) : jsstring := concat parts.

(** *** Array.prototype.sort

    ECMA-262 requires the sort to be stable, and a stable sort has one
    result.  [insert x l] puts [x], which stood before every element of [l],
    in front of the first [y] it need not follow ([cmp x y <= 0]). *)
Section Sort.
Variable A : Type.
Variable cmp : A -> A -> Z.

Fixpoint insert (x : A) (l : list A) : list A :=
  match l with
  | [] => [x]
  | y :: l' => if (cmp x y <=? 0)%Z then x :: l else y :: insert x l'
  end.

Fixpoint sort (l : list A) : list A :=
  match l with
  | [] => []
  | x :: l' => insert x (sort l')
  end.
End Sort.

Arguments insert {A} cmp x l.
Arguments sort {A} cmp l.

(** *** Property reads on an object literal

    [o[k]] finds an own property of the literal, or else a member that every
    object inherits from [Object.prototype], or else yields [undefined]. *)
Fixpoint str_eqb (a b : jsstring) : bool :=
  match a, b with
  | [], [] => true
  | x :: a', y :: b' => unit_eqb x y && str_eqb a' b'
  | _, _ => false
  end.

Definition Object_prototype_keys : list jsstring :=
  [js "constructor"; js "__defineGetter__"; js "__defineSetter__";
   js "hasOwnProperty"; js "__lookupGetter__"; js "__lookupSetter__";
   js "isPrototypeOf"; js "propertyIsEnumerable"; js "toString";
   js "valueOf"; js "__proto__"; js "toLocaleString"].

Inductive PropertyRead (V : Type) : Type :=
| Own (v : V)
| Inherited (k : jsstring)
| Undefined.

Arguments Own {V} v.
Arguments Inherited {V} k.
Arguments Undefined {V}.

Fixpoint get_own {V : Type} (o : list (jsstring * V)) (k : jsstring) : option V :=
  match o with
  | [] => None
  | (k', v) :: o' => if str_eqb k k' then Some v else get_own o' k
  end.

Definition get {V : Type} (o : list (jsstring * V)) (k : jsstring) : PropertyRead V :=
  match get_own o k with
  | Some v => Own v
  | None => if existsb (str_eqb k) Object_prototype_keys then Inherited k else Undefined
  end.

(** *** Completions: a call returns a value or throws *)
Inductive Error : Type :=
| TypeError
| SyntaxError
| NetworkError
| ApiError (message : jsstring).

Inductive Completion (A : Type) : Type :=
| Returns (a : A)
| Throws (e : Error).

Arguments Returns {A} a.
Arguments Throws {A} e.

Definition bind {A B : Type} (c : Completion A) (k : A -> Completion B) : Completion B :=
  match c with
  | Returns a => k a
  | Throws e => Throws e
  end.

Notation "x <- c ;; k" := (bind c (fun x => k))
  (at level 61, c at next level, right associativity).

Definition try_catch {A : Type} (body : Completion A) (handler : Error -> Completion A)
  : Completion A :=
  match body with
  | Returns a => Returns a
  | Throws e => handler e
  end.

(** [toLowerCase] on text of the Basic Latin block: A..Z go to a..z and
    nothing else changes. *)
Definition ascii_lower_unit (c : N) : N :=
  if ((65 <=? c) && (c <=? 90))%N then (c + 32)%N else c.

Definition ascii_toLowerCase (s : jsstring) : jsstring := map ascii_lower_unit s.

End JS.

Import JS.

(* ================================================================== *)
(** ** Data helpers of App.js *)
(* ================================================================== *)

(** An entry of [CROP_META], or any object read in its place: each of the
    properties the code reads is present or absent ([undefined]). *)
Record CropMeta : Type := {
  icon : option jsstring;
  season : option jsstring;
  harvest : option jsstring;
  base : option Z;
  vol : option Q
}.

Definition crop_meta (i s h : jsstring) (b : Z) (v : Q) : CropMeta :=
  {| icon := Some i; season := Some s; harvest := Some h; base := Some b; vol := Some v |}.

(** An object with none of the five properties: [{}], and every member
    inherited from [Object.prototype]. *)
Definition no_meta : CropMeta :=
  {| icon := None; season := None; harvest := None; base := None; vol := None |}.

(** What a read of [CROP_TIPS] can leave in [tip] and [ct]: a string, or an
    inherited member of [Object.prototype] (a function, or the prototype
    object itself for [__proto__]). *)
Inductive TipValue : Type :=
| TipText (s : jsstring)
| TipMember (k : jsstring).

Definition CROPS : list jsstring :=
  [js "Wheat"; js "Rice"; js "Maize"; js "Tomato"; js "Onion";
   js "Potato"; js "Soybean"; js "Cotton"; js "Sugarcane"; js "Chilli"].

Definition CROP_META : list (jsstring * CropMeta) :=
  [(js "Wheat", crop_meta (js "🌾") (js "Rabi") (js "Mar-Apr") 2200 (6 # 100)%Q);
   (js "Rice", crop_meta (js "🍚") (js "Kharif") (js "Oct-Nov") 3100 (5 # 100)%Q);
   (js "Maize", crop_meta (js "🌽") (js "Kharif") (js "Sep-Oct") 1800 (8 # 100)%Q);
   (js "Tomato", crop_meta (js "🍅") (js "Year-round") (js "Oct & Mar") 1500 (35 # 100)%Q);
   (js "Onion", crop_meta (js "🧅") (js "Rabi/Kharif") (js "Nov & Mar") 1200 (40 # 100)%Q);
   (js "Potato", crop_meta (js "🥔") (js "Rabi") (js "Jan-Feb") 900 (25 # 100)%Q);
   (js "Soybean", crop_meta (js "🫘") (js "Kharif") (js "Oct-Nov") 4500 (10 # 100)%Q);
   (js "Cotton", crop_meta (js "☁️") (js "Kharif") (js "Nov-Jan") 6200 (7 # 100)%Q);
   (js "Sugarcane", crop_meta (js "🎋") (js "Year-round") (js "Oct-Mar") 380 (3 # 100)%Q);
   (js "Chilli", crop_meta (js "🌶️") (js "Rabi") (js "Feb-Mar") 8500 (30 # 100)%Q)].

Definition CROP_TIPS : list (jsstring * jsstring) :=
  [(js "Wheat",
    js "Prices typically rise post-harvest export season (Apr–Jun). Best to store until May.");
   (js "Rice",
    js "Sell 30–40% immediately post-harvest, store rest for Jan–Feb when prices rise 15–20%.");
   (js "Tomato",
    js "High volatility crop. Monitor daily prices. Consider contract farming for stability.");
   (js "Onion",
    js "Cold storage can yield 25–35% premium. April–July is the best selling window.");
   (js "Potato",
    js "Store in cold storage. Market opens up in summer (May–Jul) with 20% higher prices.");
   (js "Maize",
    js "Poultry feed demand drives prices. Nov–Jan tends to be the best selling period.");
   (js "Soybean",
    js "Global soy prices heavily influence. Watch CBOT futures for export demand signals.");
   (js "Cotton",
    js "Textile industry demand peaks in Feb–Mar. Hold for quality premium pricing.");
   (js "Sugarcane",
    js "Regulated FRP prices ensure minimum income. Sell early to avoid payment delays.");
   (js "Chilli",
    js "Export demand from Sri Lanka & Bangladesh boosts prices in May–Jun. Dry for better margins.")].

(** [CROP_META[k] || d]: objects and functions are truthy. *)
Definition meta_or (r : PropertyRead CropMeta) (d : CropMeta) : CropMeta :=
  match r with
  | Own v => v
  | Inherited _ => no_meta
  | Undefined => d
  end.

(** [CROP_TIPS[k] || d]. *)
Definition tip_or (r : PropertyRead jsstring) (d : TipValue) : TipValue :=
  match r with
  | Own s => if truthy s then TipText s else d
  | Inherited k => TipMember k
  | Undefined => d
  end.

(** *** Template interpolation [${...}] of the values above *)
Definition show_string (v : option jsstring) : jsstring :=
  match v with
  | Some s => s
  | None => js "undefined"
  end.

Definition show_number (v : option Z) : jsstring :=
  match v with
  | Some z => Number_toString z
  | None => js "undefined"
  end.

(** [${Math.round(cm.base * 1.2)}]; [undefined * 1.2] is NaN. *)
Definition show_rounded (v : option Z) : jsstring :=
  match v with
  | Some z => Number_toString (round_times_1_2 z)
  | None => js "NaN"
  end.

(** A built-in function prints as its native-code stub, under its own
    name, which is the name of the member except for [constructor], the
    function [Object]; the prototype object prints as [[object Object]]. *)
Definition show_tip (t : TipValue) : jsstring :=
  match t with
  | TipText s => s
  | TipMember k =>
      if str_eqb k (js "__proto__") then js "[object Object]"
      else if str_eqb k (js "constructor") then js "function Object() { [native code] }"
      else js "function " ++ k ++ js "() { [native code] }"
  end.

(** [v || d] for an optional string property and for an optional number. *)
Definition opt_or (v : option jsstring) (d : jsstring) : jsstring :=
  match v with
  | Some s => or_str s d
  | None => d
  end.

Definition number_or (v : option Z) (d : jsstring) : jsstring :=
  match v with
  | Some z => if (z =? 0)%Z then d else Number_toString z
  | None => d
  end.

Definition dquote : jsstring := [34%N].

(* ================================================================== *)
(** ** The smart local fallback ([getLocalFallback], lines 165-290) *)
(* ================================================================== *)

Module Intent.
Inductive t : Type :=
| price | sell | msp | storage | weather | profit | disease | fertilizer
| water | loan | export | sowing | harvest | variety | transport | general.
End Intent.

(** The characters of the class [[?।!,]]. *)
Definition is_stripped (c : N) : bool :=
  ((c =? 63) || (c =? 2404) || (c =? 33) || (c =? 44))%N.

(** [.replace(/[?।!,]/g, " ")] *)
Definition replace_stripped (s : jsstring) : jsstring :=
  map (fun c => if is_stripped c then SP else c) s.

(** The three steps after [toLowerCase] in the definition of [q]. *)
Definition squeeze (s : jsstring) : jsstring :=
  trim (collapse_spaces (replace_stripped s)).

(** The words of a text: its maximal runs of units that are neither white
    space nor characters of the stripped class.  The source has no such
    function; the words are what [squeeze] keeps of a text. *)
Definition is_separator (c : N) : bool := is_space c || is_stripped c.

Definition starts_word (sep : N -> bool) (s : jsstring) : bool :=
  match s with
  | c :: _ => negb (sep c)
  | [] => false
  end.

Fixpoint words_by (sep : N -> bool) (s : jsstring) : list jsstring :=
  match s with
  | [] => []
  | c :: s' =>
      if sep c then words_by sep s'
      else if starts_word sep s' then
        match words_by sep s' with
        | w :: ws => (c :: w) :: ws
        | [] => [[c]]
        end
      else [c] :: words_by sep s'
  end.

Definition words (s : jsstring) : list jsstring := words_by is_separator s.

(** The words joined by single spaces. *)
Fixpoint unwords (ws : list jsstring) : jsstring :=
  match ws with
  | [] => []
  | w :: ws' =>
      match ws' with
      | [] => w
      | _ :: _ => w ++ SP :: unwords ws'
      end
  end.

(** A text without separators: no white space, no stripped character. *)
Definition plain (w : jsstring) : Prop := Forall (fun c => is_separator c = false) w.

(** [has]: one point for every term that occurs in [q]. *)
Definition has (q : jsstring) (terms : list jsstring) : Z :=
  fold_left (fun score t => (score + (if includes q t then 1 else 0))%Z) terms 0%Z.

Definition price_terms : list jsstring :=
  [js "price"; js "rate"; js "bhav"; js "daam"; js "aaj"; js "today";
   js "current"; js "kitna"; js "how much"; js "mandi"; js "market";
   js "bhaav"; js "today price"; js "rate kya"; js "kya bhav";
   js "what is price"; js "दाम"; js "भाव"; js "आज"; js "कितना";
   js "क्या भाव"; js "मंडी"].

Definition sell_terms : list jsstring :=
  [js "sell"; js "selling"; js "bechna"; js "kab beche"; js "when sell";
   js "best time"; js "kab"; js "timing"; js "hold"; js "store or sell";
   js "should i sell"; js "kb bechu"; js "कब बेचूं"; js "बेचना"; js "कब"].

Definition msp_terms : list jsstring :=
  [js "msp"; js "minimum support"; js "government price"; js "sarkar";
   js "scheme"; js "support price"; js "sarkari"; js "pm kisan";
   js "pmkisan"; js "subsidy"; js "compensation"; js "सरकार"; js "एमएसपी";
   js "समर्थन मूल्य"; js "सरकारी"].

Definition storage_terms : list jsstring :=
  [js "storage"; js "store"; js "cold storage"; js "godown"; js "rakhna";
   js "warehouse"; js "bhndaran"; js "kitne din"; js "how long";
   js "preserve"; js "रखना"; js "भंडारण"; js "गोदाम"; js "ठंडा"].

Definition weather_terms : list jsstring :=
  [js "weather"; js "rain"; js "monsoon"; js "mausam"; js "barish";
   js "drought"; js "flood"; js "climate"; js "temperature"; js "baarish";
   js "season"; js "kharif"; js "rabi"; js "मौसम"; js "बारिश"; js "सूखा";
   js "बाढ़"].

Definition profit_terms : list jsstring :=
  [js "profit"; js "income"; js "earning"; js "kamai"; js "fayda";
   js "labh"; js "margin"; js "roi"; js "return"; js "kitna milega";
   js "how much earn"; js "benefit"; js "कमाई"; js "फायदा"; js "लाभ";
   js "मुनाफा"].

Definition disease_terms : list jsstring :=
  [js "disease"; js "pest"; js "insect"; js "fungus"; js "virus";
   js "spray"; js "medicine"; js "dawai"; js "kit"; js "rog"; js "keeda";
   js "blight"; js "wilt"; js "rot"; js "yellow"; js "leaf"; js "कीट";
   js "रोग"; js "दवाई"; js "कीड़ा"].

Definition fertilizer_terms : list jsstring :=
  [js "fertilizer"; js "khad"; js "urea"; js "dap"; js "npk"; js "manure";
   js "compost"; js "potash"; js "zinc"; js "nutrient"; js "खाद";
   js "यूरिया"; js "डीएपी"].

Definition water_terms : list jsstring :=
  [js "water"; js "irrigation"; js "drip"; js "paani"; js "sinchai";
   js "pump"; js "borewell"; js "canal"; js "पानी"; js "सिंचाई"; js "नहर"].

Definition loan_terms : list jsstring :=
  [js "loan"; js "credit"; js "bank"; js "kcc"; js "kisan card";
   js "finance"; js "interest"; js "byaj"; js "nabard"; js "insurance";
   js "pmfby"; js "बीमा"; js "ऋण"; js "लोन"; js "ब्याज"; js "किसान कार्ड"].

Definition export_terms : list jsstring :=
  [js "export"; js "foreign"; js "international"; js "demand"; js "global";
   js "abroad"; js "विदेश"; js "निर्यात"].

Definition sowing_terms : list jsstring :=
  [js "sow"; js "sowing"; js "plant"; js "seed"; js "baai"; js "ugana";
   js "nursery"; js "transplant"; js "बुवाई"; js "बीज"; js "उगाना";
   js "नर्सरी"].

Definition harvest_terms : list jsstring :=
  [js "harvest"; js "cutting"; js "katai"; js "ready"; js "ripeness";
   js "kab katna"; js "कटाई"; js "तैयार"].

Definition variety_terms : list jsstring :=
  [js "variety"; js "type"; js "which type"; js "konsa"; js "breed";
   js "hybrid"; js "variety konsi"; js "किस्म"; js "कौन सी"; js "हाइब्रिड"].

Definition transport_terms : list jsstring :=
  [js "transport"; js "truck"; js "vehicle"; js "freight"; js "delivery";
   js "gaadi"; js "ढुलाई"; js "गाड़ी"].

Definition terms_of (i : Intent.t) : list jsstring :=
  match i with
  | Intent.price => price_terms
  | Intent.sell => sell_terms
  | Intent.msp => msp_terms
  | Intent.storage => storage_terms
  | Intent.weather => weather_terms
  | Intent.profit => profit_terms
  | Intent.disease => disease_terms
  | Intent.fertilizer => fertilizer_terms
  | Intent.water => water_terms
  | Intent.loan => loan_terms
  | Intent.export => export_terms
  | Intent.sowing => sowing_terms
  | Intent.harvest => harvest_terms
  | Intent.variety => variety_terms
  | Intent.transport => transport_terms
  | Intent.general => []
  end.

(** The keys of [scores], in the order the object literal declares them,
    which is the order [Object.entries] lists them in. *)
Definition score_keys : list Intent.t :=
  [Intent.price; Intent.sell; Intent.msp; Intent.storage; Intent.weather;
   Intent.profit; Intent.disease; Intent.fertilizer; Intent.water; Intent.loan;
   Intent.export; Intent.sowing; Intent.harvest; Intent.variety; Intent.transport].

(** The value of one property of [scores], and the entries of [scores]. *)
Definition score (q : jsstring) (i : Intent.t) : Z := has q (terms_of i).

Definition scores (q : jsstring) : list (Intent.t * Z) :=
  map (fun i => (i, score q i)) score_keys.

(** [(a, b) => b[1] - a[1]] *)
Definition by_score_desc (a b : Intent.t * Z) : Z := (snd b - snd a)%Z.

(** The order the comparator sorts into: descending score. *)
Definition score_ge (a b : Intent.t * Z) : Prop := (snd b <= snd a)%Z.

(** [Object.entries(scores).sort(...)[0]] *)
Definition topIntent (q : jsstring) : option (Intent.t * Z) :=
  nth_error (sort by_score_desc (scores q)) 0.

(** [topIntent[1] > 0 ? topIntent[0] : "general"] *)
Definition intent_of (top : Intent.t * Z) : Intent.t :=
  if (0 <? snd top)%Z then fst top else Intent.general.

(** The crop-specific parts of the templates. *)
Definition cold_storage_benefit (mentionedCrop : jsstring) : jsstring :=
  if str_eqb mentionedCrop (js "Potato") || str_eqb mentionedCrop (js "Onion")
  then js "25–40% price premium"
  else js "short-term holding".

Definition cold_wave_effect (mentionedCrop : jsstring) : jsstring :=
  if str_eqb mentionedCrop (js "Tomato") || str_eqb mentionedCrop (js "Potato")
  then js "quality & supply significantly"
  else js "field operations".

Definition water_requirement (mentionedCrop : jsstring) : jsstring :=
  if str_eqb mentionedCrop (js "Rice")
  then js "High — 1200–2000 mm (flood or SRI method)"
  else
  if str_eqb mentionedCrop (js "Sugarcane")
  then js "High — irrigate every 10–15 days"
  else
  if str_eqb mentionedCrop (js "Wheat")
  then js "Medium — 4–6 irrigations (CRI, tillering, jointing, grain fill)"
  else
  if str_eqb mentionedCrop (js "Tomato")
  then js "Frequent — drip irrigation saves 40% water"
  else js "Moderate — check soil moisture before irrigating".

Definition export_markets (mentionedCrop : jsstring) : jsstring :=
  if str_eqb mentionedCrop (js "Chilli")
  then js "• Sri Lanka, Bangladesh, UAE, Malaysia — May–Jun is peak export season"
  else
  if str_eqb mentionedCrop (js "Onion")
  then js "• Malaysia, Sri Lanka, UAE — Apr–Jul when domestic prices are high"
  else
  if str_eqb mentionedCrop (js "Rice")
  then js "• Middle East, Africa, SE Asia — India is world's largest rice exporter"
  else
  if str_eqb mentionedCrop (js "Cotton")
  then js "• Bangladesh, China for textile — premium for long staple quality"
  else js "• Check APEDA portal (apeda.gov.in) for your crop's export potential".

Definition maturity_signs (mentionedCrop : jsstring) : jsstring :=
  if str_eqb mentionedCrop (js "Wheat")
  then js "• Golden yellow color, grains hard & dry, moisture 14–16%"
  else
  if str_eqb mentionedCrop (js "Rice")
  then js "• 80% grains golden yellow, moisture 20–25% at harvest"
  else
  if str_eqb mentionedCrop (js "Tomato")
  then js "• Red color, firm texture — harvest every 3–4 days"
  else
  if str_eqb mentionedCrop (js "Onion")
  then js "• Neck fall (70% plants), tops dry and fall naturally"
  else js "• Check crop-specific maturity indicators with your KVK".

Definition recommended_varieties (mentionedCrop : jsstring) : jsstring :=
  if str_eqb mentionedCrop (js "Wheat")
  then js "• HD-2967, HD-3086, GW-322, DBW-187 (disease resistant)"
  else
  if str_eqb mentionedCrop (js "Rice")
  then js "• Swarna, MTU-1010, Pusa Basmati 1121, BPT-5204"
  else
  if str_eqb mentionedCrop (js "Tomato")
  then js "• Arka Vikas, Pusa Ruby, Solan Vajra, hybrid varieties"
  else
  if str_eqb mentionedCrop (js "Onion")
  then js "• Bhima Super, Agrifound Light Red, Phule Safed"
  else
  if str_eqb mentionedCrop (js "Potato")
  then js "• Kufri Jyoti, Kufri Pukhraj, Kufri Chipsona"
  else
  if str_eqb mentionedCrop (js "Maize")
  then js "• DHM-117, Vivek QPM-9, DKC-9144 (hybrid)"
  else js "• Contact your state agriculture department or KVK for region-specific variety recommendations".

Definition perishable_name (mentionedCrop : jsstring) : jsstring :=
  if str_eqb mentionedCrop (js "Tomato") || str_eqb mentionedCrop (js "Onion")
  then js "Tomato/Onion"
  else js "this crop".

(** The [switch] over the intent: one template per intent. *)
Definition renderFallback (intent : Intent.t) (msg mentionedCrop : jsstring)
    (cm : CropMeta) (ct : TipValue) : jsstring :=
  match intent with
  | Intent.price =>
      js "📊 **" ++
      mentionedCrop ++
      js " Market Price**\n\nCurrent approximate price: ₹" ++
      show_number (base cm) ++
      js "–₹" ++
      show_rounded (base cm) ++
      js "/quintal\n(Varies by quality, location & season)\n\n" ++
      js "Best harvest window: " ++
      show_string (harvest cm) ++
      js " | Season: " ++
      show_string (season cm) ++
      js "\n\n🔍 Check live prices at:\n• eNAM portal → enam.gov.in\n" ++
      js "• AgMarkNet → agmarknet.gov.in\n" ++
      js "• Your local APMC mandi board\n\n" ++
      show_tip ct
  | Intent.sell =>
      js "📅 **Best Time to Sell " ++
      mentionedCrop ++
      js "**\n\n" ++
      show_tip ct ++
      js "\n\nHarvest window: " ++
      show_string (harvest cm) ++
      js " | Season: " ++
      show_string (season cm) ++
      js "\n\n" ++
      js "💡 Strategy: Avoid selling at peak harvest when supply floods the market. Wait 4–6 weeks after harvest — prices usually rise 10–20%.\n\n" ++
      js "Check daily mandi rates on eNAM (enam.gov.in) before deciding."
  | Intent.msp =>
      js "🏛️ **MSP for " ++
      mentionedCrop ++
      js "**\n\n" ++
      js "The government sets MSP (Minimum Support Price) each season to protect farmers. To claim MSP:\n\n" ++
      js "1️⃣ Register on PM-KISAN portal → pmkisan.gov.in\n" ++
      js "2️⃣ Documents needed: Khatauni (land record), Aadhaar, Bank passbook\n" ++
      js "3️⃣ Sell through your local APMC mandi or registered procurement center\n\n" ++
      js "📞 Kisan Helpline: 1800-180-1551 (Toll Free, 24x7)\n" ++
      js "🌐 agri.gov.in for current MSP notifications"
  | Intent.storage =>
      js "❄️ **Storage Tips for " ++
      mentionedCrop ++
      js "**\n\n" ++
      show_tip ct ++
      js "\n\nStorage options:\n• Cold storage: Best for " ++
      cold_storage_benefit mentionedCrop ++
      js "\n" ++
      js "• Join a local FPO for shared cold storage at lower cost/quintal\n" ++
      js "• Proper drying & grading before storage reduces losses by 15–20%\n\n" ++
      js "Ask your district agriculture officer for nearest government cold storage facility."
  | Intent.weather =>
      js "🌦️ **Weather Impact on " ++
      mentionedCrop ++
      js "**\n\n" ++
      js "Monsoon effect: Deficit rainfall → supply shortage → price rise 15–25%\n" ++
      js "Excess rain → crop damage → short spike then crash\n" ++
      js "Cold wave → affects " ++
      cold_wave_effect mentionedCrop ++
      js "\n\n🛡️ Protect your income:\n" ++
      js "• PMFBY crop insurance — register before sowing season\n" ++
      js "• IMD weather forecast → imd.gov.in for your district"
  | Intent.profit =>
      js "💰 **Profit Maximization — " ++
      mentionedCrop ++
      js "**\n\n" ++
      show_tip ct ++
      js "\n\nTo increase your income from " ++
      mentionedCrop ++
      js ":\n• Time your sale correctly (" ++
      show_string (harvest cm) ++
      js ")\n" ++
      js "• Reduce post-harvest losses with proper storage & grading\n" ++
      js "• Sell directly to buyers via eNAM — skip middlemen\n" ++
      js "• Explore value addition: processing, packaging, or contract farming\n" ++
      js "• Join an FPO to negotiate better prices in bulk"
  | Intent.disease =>
      js "🌿 **Disease & Pest Management — " ++
      mentionedCrop ++
      js "**\n\nCommon issues in " ++
      mentionedCrop ++
      js ": fungal blight, aphids, leaf curl, root rot (varies by season).\n\n" ++
      js "Immediate steps:\n" ++
      js "1. Identify the pest/disease accurately before spraying\n" ++
      js "2. Contact your Krishi Vigyan Kendra (KVK) — free expert advice\n" ++
      js "3. Use recommended pesticides at correct dosage\n\n" ++
      js "📞 Kisan Call Centre: 1800-180-1551\n" ++
      js "🌐 State agriculture department app for photo-based diagnosis\n\n" ++
      js "⚠️ Early treatment prevents 20–30% yield loss."
  | Intent.fertilizer =>
      js "🌱 **Fertilizer Guide — " ++
      mentionedCrop ++
      js "**\n\nGeneral recommendation for " ++
      mentionedCrop ++
      js " (per acre):\n" ++
      js "• Basal dose: DAP 50 kg + MOP 25 kg at sowing\n" ++
      js "• Top dressing: Urea 25–30 kg at 30 days after planting\n" ++
      js "• Micronutrients: Zinc sulphate if soil is deficient\n\n" ++
      js "Always get a **soil test done** (free at KVK or for ₹50 at district lab) before applying fertilizers — saves 20–30% fertilizer cost.\n\n" ++
      js "📞 Contact your local agriculture extension officer for crop-specific doses."
  | Intent.water =>
      js "💧 **Irrigation for " ++
      mentionedCrop ++
      js "**\n\n" ++
      mentionedCrop ++
      js " water requirement: " ++
      water_requirement mentionedCrop ++
      js "\n\n" ++
      js "💡 Drip/sprinkler irrigation saves 30–50% water vs flood irrigation.\n" ++
      js "Apply for Pradhan Mantri Krishi Sinchai Yojana (PMKSY) subsidy on drip systems."
  | Intent.loan =>
      js "🏦 **Farm Finance & Insurance**\n\n" ++
      js "• **Kisan Credit Card (KCC):** Up to ₹3 lakh at 4% effective interest (7% minus 3% subvention) — apply at any bank\n" ++
      js "• **PM-KISAN:** ₹6,000/year direct to your bank → pmkisan.gov.in\n" ++
      js "• **PMFBY Crop Insurance:** Covers crop loss from drought, flood, pest — enroll before sowing\n" ++
      js "• **NABARD loans** via cooperative banks for farm infrastructure\n\n" ++
      js "📞 Bank helpline or nearest PACS for KCC application\n" ++
      js "📞 Kisan Helpline: 1800-180-1551"
  | Intent.export =>
      js "🌍 **Export Opportunities for " ++
      mentionedCrop ++
      js "**\n\n" ++
      show_tip ct ++
      js "\n\nKey export markets for Indian " ++
      mentionedCrop ++
      js ":\n" ++
      export_markets mentionedCrop ++
      js "\n\n" ++
      js "Register on APEDA (Agricultural and Processed Food Products Export Authority) at apeda.gov.in to connect with exporters."
  | Intent.sowing =>
      js "🌱 **Sowing Guide — " ++
      mentionedCrop ++
      js "**\n\nSeason: " ++
      show_string (season cm) ++
      js " | Best sowing time varies by region.\n\nGeneral steps:\n" ++
      js "1. Soil preparation: Deep plowing + 2–3 harrowings\n" ++
      js "2. Seed treatment: Use certified seeds, treat with fungicide\n" ++
      js "3. Spacing & depth: As per variety recommendation\n" ++
      js "4. Basal fertilizer: Apply DAP at sowing\n\n" ++
      js "📞 Contact your Krishi Vigyan Kendra (KVK) for region-specific sowing schedule and variety recommendations for " ++
      mentionedCrop ++
      js "."
  | Intent.harvest =>
      js "🌾 **Harvest Time — " ++
      mentionedCrop ++
      js "**\n\nTypical harvest window: **" ++
      show_string (harvest cm) ++
      js "**\nSeason: " ++
      show_string (season cm) ++
      js "\n\nSigns of maturity for " ++
      mentionedCrop ++
      js ":\n" ++
      maturity_signs mentionedCrop ++
      js "\n\n" ++
      js "⏰ Harvest at the right time to avoid quality loss and price drop."
  | Intent.variety =>
      js "🌱 **Best Varieties — " ++
      mentionedCrop ++
      js "**\n\nTop recommended varieties for " ++
      mentionedCrop ++
      js ":\n" ++
      recommended_varieties mentionedCrop ++
      js "\n\n" ++
      js "Always buy **certified seeds** from government-registered dealers."
  | Intent.transport =>
      js "🚛 **Transport & Logistics for " ++
      mentionedCrop ++
      js "**\n\nTips to reduce transport costs:\n" ++
      js "• Join or form an FPO to aggregate produce and share transport\n" ++
      js "• Sell on eNAM (enam.gov.in) — buyers can bid from anywhere, reducing your need to travel\n" ++
      js "• Harvest at the right time to avoid emergency transport\n" ++
      js "• Use government-subsidized transport schemes in your state\n\n" ++
      js "For perishables like " ++
      perishable_name mentionedCrop ++
      js ", pre-cool before transport to reduce losses."
  | Intent.general =>
      js "🌾 **AgroVueAI — " ++
      mentionedCrop ++
      js " Answer**\n\nYour question: " ++
      dquote ++
      msg ++
      dquote ++
      js "\n\n" ++
      show_tip ct ++
      js "\n\nRelevant info for " ++
      mentionedCrop ++
      js ":\n• Season: " ++
      show_string (season cm) ++
      js " | Harvest: " ++
      show_string (harvest cm) ++
      js "\n• Approx price: ₹" ++
      show_number (base cm) ++
      js "/qtl\n\n📞 For expert advice specific to your question:\n" ++
      js "• Kisan Call Centre: 1800-180-1551 (Toll Free, 24x7)\n" ++
      js "• eNAM portal: enam.gov.in\n" ++
      js "• Nearest Krishi Vigyan Kendra (KVK)"
  end.

(** [Object.entries(scores).sort(...)[0]], then
    [topIntent[1] > 0 ? topIntent[0] : "general"]; reading [topIntent[1]]
    of a missing entry would throw. *)
Definition classify (q : jsstring) : option Intent.t :=
  option_map intent_of (topIntent q).

(** The generic record of line 173. *)
Definition default_meta : CropMeta :=
  {| icon := None; season := Some (js "varies"); harvest := Some (js "varies");
     base := Some 2000%Z; vol := Some (1 # 10)%Q |}.

(** [m] and [tip] (lines 173-174). *)
Definition m_of (crop : jsstring) : CropMeta :=
  meta_or (get CROP_META crop) default_meta.

Definition tip_of (crop : jsstring) : TipValue :=
  tip_or (get CROP_TIPS crop) (TipText []).

(** *** The remote call: its request and its outcomes *)

(** An entry of the conversation history, and a message of the request. *)
Record HistoryItem : Type := { role : jsstring; text : jsstring }.
Record Message : Type := { msg_role : jsstring; msg_content : jsstring }.

Record Request : Type := {
  url : jsstring;
  model : jsstring;
  max_tokens : Z;
  system : jsstring;
  messages : list Message
}.

(** The parsed body of a reply.  The messages endpoint answers with a list
    of content blocks, each with or without a [text]; a body of another
    shape is [null] (reading [data.content] throws), or has no [content]
    ([undefined] or [null]), or a [content] that is no array (it has no
    [map] to call), or a [null] among its blocks (reading [b.text] throws).
    A [text] that is present is a string. *)
Inductive ContentBlock : Type :=
| BlockNull
| Block (text : option jsstring).

Inductive Content : Type :=
| ContentAbsent
| ContentNotArray
| ContentBlocks (blocks : list ContentBlock).

Inductive ResponseData : Type :=
| DataNull
| Data (content : Content).

(** What [response.json()] does, and what [fetch] does. *)
Inductive JsonOutcome : Type :=
| JsonRejects
| JsonResolves (data : ResponseData).

Inductive FetchOutcome : Type :=
| FetchRejects
| FetchResolves (ok : bool) (status : Z) (body : JsonOutcome).

Definition systemPrompt (crop : jsstring) (cropInfo : CropMeta) (cropTip : TipValue)
  : jsstring :=
    js "You are AgroVueAI, an expert agricultural advisor for Indian farmers. You have deep knowledge of:\n" ++
    js "- Indian crop markets (Mandi prices, APMC, eNAM, AgMarkNet data)\n" ++
    js "- MSP (Minimum Support Price) schemes, PM-KISAN, PMFBY crop insurance\n" ++
    js "- Seasonal price trends for crops: Wheat, Rice, Maize, Tomato, Onion, Potato, Soybean, Cotton, Sugarcane, Chilli\n" ++
    js "- Cold storage strategies, FPO (Farmer Producer Organizations)\n" ++
    js "- Weather impact on Indian agriculture (monsoon, rabi/kharif seasons)\n" ++
    js "- Export markets for Indian agricultural produce\n\n" ++
    js "Currently selected crop context:\n- Crop: " ++
    crop ++
    js "\n- Season: " ++
    opt_or (season cropInfo) (js "N/A") ++
    js "\n- Typical harvest: " ++
    opt_or (harvest cropInfo) (js "N/A") ++
    js "\n- Approx base price: ₹" ++
    number_or (base cropInfo) (js "N/A") ++
    js "/quintal\n- Key insight: " ++
    show_tip cropTip ++
    js "\n\nIMPORTANT RULES:\n" ++
    js "1. Answer ONLY what the farmer is asking. Be direct and specific to their question.\n" ++
    js "2. Do not give generic advice unrelated to the question.\n" ++
    js "3. Use Indian units: quintal (qtl), rupees (₹), acres.\n" ++
    js "4. Keep responses concise — 3 to 6 lines max unless detailed explanation is needed.\n" ++
    js "5. Use relevant emojis naturally (🌾 💰 📦 🌦️ 📈 etc.).\n" ++
    js "6. If the question is about a specific crop, answer about that crop specifically.\n" ++
    js "7. Respond in the same language the farmer uses (Hindi/English/mixed).\n" ++
    js "8. Never make up prices — if you don't know current live price, say it's an estimate and advise checking local mandi or eNAM portal.".

(** [historyMessages] and [messages] (lines 124-135). *)
Definition build_messages (systemPrompt userMessage : jsstring)
    (conversationHistory : list HistoryItem) : list Message :=
  let historyMessages :=
    map (fun m =>
           {| msg_role := if str_eqb (role m) (js "ai") then js "assistant" else js "user";
              msg_content := text m |})
        conversationHistory in
  let fullPrompt :=
    systemPrompt ++ js "\n\n---\nFarmer's question: " ++ userMessage in
  match historyMessages with
  | _ :: _ => historyMessages ++ [{| msg_role := js "user"; msg_content := userMessage |}]
  | [] => [{| msg_role := js "user"; msg_content := fullPrompt |}]
  end.

(** The request of line 138. *)
Definition build_request (userMessage crop : jsstring)
    (conversationHistory : list HistoryItem) : Request :=
  let cropInfo := meta_or (get CROP_META crop) no_meta in
  let cropTip := tip_or (get CROP_TIPS crop) (TipText []) in
  let systemPrompt := systemPrompt crop cropInfo cropTip in
  {| url := js "https://api.anthropic.com/v1/messages";
     model := js "claude-sonnet-4-20250514";
     max_tokens := 1000;
     system := systemPrompt;
     messages := build_messages systemPrompt userMessage conversationHistory |}.

(** [b => b.text || ""] *)
Definition block_text (b : ContentBlock) : Completion jsstring :=
  match b with
  | BlockNull => Throws TypeError
  | Block t => Returns (opt_or t [])
  end.

(** [Array.prototype.map] with a callback that may throw. *)
Fixpoint map_blocks (blocks : list ContentBlock) : Completion (list jsstring) :=
  match blocks with
  | [] => Returns []
  | b :: rest =>
      t <- block_text b ;;
      ts <- map_blocks rest ;;
      Returns (t :: ts)
  end.

(** [data.content?.map(b => b.text || "").join("") || ""] *)
Definition reply_text (data : ResponseData) : Completion jsstring :=
  match data with
  | DataNull => Throws TypeError
  | Data ContentAbsent => Returns []
  | Data ContentNotArray => Throws TypeError
  | Data (ContentBlocks blocks) =>
      parts <- map_blocks blocks ;;
      Returns (or_str (join_empty parts) [])
  end.

Definition no_reply : jsstring :=
  js "Sorry, I could not get a response. Please try again.".

Section WithLowerCase.

(** [String.prototype.toLowerCase] *)
Variable toLowerCase : jsstring -> jsstring.

(** The constant [q] of [getLocalFallback]. *)
Definition normalize (msg : jsstring) : jsstring := squeeze (toLowerCase msg).

(** [CROPS.find(c => q.includes(c.toLowerCase())) || crop] *)
Definition mentionedCrop_of (q crop : jsstring) : jsstring :=
  match find (fun c => includes q (toLowerCase c)) CROPS with
  | Some c => or_str c crop
  | None => crop
  end.

(** [cm] and [ct] (lines 217-218). *)
Definition cm_of (q crop : jsstring) : CropMeta :=
  meta_or (get CROP_META (mentionedCrop_of q crop)) (m_of crop).

Definition ct_of (q crop : jsstring) : TipValue :=
  tip_or (get CROP_TIPS (mentionedCrop_of q crop)) (tip_of crop).

(** [words] (line 175) is never read, and is left out. *)
Definition getLocalFallback (msg crop : jsstring) : Completion jsstring :=
  let q := normalize msg in
  match classify q with
  | None => Throws TypeError
  | Some intent =>
      Returns
        (renderFallback intent msg (mentionedCrop_of q crop) (cm_of q crop) (ct_of q crop))
  end.

(* ================================================================== *)
(** ** The advisor facade ([getAIReply], lines 95-163) *)
(* ================================================================== *)

(** The remote endpoint. *)
Variable fetch : Request -> FetchOutcome.

(** The body of the [try] block. *)
Definition remote_reply (request : Request) : Completion jsstring :=
  match fetch request with
  | FetchRejects => Throws NetworkError
  | FetchResolves ok status body =>
      if negb ok then
        Throws (ApiError (js "API returned " ++ Number_toString status))
      else
        data <- match body with
                | JsonRejects => Throws SyntaxError
                | JsonResolves d => Returns d
                end ;;
        text <- reply_text data ;;
        Returns (or_str (trim text) no_reply)
  end.

Definition getAIReply (userMessage crop : jsstring)
    (conversationHistory : list HistoryItem) : Completion jsstring :=
  try_catch
    (remote_reply (build_request userMessage crop conversationHistory))
    (fun err => getLocalFallback userMessage crop).

End WithLowerCase.

(* ================================================================== *)
(** ** The advisor's chat ([AIAdvisor], lines 565-604) *)
(* ================================================================== *)

(** [Array.prototype.slice(start, end)]: a negative index counts from the
    end of the array, and both ends are clamped to it. *)
Definition relative_index (len i : Z) : Z :=
  if (i <? 0)%Z then Z.max (len + i) 0 else Z.min i len.

Definition slice {A : Type} (l : list A) (start : Z) (stop : option Z) : list A :=
  let len := Z.of_nat (List.length l) in
  let k := relative_index len start in
  let final := match stop with Some e => relative_index len e | None => len end in
  firstn (Z.to_nat (final - k)) (skipn (Z.to_nat k) l).

Definition DEFAULT_CHAT (name : jsstring) : list HistoryItem :=
  [{| role := js "ai";
      text := js "Namaste " ++ name ++ js "! 🙏 I'm your AgroVue Advisor.\n\n" ++
              js "Ask me about crop prices, best time to sell, MSP schemes, weather impact, cold storage, or profitability. How can I help you today?" |}].

(** [updated.slice(1).slice(-10)] *)
Definition historyForAPI (updated : list HistoryItem) : list HistoryItem :=
  slice (slice updated 1 None) (-10) None.

Definition send_failed : jsstring := js "⚠️ Something went wrong. Please try again.".

(** What awaiting a call gives: the call settles, with a value or with
    an error, or it never does. *)
Inductive Awaited (A : Type) : Type :=
| Settled (c : Completion A)
| Pending.

Arguments Settled {A} c.
Arguments Pending {A}.

(** The network as an awaited [getAIReply] meets it: the outcome of the
    request and of the reading of its body, or [None] for a request that
    never settles (the [fetch] of line 138 has no timeout). *)
Definition Network : Type := Request -> option FetchOutcome.

Definition await_getAIReply (toLowerCase : jsstring -> jsstring) (network : Network)
    (userMessage crop : jsstring) (conversationHistory : list HistoryItem)
    : Awaited jsstring :=
  match network (build_request userMessage crop conversationHistory) with
  | Some outcome =>
      Settled (getAIReply toLowerCase (fun _ => outcome) userMessage crop
                 conversationHistory)
  | None => Pending
  end.

(** What a call of [send] leaves, as far as it gets: the value of [msgs]
    (and [None] is the [null] of a chat still loading), the value of
    [typing], and the values handed to [save("AgroVue_chat", ...)], in
    order. *)
Record SendResult : Type := {
  msgs_after : option (list HistoryItem);
  typing_after : bool;
  saved : list (list HistoryItem)
}.

Section Advisor.

Variable toLowerCase : jsstring -> jsstring.
Variable network : Network.

Definition send (msgs : option (list HistoryItem)) (typing : bool) (crop msg : jsstring)
    : SendResult :=
  match msgs with
  | None => {| msgs_after := None; typing_after := typing; saved := [] |}
  | Some ms =>
      if negb (truthy (trim msg)) then
        {| msgs_after := Some ms; typing_after := typing; saved := [] |}
      else
        let updated := ms ++ [{| role := js "user"; text := msg |}] in
        match await_getAIReply toLowerCase network msg crop
                (slice (historyForAPI updated) 0 (Some (-1)%Z)) with
        | Pending =>
            {| msgs_after := Some updated; typing_after := true; saved := [updated] |}
        | Settled (Returns replyText) =>
            let reply := updated ++ [{| role := js "ai"; text := replyText |}] in
            {| msgs_after := Some reply; typing_after := false;
               saved := [updated; reply] |}
        | Settled (Throws _) =>
            let reply := updated ++ [{| role := js "ai"; text := send_failed |}] in
            {| msgs_after := Some reply; typing_after := false; saved := [updated] |}
        end
  end.

End Advisor.

(* ================================================================== *)
(** ** Bold markup and speech text (lines 643, 814 and 684-699) *)
(* ================================================================== *)

(** [s.replace(/pat/g, rep)] for a pattern that is one literal, non-empty
    text: the matches are taken from the left and do not overlap.  [skip]
    counts the units of the current match that are still to be passed. *)
Fixpoint replace_from (skip : nat) (pat rep s : jsstring) : jsstring :=
  match s with
  | [] => []
  | c :: s' =>
      match skip with
      | S k => replace_from k pat rep s'
      | O =>
          if startsWith s pat
          then rep ++ replace_from (List.length pat - 1) pat rep s'
          else c :: replace_from 0 pat rep s'
      end
  end.

Definition replaceAll (pat rep s : jsstring) : jsstring := replace_from 0 pat rep s.

(** The match of [/#{1,3} /] at the start of [s], if there is one, and its
    length: three hashes are tried first, then two, then one. *)
Definition heading_at (s : jsstring) : option nat :=
  if startsWith s (js "### ") then Some 4%nat
  else if startsWith s (js "## ") then Some 3%nat
  else if startsWith s (js "# ") then Some 2%nat
  else None.

(** [s.replace(/#{1,3} /g, "")] *)
Fixpoint strip_headings_from (skip : nat) (s : jsstring) : jsstring :=
  match s with
  | [] => []
  | c :: s' =>
      match skip with
      | S k => strip_headings_from k s'
      | O =>
          match heading_at s with
          | Some n => strip_headings_from (n - 1) s'
          | None => c :: strip_headings_from 0 s'
          end
      end
  end.

Definition strip_headings (s : jsstring) : jsstring := strip_headings_from 0 s.

(** The constant [clean] of [speak]. *)
Definition speech_text (text : jsstring) : jsstring :=
  replaceAll (js "\n") (js ". ")
    (replaceAll (js "₹") (js "rupees ")
       (replaceAll (js "→") (js "means")
          (replaceAll (js "•") (js ",")
             (strip_headings (replaceAll (js "**") [] text))))).

(** [s.split(sep)] for a non-empty separator. *)
Definition push_unit (c : N) (parts : list jsstring) : list jsstring :=
  match parts with
  | p :: rest => (c :: p) :: rest
  | [] => [[c]]
  end.

Fixpoint split_from (skip : nat) (sep s : jsstring) : list jsstring :=
  match s with
  | [] => [[]]
  | c :: s' =>
      match skip with
      | S k => split_from k sep s'
      | O =>
          if startsWith s sep
          then [] :: split_from (List.length sep - 1) sep s'
          else push_unit c (split_from 0 sep s')
      end
  end.

Definition split (sep s : jsstring) : list jsstring := split_from 0 sep s.

(** [parts.join(sep)] *)
Fixpoint join (sep : jsstring) (parts : list jsstring) : jsstring :=
  match parts with
  | [] => []
  | p :: rest =>
      match rest with
      | [] => p
      | _ :: _ => p ++ sep ++ join sep rest
      end
  end.

(** The children of a chat bubble:
    [m.text.split("**").map((p,j) => j%2===1 ? <strong>{p}</strong> : p)]. *)
Inductive Span : Type :=
| Plain (t : jsstring)
| Strong (t : jsstring).

Definition span_text (s : Span) : jsstring :=
  match s with
  | Plain t => t
  | Strong t => t
  end.

Fixpoint spans_from (odd : bool) (parts : list jsstring) : list Span :=
  match parts with
  | [] => []
  | p :: rest => (if odd then Strong p else Plain p) :: spans_from (negb odd) rest
  end.

Definition bubble_spans (text : jsstring) : list Span :=
  spans_from false (split (js "**") text).

(** The star of the bold marker, and whether a text starts with one. *)
Definition STAR : N := 42%N.

Definition heads_star (s : jsstring) : bool :=
  match s with
  | c :: _ => unit_eqb c STAR
  | [] => false
  end.

(* ================================================================== *)
(** ** Alerts ([Alerts], lines 838-915) *)
(* ================================================================== *)

Module Alerts.

Record Alert : Type := {
  id : Z;
  type : jsstring;
  crop : jsstring;
  msg : jsstring;
  time : jsstring;
  read : bool;
  sev : jsstring
}.

Definition INIT_ALERTS : list Alert :=
  [{| id := 1; type := js "price_rise"; crop := js "Tomato";
      msg := js "Tomato prices surged 18% at Azadpur due to Himachal supply shortage";
      time := js "2h ago"; read := false; sev := js "high" |};
   {| id := 2; type := js "forecast"; crop := js "Wheat";
      msg := js "AI forecast: Wheat prices to rise 5–7% over next 2 weeks — export demand strong";
      time := js "5h ago"; read := false; sev := js "medium" |};
   {| id := 3; type := js "weather"; crop := js "Onion";
      msg := js "Heavy rainfall in Maharashtra — Onion harvest delayed, price spike likely";
      time := js "1d ago"; read := true; sev := js "high" |};
   {| id := 4; type := js "msp"; crop := js "Rice";
      msg := js "Govt announces MSP hike of ₹117/qtl for Kharif rice";
      time := js "2d ago"; read := true; sev := js "low" |};
   {| id := 5; type := js "price_drop"; crop := js "Potato";
      msg := js "Cold storage arrivals pressuring potato prices — 8% decline in UP markets";
      time := js "3d ago"; read := true; sev := js "medium" |};
   {| id := 6; type := js "opportunity"; crop := js "Chilli";
      msg := js "Bangladesh export inquiry driving Chilli premium in Guntur (+₹800/qtl)";
      time := js "3d ago"; read := true; sev := js "medium" |}].

(** [{...a, read:true}] *)
Definition mark (a : Alert) : Alert :=
  {| id := id a; type := type a; crop := crop a; msg := msg a; time := time a;
     read := true; sev := sev a |}.

(** "Mark all read": [alerts.map(a => ({...a, read:true}))] *)
Definition markAllRead (alerts : list Alert) : list Alert := map mark alerts.

(** A click on the alert [a]:
    [alerts.map(x => x.id===a.id ? {...x, read:true} : x)] *)
Definition markRead (a : Alert) (alerts : list Alert) : list Alert :=
  map (fun x => if (id x =? id a)%Z then mark x else x) alerts.

(** [alerts.filter(a => !a.read).length] *)
Definition unread (alerts : list Alert) : nat :=
  List.length (filter (fun a => negb (read a)) alerts).

(** [a.indexOf(v)], with [-1] for a value that is not there. *)
Fixpoint indexOf_from (i : Z) (a : list jsstring) (v : jsstring) : Z :=
  match a with
  | [] => (-1)%Z
  | x :: a' => if str_eqb x v then i else indexOf_from (i + 1) a' v
  end.

Definition indexOf (a : list jsstring) (v : jsstring) : Z := indexOf_from 0 a v.

(** [a.filter((v, i) => ...)] *)
Fixpoint filter_from {A : Type} (f : A -> Z -> bool) (i : Z) (l : list A) : list A :=
  match l with
  | [] => []
  | x :: l' => if f x i then x :: filter_from f (i + 1) l' else filter_from f (i + 1) l'
  end.

(** [a.filter((v,i,a) => a.indexOf(v) === i)] *)
Definition first_occurrences (a : list jsstring) : list jsstring :=
  filter_from (fun v i => (indexOf a v =? i)%Z) 0 a.

(** The crops of the "Watching" row. *)
Definition watched (selected : jsstring) : list jsstring :=
  first_occurrences [js "Wheat"; js "Onion"; js "Tomato"; selected].

End Alerts.

(* ================================================================== *)
(** ** The password encoding ([hashPass], line 1073) *)
(* ================================================================== *)

(** What the three built-ins of [hashPass] can throw. *)
Inductive Exception : Type :=
| URIError
| InvalidCharacterError.

Inductive Result (A : Type) : Type :=
| Ok (a : A)
| Raise (e : Exception).

Arguments Ok {A} a.
Arguments Raise {A} e.

(** A string value has 16-bit units. *)
Definition is_string (s : jsstring) : Prop := Forall (fun u => (u < 65536)%N) s.

Definition is_high_surrogate (u : N) : bool := ((55296 <=? u) && (u <=? 56319))%N.
Definition is_low_surrogate (u : N) : bool := ((56320 <=? u) && (u <=? 57343))%N.

(** The code points of a string; a surrogate without its partner ends the
    reading. *)
Fixpoint code_points (s : jsstring) : option (list N) :=
  match s with
  | [] => Some []
  | u :: rest =>
      if is_high_surrogate u then
        match rest with
        | l :: rest' =>
            if is_low_surrogate l then
              option_map (cons (65536 + (u - 55296) * 1024 + (l - 56320))%N)
                (code_points rest')
            else None
        | [] => None
        end
      else if is_low_surrogate u then None
      else option_map (cons u) (code_points rest)
  end.

Definition utf8_encode (cp : N) : list N :=
  if (cp <? 128)%N then [cp]
  else if (cp <? 2048)%N then [(192 + cp / 64)%N; (128 + cp mod 64)%N]
  else if (cp <? 65536)%N then
    [(224 + cp / 4096)%N; (128 + (cp / 64) mod 64)%N; (128 + cp mod 64)%N]
  else
    [(240 + cp / 262144)%N; (128 + (cp / 4096) mod 64)%N;
     (128 + (cp / 64) mod 64)%N; (128 + cp mod 64)%N].

(** The digits "0123456789ABCDEF". *)
Definition hex_digit (d : N) : N := if (d <? 10)%N then (48 + d)%N else (55 + d)%N.

(** [%XX] for one octet. *)
Definition percent (b : N) : jsstring := [37%N; hex_digit (b / 16); hex_digit (b mod 16)].

(** The characters [encodeURIComponent] leaves as they are: letters,
    digits and [- _ . ! ~ * ' ( )]. *)
Definition is_unreserved (c : N) : bool :=
  ((65 <=? c) && (c <=? 90) || (97 <=? c) && (c <=? 122) || (48 <=? c) && (c <=? 57)
   || (c =? 45) || (c =? 95) || (c =? 46) || (c =? 33) || (c =? 126) || (c =? 42)
   || (c =? 39) || (c =? 40) || (c =? 41))%N.

(** [encodeURIComponent]: a URIError for a lone surrogate; otherwise every
    code point is kept when it is unreserved, and written as the escaped
    octets of its UTF-8 form when it is not. *)
Definition encodeURIComponent (s : jsstring) : Result jsstring :=
  match code_points s with
  | None => Raise URIError
  | Some cps =>
      Ok (flat_map (fun cp => if is_unreserved cp then [cp]
                              else flat_map percent (utf8_encode cp)) cps)
  end.

Definition hex_value (c : N) : option N :=
  if ((48 <=? c) && (c <=? 57))%N then Some (c - 48)%N
  else if ((65 <=? c) && (c <=? 70))%N then Some (c - 55)%N
  else if ((97 <=? c) && (c <=? 102))%N then Some (c - 87)%N
  else None.

(** The escapes [%uXXXX] and [%XX] read after a percent sign: the value
    and the length of the escape, the sign included. *)
Definition escape_u (rest : jsstring) : option (N * nat) :=
  match rest with
  | u :: a :: b :: c :: d :: _ =>
      if (u =? 117)%N then
        match hex_value a, hex_value b, hex_value c, hex_value d with
        | Some x, Some y, Some z, Some w =>
            Some (((x * 16 + y) * 16 + z) * 16 + w, 6%nat)%N
        | _, _, _, _ => None
        end
      else None
  | _ => None
  end.

Definition escape_2 (rest : jsstring) : option (N * nat) :=
  match rest with
  | a :: b :: _ =>
      match hex_value a, hex_value b with
      | Some x, Some y => Some (x * 16 + y, 3%nat)%N
      | _, _ => None
      end
  | _ => None
  end.

(** The escape at the start of [s], if [s] starts with one; [%uXXXX] is
    tried before [%XX]. *)
Definition escape_at (s : jsstring) : option (N * nat) :=
  match s with
  | c :: rest =>
      if (c =? 37)%N then
        match escape_u rest with
        | Some r => Some r
        | None => escape_2 rest
        end
      else None
  | [] => None
  end.

(** [unescape] *)
Fixpoint unescape_from (skip : nat) (s : jsstring) : jsstring :=
  match s with
  | [] => []
  | c :: rest =>
      match skip with
      | S k => unescape_from k rest
      | O =>
          match escape_at s with
          | Some (v, n) => v :: unescape_from (n - 1) rest
          | None => c :: unescape_from 0 rest
          end
      end
  end.

Definition unescape (s : jsstring) : jsstring := unescape_from 0 s.

(** The alphabet "A-Za-z0-9+/" of Base64. *)
Definition b64_char (n : N) : N :=
  if (n <? 26)%N then (65 + n)%N
  else if (n <? 52)%N then (71 + n)%N
  else if (n <? 62)%N then (n - 4)%N
  else if (n =? 62)%N then 43%N
  else 47%N.

Fixpoint base64 (bs : list N) : jsstring :=
  match bs with
  | [] => []
  | a :: rest =>
      match rest with
      | [] => [b64_char (a / 4); b64_char ((a mod 4) * 16); 61; 61]%N
      | b :: rest' =>
          match rest' with
          | [] =>
              [b64_char (a / 4); b64_char ((a mod 4) * 16 + b / 16);
               b64_char ((b mod 16) * 4); 61]%N
          | c :: rest'' =>
              [b64_char (a / 4); b64_char ((a mod 4) * 16 + b / 16);
               b64_char ((b mod 16) * 4 + c / 64); b64_char (c mod 64)]%N
              ++ base64 rest''
          end
      end
  end.

(** [btoa]: an InvalidCharacterError for a unit above 255. *)
Definition btoa (s : jsstring) : Result jsstring :=
  if forallb (fun u => (u <? 256)%N) s then Ok (base64 s)
  else Raise InvalidCharacterError.

Definition salt : jsstring := js "_agrovue_salt_2025".

Definition hashPass (p : jsstring) : Result jsstring :=
  match encodeURIComponent (p ++ salt) with
  | Raise e => Raise e
  | Ok escaped => btoa (unescape escaped)
  end.

(** The way back, which the source does not have: Base64 read as octets,
    the octets as UTF-8, the code points written as a string, the salt
    taken off its end. *)
Definition b64_value (c : N) : option N :=
  if ((65 <=? c) && (c <=? 90))%N then Some (c - 65)%N
  else if ((97 <=? c) && (c <=? 122))%N then Some (c - 71)%N
  else if ((48 <=? c) && (c <=? 57))%N then Some (c + 4)%N
  else if (c =? 43)%N then Some 62%N
  else if (c =? 47)%N then Some 63%N
  else None.

Fixpoint base64_decode (s : jsstring) : option (list N) :=
  match s with
  | [] => Some []
  | c1 :: c2 :: c3 :: c4 :: rest =>
      match b64_value c1, b64_value c2 with
      | Some v1, Some v2 =>
          if (c3 =? 61)%N && (c4 =? 61)%N then
            match rest with
            | [] => Some [(v1 * 4 + v2 / 16)%N]
            | _ :: _ => None
            end
          else
            match b64_value c3 with
            | Some v3 =>
                if (c4 =? 61)%N then
                  match rest with
                  | [] => Some [(v1 * 4 + v2 / 16)%N; ((v2 mod 16) * 16 + v3 / 4)%N]
                  | _ :: _ => None
                  end
                else
                  match b64_value c4 with
                  | Some v4 =>
                      option_map
                        (fun bs => (v1 * 4 + v2 / 16)%N :: ((v2 mod 16) * 16 + v3 / 4)%N
                                   :: ((v3 mod 4) * 64 + v4)%N :: bs)
                        (base64_decode rest)
                  | None => None
                  end
            | None => None
            end
      | _, _ => None
      end
  | _ => None
  end.

Definition unsalt (s : jsstring) : option jsstring :=
  let n := (List.length s - List.length salt)%nat in
  if str_eqb (skipn n s) salt then Some (firstn n s) else None.

Definition recoverPass (h : jsstring) : option jsstring :=
  match base64_decode h with
  | Some bs => unsalt (flat_map utf16_of_code_point (utf8_decode 0%N 0 bs))
  | None => None
  end.

(* ================================================================== *)
(** ** Accounts and the session (lines 17-32, 929-960, 1083-1099, 1206-1238, 1305-1306, 1363-1399) *)
(* ================================================================== *)

(** The objects kept under the storage keys.  A profile has the fields the
    object literals of the source give it: [phone], [crops] and [username]
    are not in all of them. *)
Module Profile.
Record t : Type := {
  name : jsstring;
  role : jsstring;
  state : jsstring;
  district : jsstring;
  farmSize : jsstring;
  phone : option jsstring;
  crops : option jsstring;
  username : option jsstring
}.
End Profile.

Module User.
Record t : Type := { passwordHash : jsstring; profile : Profile.t; createdAt : N }.
End User.

Module Session.
Record t : Type := { username : jsstring; loggedInAt : N }.
End Session.

Module RegisterForm.
Record t : Type := {
  username : jsstring;
  password : jsstring;
  confirmPassword : jsstring;
  name : jsstring;
  role : jsstring;
  state : jsstring;
  phone : jsstring
}.
End RegisterForm.

(** What [window.storage] holds under the keys of the application.  The
    users object is the list of its own properties; reading it goes through
    [get], so through Object.prototype as well. *)
Module Storage.
Record t : Type := {
  AgroVue_users : option (list (jsstring * User.t));
  AgroVue_session : option Session.t;
  AgroVue_profile : option Profile.t;
  AgroVue_chat : option (list HistoryItem);
  AgroVue_alerts : option (list Alerts.Alert);
  AgroVue_alert_thresholds : option (N * N)
}.

Definition empty : t := Build_t None None None None None None.

Definition set_users (v : option (list (jsstring * User.t))) (s : t) : t :=
  Build_t v (AgroVue_session s) (AgroVue_profile s) (AgroVue_chat s)
    (AgroVue_alerts s) (AgroVue_alert_thresholds s).
Definition set_session (v : option Session.t) (s : t) : t :=
  Build_t (AgroVue_users s) v (AgroVue_profile s) (AgroVue_chat s)
    (AgroVue_alerts s) (AgroVue_alert_thresholds s).
Definition set_profile (v : option Profile.t) (s : t) : t :=
  Build_t (AgroVue_users s) (AgroVue_session s) v (AgroVue_chat s)
    (AgroVue_alerts s) (AgroVue_alert_thresholds s).
Definition set_chat (v : option (list HistoryItem)) (s : t) : t :=
  Build_t (AgroVue_users s) (AgroVue_session s) (AgroVue_profile s) v
    (AgroVue_alerts s) (AgroVue_alert_thresholds s).
Definition set_alerts (v : option (list Alerts.Alert)) (s : t) : t :=
  Build_t (AgroVue_users s) (AgroVue_session s) (AgroVue_profile s) (AgroVue_chat s)
    v (AgroVue_alert_thresholds s).
Definition set_alert_thresholds (v : option (N * N)) (s : t) : t :=
  Build_t (AgroVue_users s) (AgroVue_session s) (AgroVue_profile s) (AgroVue_chat s)
    (AgroVue_alerts s) v.
End Storage.

(** The page's [window.storage]: [None] where the host gives none, and
    every call on it throws. *)
Definition Window : Type := option Storage.t.

(** [save] keeps what [set] throws to itself. *)
Definition save {A : Type} (set : option A -> Storage.t -> Storage.t) (val : A)
    (w : Window) : Window :=
  option_map (set (Some val)) w.

(** [load]: the fallback for a key that is not there and for a call that
    throws. *)
Definition load {A : Type} (key : Storage.t -> option A) (fallback : A) (w : Window) : A :=
  match w with
  | Some s => match key s with Some v => v | None => fallback end
  | None => fallback
  end.

Definition DEFAULT_PROFILE : Profile.t :=
  {| Profile.name := js "AgroVue"; Profile.role := js "Farmer";
     Profile.state := js "Andhra Pradesh"; Profile.district := js "Krishna";
     Profile.farmSize := js "8.5"; Profile.phone := Some [];
     Profile.crops := Some (js "Wheat, Rice, Onion"); Profile.username := None |}.

Definition DEFAULT_USER : Profile.t :=
  {| Profile.name := js "AgroVue User"; Profile.role := js "Farmer";
     Profile.state := []; Profile.district := []; Profile.farmSize := [];
     Profile.phone := None; Profile.crops := None; Profile.username := Some [] |}.

(** *** The register screen *)

(** [/^[a-zA-Z0-9_]+$/.test(s)] *)
Definition is_word_unit (c : N) : bool :=
  ((97 <=? c) && (c <=? 122) || (65 <=? c) && (c <=? 90) || (48 <=? c) && (c <=? 57)
   || (c =? 95))%N.

Definition only_word_units (s : jsstring) : bool :=
  match s with
  | [] => false
  | _ :: _ => forallb is_word_unit s
  end.

Definition validate (form : RegisterForm.t) : option jsstring :=
  if negb (truthy (trim (RegisterForm.username form))) then
    Some (js "Username is required.")
  else if (List.length (trim (RegisterForm.username form)) <? 3)%nat then
    Some (js "Username must be at least 3 characters.")
  else if negb (only_word_units (trim (RegisterForm.username form))) then
    Some (js "Username: only letters, numbers, underscores.")
  else if negb (truthy (RegisterForm.password form)) then
    Some (js "Password is required.")
  else if (List.length (RegisterForm.password form) <? 6)%nat then
    Some (js "Password must be at least 6 characters.")
  else if negb (str_eqb (RegisterForm.password form) (RegisterForm.confirmPassword form)) then
    Some (js "Passwords do not match.")
  else if negb (truthy (trim (RegisterForm.name form))) then
    Some (js "Full name is required.")
  else None.

(** The strength shown under the password field, once something is typed
    (lines 1305-1306). *)
Definition strength (password : jsstring) : nat :=
  if (10 <=? List.length password)%nat
     && existsb (fun c => (65 <=? c) && (c <=? 90))%N password
     && existsb (fun c => (48 <=? c) && (c <=? 57))%N password then 4
  else if (8 <=? List.length password)%nat then 3
  else if (6 <=? List.length password)%nat then 2
  else 1.

Definition something_went_wrong : jsstring := js "Something went wrong. Please try again.".

Inductive RegisterResult : Type :=
| RegisterError (error : jsstring)
| AccountCreated (success : jsstring) (profile : Profile.t).

(** [handleRegister], with the two readings of the clock it makes.  The
    new user becomes the last own property of the users object (the place
    of a property matters to no reading by name). *)
Definition handleRegister (toLowerCase : jsstring -> jsstring) (w : Window)
    (form : RegisterForm.t) (createdAt loggedInAt : N) : Window * RegisterResult :=
  match validate form with
  | Some err => (w, RegisterError (js "❌ " ++ err))
  | None =>
      let users := load Storage.AgroVue_users [] w in
      let key := toLowerCase (trim (RegisterForm.username form)) in
      match get users key with
      | Own _ | Inherited _ =>
          (w, RegisterError (js "❌ Username already taken. Please choose another."))
      | Undefined =>
          let profile :=
            {| Profile.name := trim (RegisterForm.name form);
               Profile.role := RegisterForm.role form;
               Profile.state := RegisterForm.state form;
               Profile.district := [];
               Profile.farmSize := [];
               Profile.phone := Some (RegisterForm.phone form);
               Profile.crops := Some [];
               Profile.username := Some key |} in
          match hashPass (RegisterForm.password form) with
          | Raise _ => (w, RegisterError something_went_wrong)
          | Ok hash =>
              let users' :=
                users ++ [(key, {| User.passwordHash := hash; User.profile := profile;
                                   User.createdAt := createdAt |})] in
              let w1 := save Storage.set_users users' w in
              let w2 := save Storage.set_session
                          {| Session.username := key; Session.loggedInAt := loggedInAt |} w1 in
              let w3 := save Storage.set_profile profile w2 in
              (w3, AccountCreated (js "✅ Account created! Logging you in…") profile)
          end
      end
  end.

(** *** The login screen *)

Inductive LoginResult : Type :=
| LoginError (error : jsstring)
| LoggedIn (profile : Profile.t).

Definition handleLogin (toLowerCase : jsstring -> jsstring) (w : Window)
    (username password : jsstring) (now : N) : Window * LoginResult :=
  if negb (truthy (trim username)) || negb (truthy (trim password)) then
    (w, LoginError (js "Please enter both username and password."))
  else
    let users := load Storage.AgroVue_users [] w in
    let key := toLowerCase (trim username) in
    match get users key with
    | Undefined => (w, LoginError (js "❌ Username not found. Please register first."))
    | Inherited _ =>
        (* the inherited value has no passwordHash *)
        match hashPass password with
        | Raise _ => (w, LoginError something_went_wrong)
        | Ok _ => (w, LoginError (js "❌ Incorrect password. Please try again."))
        end
    | Own user =>
        match hashPass password with
        | Raise _ => (w, LoginError something_went_wrong)
        | Ok hash =>
            if str_eqb (User.passwordHash user) hash then
              (save Storage.set_session
                 {| Session.username := key; Session.loggedInAt := now |} w,
               LoggedIn (User.profile user))
            else (w, LoginError (js "❌ Incorrect password. Please try again."))
        end
    end.

(** *** The root component: who is logged in *)

Record AppState : Type := { user : Profile.t; loggedIn : bool }.

(** The effect run when the page is opened. *)
Definition restoreSession (w : Window) : AppState :=
  match load (fun s => option_map Some (Storage.AgroVue_session s)) None w with
  | Some session =>
      if truthy (Session.username session) then
        {| user := load Storage.AgroVue_profile DEFAULT_USER w; loggedIn := true |}
      else {| user := DEFAULT_USER; loggedIn := false |}
  | None => {| user := DEFAULT_USER; loggedIn := false |}
  end.

Definition onLogin (profile : Profile.t) : AppState :=
  {| user := profile; loggedIn := true |}.

Definition handleLogout (w : Window) : Window * AppState :=
  (option_map (Storage.set_session None) w, {| user := DEFAULT_USER; loggedIn := false |}).

(** *** The profile page *)

(** The form the page opens with. *)
Definition profileForm (w : Window) : Profile.t :=
  load Storage.AgroVue_profile DEFAULT_PROFILE w.

Definition handleSave (w : Window) (app : AppState) (form : Profile.t) : Window * AppState :=
  (save Storage.set_profile form w, {| user := form; loggedIn := loggedIn app |}).

(** [window.storage.delete] of one key.  Whether it throws for a key that
    is not there is the host's choice: [strict] says it does. *)
Definition delete {A : Type} (strict : bool) (key : Storage.t -> option A)
    (set : option A -> Storage.t -> Storage.t) (s : Storage.t) : option Storage.t :=
  match key s with
  | Some _ => Some (set None s)
  | None => if strict then None else Some s
  end.

(** [clearAll], once confirmed: the keys are deleted in turn and the page
    is opened again; a call that throws ends it with the alert of the
    error, what was deleted before staying deleted. *)
Inductive ClearResult : Type :=
| Reloaded (app : AppState)
| ClearError.

Definition clearAll (strict : bool) (w : Window) : Window * ClearResult :=
  match w with
  | None => (None, ClearError)
  | Some s0 =>
      match delete strict Storage.AgroVue_profile Storage.set_profile s0 with
      | None => (Some s0, ClearError)
      | Some s1 =>
      match delete strict Storage.AgroVue_chat Storage.set_chat s1 with
      | None => (Some s1, ClearError)
      | Some s2 =>
      match delete strict Storage.AgroVue_alerts Storage.set_alerts s2 with
      | None => (Some s2, ClearError)
      | Some s3 =>
      match delete strict Storage.AgroVue_alert_thresholds Storage.set_alert_thresholds s3 with
      | None => (Some s3, ClearError)
      | Some s4 =>
      match delete strict Storage.AgroVue_session Storage.set_session s4 with
      | None => (Some s4, ClearError)
      | Some s5 => (Some s5, Reloaded (restoreSession (Some s5)))
      end end end end end
  end.

(* ================================================================== *)
(** ** The voice assistant ([VoiceAssistant], lines 664-763) *)
(* ================================================================== *)

Module SpeechRecognitionResult.
(** A result of the recognition: the transcript of its first alternative
    and whether it is final. *)
Record t : Type := { transcript : jsstring; isFinal : bool }.
End SpeechRecognitionResult.

Module Voice.

Inductive Phase : Type := idle | listening | processing | speaking.

(** The state of the component, the flag of [processingRef], and the
    utterance the speech synthesis has been given. *)
Record State : Type := {
  phase : Phase;
  transcript : jsstring;
  response : jsstring;
  error : jsstring;
  processingRef : bool;
  utterance : option jsstring
}.

Definition could_not_respond : jsstring :=
  js "⚠️ Could not get a response. Please try again.".

Section Assistant.

Variable toLowerCase : jsstring -> jsstring.
Variable network : Network.
(** Whether the page has [window.speechSynthesis]. *)
Variable speechSynthesis : bool.
Variable crop : jsstring.

(** [speak]: nothing without a speech synthesis; with one, what was being
    said is cancelled and the cleaned text is said. *)
Definition speak (st : State) (text : jsstring) : State :=
  if speechSynthesis then
    {| phase := phase st; transcript := transcript st; response := response st;
       error := error st; processingRef := processingRef st;
       utterance := Some (speech_text text) |}
  else st.

(** The end of the utterance ([utt.onend]). *)
Definition onend (st : State) : State :=
  {| phase := idle; transcript := transcript st; response := response st;
     error := error st; processingRef := processingRef st; utterance := None |}.

(** [processQuestion], as far as it gets: while the request is not
    settled the flag is up and the phase is processing. *)
Definition processQuestion (st : State) (finalText : jsstring) : State :=
  if processingRef st then st
  else
    match await_getAIReply toLowerCase network finalText crop [] with
    | Pending =>
        {| phase := processing; transcript := finalText; response := response st;
           error := error st; processingRef := true; utterance := utterance st |}
    | Settled (Returns replyText) =>
        speak {| phase := speaking; transcript := finalText; response := replyText;
                 error := error st; processingRef := false; utterance := utterance st |}
          replyText
    | Settled (Throws _) =>
        {| phase := idle; transcript := finalText; response := response st;
           error := could_not_respond; processingRef := false;
           utterance := utterance st |}
    end.

(** [recog.onresult]: the transcript shown is all the results put together;
    when the last result is final the final ones, joined by spaces and
    trimmed, are the question.  An empty list of results has no last one
    to read [isFinal] of. *)
Definition onresult (st : State) (results : list SpeechRecognitionResult.t)
    : State * Completion unit :=
  let interim := join [] (map SpeechRecognitionResult.transcript results) in
  let st1 := {| phase := phase st; transcript := interim; response := response st;
                error := error st; processingRef := processingRef st;
                utterance := utterance st |} in
  match nth_error results (List.length results - 1) with
  | None => (st1, Throws TypeError)
  | Some r =>
      if SpeechRecognitionResult.isFinal r then
        let finalText :=
          trim (join (js " ")
                  (map SpeechRecognitionResult.transcript
                     (filter SpeechRecognitionResult.isFinal results))) in
        (processQuestion st1 finalText, Returns tt)
      else (st1, Returns tt)
  end.

(** [stopListening] *)
Definition stopListening (st : State) : State :=
  match phase st with
  | listening =>
      {| phase := idle; transcript := transcript st; response := response st;
         error := error st; processingRef := processingRef st; utterance := utterance st |}
  | speaking =>
      {| phase := idle; transcript := transcript st; response := response st;
         error := error st; processingRef := processingRef st;
         utterance := if speechSynthesis then None else utterance st |}
  | _ => st
  end.

End Assistant.

End Voice.

(* ================================================================== *)
(** ** Facts about the runtime *)
(* ================================================================== *)

Lemma unit_eqb_eq (a b : N) : unit_eqb a b = true <-> a = b.
Proof. apply N.eqb_eq. Qed.

Lemma unit_eqb_refl (a : N) : unit_eqb a a = true.
Proof. apply N.eqb_refl. Qed.

Lemma str_eqb_eq (a b : jsstring) : str_eqb a b = true <-> a = b.
Proof.
  revert b; induction a as [|x a IH]; intros [|y b]; simpl; split;
    try congruence; try reflexivity.
  - intros H. apply andb_true_iff in H as [Hx Hr].
    apply unit_eqb_eq in Hx. apply IH in Hr. congruence.
  - intros H. injection H as -> ->. rewrite unit_eqb_refl. simpl. now apply IH.
Qed.

Lemma str_eqb_neq (a b : jsstring) : str_eqb a b = false <-> a <> b.
Proof.
  split.
  - intros H E. apply str_eqb_eq in E. congruence.
  - intros H. destruct (str_eqb a b) eqn:E; [|reflexivity].
    apply str_eqb_eq in E. contradiction.
Qed.

(** [startsWith s t] holds exactly when [t] is a prefix of [s]. *)
Lemma startsWith_spec (s t : jsstring) :
  startsWith s t = true <-> exists post, s = t ++ post.
Proof.
  revert s; induction t as [|b t IH]; intros s; simpl.
  - split; [intros _; now exists s | reflexivity].
  - destruct s as [|a s].
    + split; [discriminate | intros [post H]; discriminate].
    + rewrite andb_true_iff, unit_eqb_eq, IH. split.
      * intros [-> [post ->]]. now exists post.
      * intros [post H]. injection H as -> ->. split; [reflexivity | now exists post].
Qed.

(** [includes s t] holds exactly when [t] occurs in [s] as a substring. *)
Lemma includes_spec (s t : jsstring) :
  includes s t = true <-> exists pre post, s = pre ++ t ++ post.
Proof.
  induction s as [|a s IH]; simpl.
  - rewrite orb_false_r, startsWith_spec. split.
    + intros [post H]. now exists [], post.
    + intros [pre [post H]]. destruct pre; simpl in H.
      * now exists post.
      * discriminate.
  - rewrite orb_true_iff, startsWith_spec, IH. split.
    + intros [[post H] | [pre [post H]]].
      * now exists [], post.
      * exists (a :: pre), post. simpl. now rewrite H.
    + intros [pre [post H]]. destruct pre as [|x pre]; simpl in H.
      * left. now exists post.
      * right. injection H as -> H. now exists pre, post.
Qed.

Lemma includes_here (t post : jsstring) : includes (t ++ post) t = true.
Proof. apply includes_spec. now exists [], post. Qed.

Lemma includes_skip (pre s t : jsstring) :
  includes s t = true -> includes (pre ++ s) t = true.
Proof.
  rewrite !includes_spec. intros [a [b ->]]. exists (pre ++ a), b.
  now rewrite <- app_assoc.
Qed.

Lemma includes_last (t : jsstring) : includes t t = true.
Proof. apply includes_spec. exists [], []. simpl. now rewrite app_nil_r. Qed.

(** Runs the code on the concrete inputs of a goal. *)
Ltac run := vm_compute; reflexivity.
Ltac run_all := repeat (apply conj); run.

(** Finds [t] among the pieces of a concatenation. *)
Ltac find_piece :=
  first [ apply includes_here
        | apply includes_last
        | apply includes_skip; find_piece ].

(** *** The head of a sorted array *)

Lemma insert_head {A : Type} (cmp : A -> A -> Z) (x : A) (l : list A) :
  nth_error (insert cmp x l) 0 =
  match nth_error l 0 with
  | None => Some x
  | Some y => if (cmp x y <=? 0)%Z then Some x else Some y
  end.
Proof. destruct l as [|y l]; simpl; [reflexivity|]. now destruct (cmp x y <=? 0)%Z. Qed.

Lemma insert_length {A : Type} (cmp : A -> A -> Z) (x : A) (l : list A) :
  List.length (insert cmp x l) = S (List.length l).
Proof.
  induction l as [|y l IH]; simpl; [reflexivity|].
  destruct (cmp x y <=? 0)%Z; simpl; congruence.
Qed.

Lemma sort_length {A : Type} (cmp : A -> A -> Z) (l : list A) :
  List.length (sort cmp l) = List.length l.
Proof.
  induction l as [|x l IH]; simpl; [reflexivity|].
  now rewrite insert_length, IH.
Qed.

(** [sort] by descending score is a stable sort: a permutation, in
    descending order, in which the entries of equal score keep the order
    they had. *)
Lemma insert_permutation {A : Type} (cmp : A -> A -> Z) (x : A) (l : list A) :
  Permutation (x :: l) (insert cmp x l).
Proof.
  induction l as [|y l IH]; cbn [insert]; [reflexivity|].
  destruct (cmp x y <=? 0)%Z; [reflexivity|].
  rewrite perm_swap. now constructor.
Qed.

Lemma sort_permutation {A : Type} (cmp : A -> A -> Z) (l : list A) :
  Permutation l (sort cmp l).
Proof.
  induction l as [|x l IH]; cbn [sort]; [constructor|].
  rewrite <- insert_permutation. now constructor.
Qed.

Lemma insert_sorted (x : Intent.t * Z) (l : list (Intent.t * Z)) :
  Sorted score_ge l -> Sorted score_ge (insert by_score_desc x l).
Proof.
  induction l as [|y l IH]; intros Hs; cbn [insert].
  - repeat constructor.
  - unfold by_score_desc at 1.
    destruct (Z.leb_spec (snd y - snd x) 0) as [Hc|Hc].
    + constructor; [exact Hs|]. constructor. unfold score_ge. lia.
    + inversion Hs as [|? ? Hl Hh]; subst. constructor; [now apply IH|].
      destruct l as [|z l]; cbn [insert].
      * constructor. unfold score_ge. lia.
      * destruct (by_score_desc x z <=? 0)%Z.
        -- constructor. unfold score_ge. lia.
        -- constructor. now inversion Hh.
Qed.

Lemma sort_sorted (l : list (Intent.t * Z)) : Sorted score_ge (sort by_score_desc l).
Proof.
  induction l as [|x l IH]; cbn [sort]; [constructor | now apply insert_sorted].
Qed.

Lemma insert_stable (v : Z) (x : Intent.t * Z) (l : list (Intent.t * Z)) :
  filter (fun p => (snd p =? v)%Z) (insert by_score_desc x l) =
  filter (fun p => (snd p =? v)%Z) (x :: l).
Proof.
  induction l as [|y l IH]; cbn [insert]; [reflexivity|].
  unfold by_score_desc at 1.
  destruct (Z.leb_spec (snd y - snd x) 0) as [Hc|Hc]; [reflexivity|].
  cbn [filter] in *. rewrite IH.
  destruct (Z.eqb_spec (snd y) v) as [Ey|Ey]; destruct (Z.eqb_spec (snd x) v) as [Ex|Ex];
    try reflexivity; lia.
Qed.

Lemma sort_stable (v : Z) (l : list (Intent.t * Z)) :
  filter (fun p => (snd p =? v)%Z) (sort by_score_desc l) =
  filter (fun p => (snd p =? v)%Z) l.
Proof.
  induction l as [|x l IH]; cbn [sort]; [reflexivity|].
  rewrite insert_stable. cbn [filter]. now rewrite IH.
Qed.

(** Sorted by descending score, the first entry is the first one of the
    array that has the greatest score. *)
Lemma sort_head_first_max (l : list (Intent.t * Z)) (w : Intent.t * Z) :
  nth_error (sort by_score_desc l) 0 = Some w ->
  exists l1 l2,
    l = l1 ++ w :: l2 /\
    (forall p, In p l1 -> (snd p < snd w)%Z) /\
    (forall p, In p l2 -> (snd p <= snd w)%Z).
Proof.
  revert w; induction l as [|x l IH]; intros w.
  - discriminate.
  - cbn [sort]. rewrite insert_head.
    destruct (nth_error (sort by_score_desc l) 0) as [y|] eqn:Hy.
    + destruct (IH y eq_refl) as (l1 & l2 & Hl & Hlt & Hle).
      unfold by_score_desc at 1.
      destruct (Z.leb_spec (snd y - snd x) 0) as [Hc|Hc]; intros [= <-].
      * exists [], l. split; [reflexivity|]. split; [intros p []|].
        intros p Hp. rewrite Hl in Hp. apply in_app_or in Hp as [Hp|[<-|Hp]].
        -- specialize (Hlt p Hp). lia.
        -- lia.
        -- specialize (Hle p Hp). lia.
      * exists (x :: l1), l2. split; [simpl; now rewrite Hl|]. split; [|exact Hle].
        intros p [<-|Hp]; [lia | now apply Hlt].
    + intros [= <-]. assert (El : l = []).
      { destruct l as [|z l]; [reflexivity|].
        pose proof (sort_length by_score_desc (z :: l)) as Hlen.
        destruct (sort by_score_desc (z :: l)); simpl in *; discriminate. }
      subst l. exists [], []. split; [reflexivity|]. split; intros p [].
Qed.

Lemma sort_head_some {A : Type} (cmp : A -> A -> Z) (x : A) (l : list A) :
  exists w, nth_error (sort cmp (x :: l)) 0 = Some w.
Proof.
  cbn [sort]. rewrite insert_head.
  destruct (nth_error (sort cmp l) 0) as [y|]; [|now exists x].
  destruct (cmp x y <=? 0)%Z; [now exists x | now exists y].
Qed.

(* ================================================================== *)
(** ** The keyword classifier *)
(* ================================================================== *)

Lemma has_count_from (q : jsstring) (terms : list jsstring) (acc : Z) :
  fold_left (fun score t => (score + (if includes q t then 1 else 0))%Z) terms acc =
  (acc + Z.of_nat (List.length (filter (fun t => includes q t) terms)))%Z.
Proof.
  revert acc; induction terms as [|t terms IH]; intros acc; simpl.
  - lia.
  - rewrite IH. destruct (includes q t); simpl List.length; lia.
Qed.

Lemma has_count (q : jsstring) (terms : list jsstring) :
  has q terms = Z.of_nat (List.length (filter (fun t => includes q t) terms)).
Proof. unfold has. now rewrite has_count_from. Qed.

Lemma has_bounds (q : jsstring) (terms : list jsstring) :
  (0 <= has q terms <= Z.of_nat (List.length terms))%Z.
Proof.
  rewrite has_count. pose proof (filter_length_le (fun t => includes q t) terms). lia.
Qed.

Lemma score_nonneg (q : jsstring) (i : Intent.t) : (0 <= score q i)%Z.
Proof. apply has_bounds. Qed.

Lemma Intent_eq_dec (a b : Intent.t) : {a = b} + {a <> b}.
Proof. decide equality. Defined.

Lemma general_not_a_key : ~ In Intent.general score_keys.
Proof. simpl. intuition discriminate. Qed.

(** The winning entry: the first key of [scores] with the greatest score. *)
Lemma topIntent_spec (q : jsstring) :
  exists w before after,
    topIntent q = Some (w, score q w) /\
    score_keys = before ++ w :: after /\
    (forall j, In j before -> (score q j < score q w)%Z) /\
    (forall j, In j after -> (score q j <= score q w)%Z).
Proof.
  unfold topIntent.
  destruct (sort_head_some by_score_desc (Intent.price, score q Intent.price)
              (tl (scores q))) as [[w v] Hw].
  change ((Intent.price, score q Intent.price) :: tl (scores q)) with (scores q) in Hw.
  destruct (sort_head_first_max _ _ Hw) as (l1 & l2 & Hl & Hlt & Hle).
  unfold scores in Hl. apply map_eq_app in Hl as (before & rest & Hk & Hb & Hr).
  apply map_eq_cons in Hr as (w' & after & -> & Hw' & Ha).
  injection Hw' as -> <-.
  exists w, before, after. rewrite Hw. split; [reflexivity|]. split; [exact Hk|].
  split; intros j Hj.
  - apply (Hlt (j, score q j)). rewrite <- Hb. now apply (in_map (fun i => (i, score q i))).
  - apply (Hle (j, score q j)). rewrite <- Ha. now apply (in_map (fun i => (i, score q i))).
Qed.

Lemma classify_spec (q : jsstring) :
  exists w before after,
    classify q = Some (if (0 <? score q w)%Z then w else Intent.general) /\
    score_keys = before ++ w :: after /\
    (forall j, In j before -> (score q j < score q w)%Z) /\
    (forall j, In j after -> (score q j <= score q w)%Z).
Proof.
  destruct (topIntent_spec q) as (w & before & after & Ht & Hk & Hlt & Hle).
  exists w, before, after. unfold classify. rewrite Ht. simpl. now unfold intent_of.
Qed.

Lemma score_le_winner (q : jsstring) (w : Intent.t) (before after : list Intent.t) :
  score_keys = before ++ w :: after ->
  (forall j, In j before -> (score q j < score q w)%Z) ->
  (forall j, In j after -> (score q j <= score q w)%Z) ->
  forall j, (score q j <= score q w)%Z.
Proof.
  intros Hk Hlt Hle j.
  assert (Hj : In j score_keys \/ j = Intent.general).
  { destruct j; simpl; intuition. }
  destruct Hj as [Hj| ->].
  - rewrite Hk in Hj. apply in_app_or in Hj as [Hj|[<-|Hj]].
    + specialize (Hlt j Hj). lia.
    + lia.
    + now apply Hle.
  - unfold score at 1. simpl. apply score_nonneg.
Qed.

Lemma existsb_str_In (x : jsstring) (l : list jsstring) :
  existsb (str_eqb x) l = true -> In x l.
Proof.
  intros H. apply existsb_exists in H as (y & Hy & E).
  apply str_eqb_eq in E. now subst y.
Qed.

Lemma all_terms_absent_score_zero (q : jsstring) (i : Intent.t) :
  (forall t, In t (terms_of i) -> includes q t = false) -> score q i = 0%Z.
Proof.
  intros H. unfold score. rewrite has_count.
  replace (filter (fun t => includes q t) (terms_of i)) with (@nil jsstring); [reflexivity|].
  symmetry. induction (terms_of i) as [|t l IH]; simpl; [reflexivity|].
  rewrite (H t (or_introl eq_refl)). apply IH. intros t' Ht'. apply H. now right.
Qed.

(** C7.  The score of an intent is the number of its keyword literals that
    occur in the normalized question as a substring: every literal of the
    list counts once if it occurs ([includes], which holds exactly when the
    literal is a substring) and not at all otherwise, however often it
    occurs; the score lies between 0 and the length of the list; and the
    entries of [scores] are these counts, in the order of the keys. *)
Theorem score_counts_present_terms (q : jsstring) (i : Intent.t) :
  score q i = Z.of_nat (List.length (filter (fun t => includes q t) (terms_of i))) /\
  (0 <= score q i <= Z.of_nat (List.length (terms_of i)))%Z /\
  (forall t, includes q t = true <-> exists pre post, q = pre ++ t ++ post) /\
  (forall t, has q [t] = if includes q t then 1%Z else 0%Z) /\
  scores q =
    map (fun k => (k, Z.of_nat (List.length (filter (fun t => includes q t) (terms_of k)))))
        score_keys.
Proof.
  split; [apply has_count|]. split; [apply has_bounds|].
  split; [intros t; apply includes_spec|]. split.
  - intros t. unfold has. simpl. now destruct (includes q t).
  - unfold scores. apply map_ext. intros k. unfold score. now rewrite has_count.
Qed.

(** A literal that occurs three times in the question still counts once. *)
Example repeated_term_counts_once :
  has (js "price price price") [js "price"] = 1%Z /\
  score (js "price price price") Intent.price = 1%Z.
Proof. run_all. Qed.

Lemma key_or_general (j : Intent.t) : In j score_keys \/ j = Intent.general.
Proof. destruct j; cbn [In score_keys]; intuition. Qed.

Lemma positive_score_is_key (q : jsstring) (j : Intent.t) :
  (0 < score q j)%Z -> In j score_keys.
Proof.
  intros H. destruct (key_or_general j) as [Hj| ->]; [exact Hj|].
  unfold score in H. cbn in H. lia.
Qed.

(** C2.  When the question holds keywords of two different intents [a] and
    [b], [classify] returns an intent [w] whose score is the greatest of
    all, and every intent declared before [w] in [scores] scores strictly
    less: among tied intents the first declared wins.  When no third intent
    scores, [w] is the one of [a] and [b] with more matched literals, and on
    equal counts the one declared first.  [classify] is a function of the
    question, so repeated calls agree. *)
Theorem classify_most_keywords_first_tie (q : jsstring) (a b : Intent.t) :
  a <> b -> (0 < score q a)%Z -> (0 < score q b)%Z ->
  exists w before after,
    classify q = Some w /\
    score_keys = before ++ w :: after /\
    (forall j, (score q j <= score q w)%Z) /\
    (forall j, In j before -> (score q j < score q w)%Z) /\
    ((forall j, j <> a -> j <> b -> score q j = 0%Z) ->
     ((score q b < score q a)%Z -> w = a) /\
     ((score q a < score q b)%Z -> w = b) /\
     (score q a = score q b -> (w = a /\ In b after) \/ (w = b /\ In a after))).
Proof.
  intros Hab Ha Hb.
  destruct (classify_spec q) as (w & before & after & Hc & Hk & Hlt & Hle).
  pose proof (score_le_winner q w before after Hk Hlt Hle) as Hmax.
  exists w, before, after.
  assert (Hpos : (0 < score q w)%Z) by (specialize (Hmax a); lia).
  destruct (Z.ltb_spec 0 (score q w)) as [_|Hneg]; [|lia].
  split; [exact Hc|]. split; [exact Hk|]. split; [exact Hmax|]. split; [exact Hlt|].
  intros Hothers.
  assert (Hw : w = a \/ w = b).
  { destruct (Intent_eq_dec w a) as [E|Na]; [now left|].
    destruct (Intent_eq_dec w b) as [E|Nb]; [now right|].
    rewrite (Hothers w Na Nb) in Hpos. lia. }
  assert (Hafter : forall x, x <> w -> (0 < score q x)%Z -> score q x = score q w ->
                             In x after).
  { intros x Hx Hxpos Hxeq. pose proof (positive_score_is_key q x Hxpos) as Hin.
    rewrite Hk in Hin. apply in_app_or in Hin as [Hin|[E|Hin]].
    - specialize (Hlt x Hin). lia.
    - now contradiction Hx.
    - exact Hin. }
  split; [|split].
  - intros Hlt'. destruct Hw as [E|E]; [exact E|]. subst w. specialize (Hmax a). lia.
  - intros Hlt'. destruct Hw as [E|E]; [|exact E]. subst w. specialize (Hmax b). lia.
  - intros Heq. destruct Hw as [E|E]; subst w.
    + left. split; [reflexivity|]. apply Hafter; [congruence | exact Hb | now symmetry].
    + right. split; [reflexivity|]. apply Hafter; [congruence | exact Ha | exact Heq].
Qed.

Lemma classify_most_keywords_first_tie_witness :
  exists w before after,
    classify (js "kitna") = Some w /\
    score_keys = before ++ w :: after /\
    (forall j, (score (js "kitna") j <= score (js "kitna") w)%Z) /\
    (forall j, In j before -> (score (js "kitna") j < score (js "kitna") w)%Z) /\
    ((forall j, j <> Intent.price -> j <> Intent.disease -> score (js "kitna") j = 0%Z) ->
     ((score (js "kitna") Intent.disease < score (js "kitna") Intent.price)%Z ->
      w = Intent.price) /\
     ((score (js "kitna") Intent.price < score (js "kitna") Intent.disease)%Z ->
      w = Intent.disease) /\
     (score (js "kitna") Intent.price = score (js "kitna") Intent.disease ->
      (w = Intent.price /\ In Intent.disease after) \/
      (w = Intent.disease /\ In Intent.price after))).
Proof.
  apply (classify_most_keywords_first_tie (js "kitna") Intent.price Intent.disease).
  - discriminate.
  - vm_compute. reflexivity.
  - vm_compute. reflexivity.
Defined.

(** The tie of the witness is settled for [price], declared before
    [disease]; with two [sell] literals against one [price] literal the
    greater count wins although [price] is declared first. *)
Example classify_examples :
  classify (js "kitna") = Some Intent.price /\
  classify (js "kab beche today") = Some Intent.sell /\
  score (js "kab beche today") Intent.price = 1%Z /\
  score (js "kab beche today") Intent.sell = 2%Z.
Proof. run_all. Qed.

(** C3.  [classify] returns [general] exactly when each of the 15 keys of
    [scores] has score zero; in particular it does so when no literal of any
    list occurs in the question. *)
Theorem classify_general_iff_all_zero (q : jsstring) :
  List.length score_keys = 15 /\
  (classify q = Some Intent.general <->
   forall i, In i score_keys -> score q i = 0%Z) /\
  ((forall i t, In t (terms_of i) -> includes q t = false) ->
   classify q = Some Intent.general).
Proof.
  assert (Hiff : classify q = Some Intent.general <->
                 forall i, In i score_keys -> score q i = 0%Z).
  { destruct (classify_spec q) as (w & before & after & Hc & Hk & Hlt & Hle).
    pose proof (score_le_winner q w before after Hk Hlt Hle) as Hmax.
    rewrite Hc. destruct (Z.ltb_spec 0 (score q w)) as [Hpos|Hpos]; split.
    - intros [= ->]. exfalso. apply general_not_a_key. rewrite Hk.
      apply in_or_app. right. now left.
    - intros Hz. assert (Hw : In w score_keys).
      { rewrite Hk. apply in_or_app. right. now left. }
      specialize (Hz w Hw). lia.
    - intros _ i _. specialize (Hmax i). pose proof (score_nonneg q i). lia.
    - reflexivity. }
  split; [reflexivity|]. split; [exact Hiff|].
  intros Habs. apply Hiff. intros i _. apply all_terms_absent_score_zero, Habs.
Qed.

(** The empty question and a question without keywords. *)
Example classify_general_examples :
  classify (js "") = Some Intent.general /\
  classify (js "hello farmer") = Some Intent.general.
Proof. run_all. Qed.

(** C10.  Matching is by substring, not by word: the one-word question
    "kitna" scores 1 for [price] (its literal "kitna") and 1 for [disease]
    (whose literal "kit" occurs inside "kitna") and 0 for every other
    intent, and the tie is settled for [price] because [price] is declared
    before [disease]. *)
Theorem kitna_scores_two_intents :
  existsb is_space (js "kitna") = false /\
  normalize ascii_toLowerCase (js "kitna") = js "kitna" /\
  In (js "kitna") price_terms /\
  In (js "kit") disease_terms /\
  includes (js "kitna") (js "kit") = true /\
  score (js "kitna") Intent.price = 1%Z /\
  score (js "kitna") Intent.disease = 1%Z /\
  (forall i, i <> Intent.price -> i <> Intent.disease -> score (js "kitna") i = 0%Z) /\
  classify (js "kitna") = Some Intent.price /\
  (exists before after,
     score_keys = before ++ Intent.price :: after /\ In Intent.disease after).
Proof.
  split; [vm_compute; reflexivity|]. split; [vm_compute; reflexivity|].
  split; [apply existsb_str_In; vm_compute; reflexivity|].
  split; [apply existsb_str_In; vm_compute; reflexivity|].
  split; [vm_compute; reflexivity|]. split; [vm_compute; reflexivity|].
  split; [vm_compute; reflexivity|]. split.
  - intros i Hp Hd. destruct i; try (vm_compute; reflexivity); congruence.
  - split; [vm_compute; reflexivity|].
    exists [], (tl score_keys). split; [reflexivity|]. simpl. tauto.
Qed.

(* ================================================================== *)
(** ** The answer templates *)
(* ================================================================== *)

Ltac open_template :=
  cbv beta iota delta [renderFallback].

(** C1, as the code has it.  Every template but the one of [loan] contains
    the name of the resolved crop; the templates of [price], [sell],
    [profit], [harvest] and [general] contain the harvest window of the
    resolved crop's record as it prints, and those of [price], [sell],
    [sowing], [harvest] and [general] its season. *)
Theorem renderFallback_mentions (intent : Intent.t) (msg mentionedCrop : jsstring)
    (cm : CropMeta) (ct : TipValue) :
  (intent <> Intent.loan ->
   includes (renderFallback intent msg mentionedCrop cm ct) mentionedCrop = true) /\
  (In intent [Intent.price; Intent.sell; Intent.profit; Intent.harvest; Intent.general] ->
   includes (renderFallback intent msg mentionedCrop cm ct) (show_string (harvest cm)) = true) /\
  (In intent [Intent.price; Intent.sell; Intent.sowing; Intent.harvest; Intent.general] ->
   includes (renderFallback intent msg mentionedCrop cm ct) (show_string (season cm)) = true).
Proof.
  split; [|split].
  - intros Hloan. destruct intent; try congruence; open_template; find_piece.
  - intros Hin. destruct intent;
      try (exfalso; cbn [In] in Hin; intuition discriminate);
      open_template; find_piece.
  - intros Hin. destruct intent;
      try (exfalso; cbn [In] in Hin; intuition discriminate);
      open_template; find_piece.
Qed.

(** C1 fails as stated: for the question "loan" and the crop "Wheat" the
    resolved crop is Wheat, its harvest window is "Mar-Apr", and the answer
    contains neither. *)
Lemma loan_answer_omits_crop_and_harvest :
  exists out,
    getLocalFallback ascii_toLowerCase (js "loan") (js "Wheat") = Returns out /\
    classify (normalize ascii_toLowerCase (js "loan")) = Some Intent.loan /\
    mentionedCrop_of ascii_toLowerCase (normalize ascii_toLowerCase (js "loan")) (js "Wheat")
      = js "Wheat" /\
    harvest (cm_of ascii_toLowerCase (normalize ascii_toLowerCase (js "loan")) (js "Wheat"))
      = Some (js "Mar-Apr") /\
    includes out (js "Wheat") = false /\
    includes out (js "Mar-Apr") = false.
Proof.
  exists (renderFallback Intent.loan (js "loan") (js "Wheat") default_meta (TipText [])).
  run_all.
Qed.

(** The template of [msp] names the crop but not its harvest window. *)
Example msp_answer_omits_harvest :
  exists out,
    getLocalFallback ascii_toLowerCase (js "msp") (js "Wheat") = Returns out /\
    includes out (js "Wheat") = true /\
    includes out (js "Mar-Apr") = false /\
    includes out (js "1800-180-1551") = true.
Proof.
  exists (renderFallback Intent.msp (js "msp") (js "Wheat") default_meta (TipText [])).
  run_all.
Qed.

Lemma water_requirement_named (c : jsstring) :
  water_requirement c <> js "Moderate — check soil moisture before irrigating" ->
  In c [js "Rice"; js "Sugarcane"; js "Wheat"; js "Tomato"].
Proof.
  unfold water_requirement. intros H.
  destruct (str_eqb c (js "Rice")) eqn:E1; [apply str_eqb_eq in E1; now left|].
  destruct (str_eqb c (js "Sugarcane")) eqn:E2; [apply str_eqb_eq in E2; right; now left|].
  destruct (str_eqb c (js "Wheat")) eqn:E3;
    [apply str_eqb_eq in E3; right; right; now left|].
  destruct (str_eqb c (js "Tomato")) eqn:E4;
    [apply str_eqb_eq in E4; right; right; right; now left|].
  now contradiction H.
Qed.

(** C4 fails as stated: no five different crops have an irrigation message
    of their own in the [water] template. *)
Lemma water_template_has_no_five_named_crops :
  ~ exists l : list jsstring,
      NoDup l /\ List.length l = 5 /\
      forall c, In c l ->
        water_requirement c <> js "Moderate — check soil moisture before irrigating".
Proof.
  intros (l & Hnd & Hlen & H).
  assert (Hincl : incl l [js "Rice"; js "Sugarcane"; js "Wheat"; js "Tomato"]).
  { intros c Hc. apply water_requirement_named. now apply H. }
  pose proof (NoDup_incl_length Hnd Hincl) as Hle.
  rewrite Hlen in Hle. cbn [List.length] in Hle. lia.
Qed.

Lemma str_neq_eqb {a b : jsstring} : a <> b -> str_eqb a b = false.
Proof. apply str_eqb_neq. Qed.

(** C4, as the code has it.  The [storage] template gives the price-premium
    estimate for Potato and Onion and the short-term-holding text for every
    other crop; the [water] template gives four crops (Rice, Sugarcane,
    Wheat, Tomato) a message of their own and every other crop the generic
    message; the messages are all different, and each template contains the
    one chosen. *)
Theorem storage_and_water_branches (c : jsstring) :
  (c = js "Potato" \/ c = js "Onion" ->
   cold_storage_benefit c = js "25–40% price premium") /\
  (c <> js "Potato" -> c <> js "Onion" ->
   cold_storage_benefit c = js "short-term holding") /\
  js "25–40% price premium" <> js "short-term holding" /\
  (c = js "Rice" -> water_requirement c = js "High — 1200–2000 mm (flood or SRI method)") /\
  (c = js "Sugarcane" -> water_requirement c = js "High — irrigate every 10–15 days") /\
  (c = js "Wheat" ->
   water_requirement c = js "Medium — 4–6 irrigations (CRI, tillering, jointing, grain fill)") /\
  (c = js "Tomato" -> water_requirement c = js "Frequent — drip irrigation saves 40% water") /\
  (~ In c [js "Rice"; js "Sugarcane"; js "Wheat"; js "Tomato"] ->
   water_requirement c = js "Moderate — check soil moisture before irrigating") /\
  NoDup [js "High — 1200–2000 mm (flood or SRI method)";
         js "High — irrigate every 10–15 days";
         js "Medium — 4–6 irrigations (CRI, tillering, jointing, grain fill)";
         js "Frequent — drip irrigation saves 40% water";
         js "Moderate — check soil moisture before irrigating"] /\
  (forall msg cm ct,
     includes (renderFallback Intent.storage msg c cm ct) (cold_storage_benefit c) = true /\
     includes (renderFallback Intent.water msg c cm ct) (water_requirement c) = true).
Proof.
  split; [intros [->| ->]; vm_compute; reflexivity|].
  split.
  { intros H1 H2. unfold cold_storage_benefit.
    now rewrite (str_neq_eqb H1), (str_neq_eqb H2). }
  split; [vm_compute; discriminate|].
  split; [intros ->; vm_compute; reflexivity|].
  split; [intros ->; vm_compute; reflexivity|].
  split; [intros ->; vm_compute; reflexivity|].
  split; [intros ->; vm_compute; reflexivity|].
  split.
  { intros Hn. unfold water_requirement.
    rewrite !str_neq_eqb; [reflexivity| | | |];
      intros ->; apply Hn; cbn [In]; tauto. }
  split.
  { apply (NoDup_count_occ' (list_eq_dec N.eq_dec)).
    intros x Hx. cbn [In] in Hx.
    repeat (destruct Hx as [<-|Hx]; [vm_compute; reflexivity|]). destruct Hx. }
  intros msg cm ct. split; open_template; find_piece.
Qed.

(** The [weather], [export], [harvest], [variety] and [transport] templates
    have crop-specific parts as well. *)
Example other_templates_branch_too :
  cold_wave_effect (js "Tomato") <> cold_wave_effect (js "Wheat") /\
  export_markets (js "Chilli") <> export_markets (js "Wheat") /\
  maturity_signs (js "Onion") <> maturity_signs (js "Maize") /\
  recommended_varieties (js "Maize") <> recommended_varieties (js "Cotton") /\
  perishable_name (js "Tomato") <> perishable_name (js "Wheat").
Proof. repeat (apply conj); vm_compute; discriminate. Qed.

(* ================================================================== *)
(** ** The normalizer *)
(* ================================================================== *)

Lemma is_space_SP : is_space SP = true.
Proof. reflexivity. Qed.

Lemma trimEnd_cons_keep {c : N} (s : jsstring) :
  is_space c = false -> trimEnd (c :: s) = c :: trimEnd s.
Proof. intros H. cbn [trimEnd]. rewrite H. now destruct (trimEnd s). Qed.

Lemma trimEnd_cons_space {c : N} (s : jsstring) :
  is_space c = true ->
  trimEnd (c :: s) = match trimEnd s with [] => [] | r => c :: r end.
Proof. intros H. cbn [trimEnd]. now rewrite H. Qed.

(** After the white space has been collapsed, trimming the start is the
    same as not writing the leading space. *)
Lemma trimStart_collapse (b : bool) (s : jsstring) :
  trimStart (collapse_from b s) = collapse_from true s.
Proof.
  revert b; induction s as [|c s IH]; intros b; cbn [collapse_from].
  - reflexivity.
  - destruct (is_space c) eqn:Ec.
    + destruct b; [apply IH|]. cbn [trimStart]. rewrite is_space_SP. apply IH.
    + cbn [trimStart]. now rewrite Ec.
Qed.

Lemma words_by_nonempty (sep : N -> bool) (s : jsstring) :
  Forall (fun w => w <> []) (words_by sep s).
Proof.
  induction s as [|c s IH]; cbn [words_by]; [constructor|].
  destruct (sep c); [exact IH|].
  destruct (starts_word sep s).
  - destruct (words_by sep s) as [|w ws].
    + constructor; [discriminate | constructor].
    + inversion IH; subst. constructor; [discriminate | assumption].
  - constructor; [discriminate | exact IH].
Qed.

Lemma words_by_starts (sep : N -> bool) (s : jsstring) :
  starts_word sep s = true -> words_by sep s <> [].
Proof.
  destruct s as [|c s]; cbn [starts_word words_by]; [discriminate|].
  intros H. apply negb_true_iff in H. rewrite H.
  destruct (starts_word sep s); [|discriminate].
  destruct (words_by sep s); discriminate.
Qed.

Lemma unwords_cons_nonempty (w : jsstring) (ws : list jsstring) :
  w <> [] -> unwords (w :: ws) <> [].
Proof.
  intros Hw. cbn [unwords]. destruct ws; [exact Hw|].
  destruct w; [contradiction | discriminate].
Qed.

Lemma unwords_cons_unit (c : N) (w : jsstring) (ws : list jsstring) :
  unwords ((c :: w) :: ws) = c :: unwords (w :: ws).
Proof. cbn [unwords]. now destruct ws. Qed.

(** Collapsing the white space and trimming the end leaves the words,
    joined by single spaces (after a leading space when the text starts
    with white space and the leading space is written). *)
Lemma trimEnd_collapse (s : jsstring) :
  trimEnd (collapse_from true s) = unwords (words_by is_space s) /\
  trimEnd (collapse_from false s) =
    match s with
    | c :: _ =>
        if is_space c then
          match words_by is_space s with
          | [] => []
          | _ :: _ => SP :: unwords (words_by is_space s)
          end
        else unwords (words_by is_space s)
    | [] => []
    end.
Proof.
  induction s as [|c s [IHt IHf]]; [split; reflexivity|].
  cbn [collapse_from words_by]. destruct (is_space c) eqn:Ec.
  - split; [exact IHt|].
    rewrite trimEnd_cons_space by apply is_space_SP. rewrite IHt.
    pose proof (words_by_nonempty is_space s) as Hne.
    destruct (words_by is_space s) as [|w ws]; [reflexivity|].
    inversion Hne; subst.
    destruct (unwords (w :: ws)) eqn:Eu; [|reflexivity].
    now apply unwords_cons_nonempty in Eu.
  - assert (H : trimEnd (c :: collapse_from false s) =
                unwords (if starts_word is_space s
                         then match words_by is_space s with
                              | w :: ws => (c :: w) :: ws
                              | [] => [[c]]
                              end
                         else [c] :: words_by is_space s)).
    { rewrite trimEnd_cons_keep by exact Ec. rewrite IHf.
      destruct s as [|d s]; [reflexivity|].
      cbn [starts_word]. destruct (is_space d) eqn:Ed; cbn [negb].
      - destruct (words_by is_space (d :: s)); reflexivity.
      - pose proof (@words_by_starts is_space (d :: s)) as Hs.
        cbn [starts_word] in Hs. rewrite Ed in Hs. specialize (Hs eq_refl).
        destruct (words_by is_space (d :: s)) as [|w ws]; [contradiction|].
        now rewrite unwords_cons_unit. }
    split; exact H.
Qed.

Lemma words_replace_stripped (s : jsstring) :
  words_by is_space (replace_stripped s) = words s.
Proof.
  unfold words, replace_stripped.
  assert (Hsep : forall c, is_space (if is_stripped c then SP else c) = is_separator c).
  { intros c. unfold is_separator. destruct (is_stripped c).
    - rewrite is_space_SP. now rewrite orb_true_r.
    - now rewrite orb_false_r. }
  induction s as [|c s IH]; [reflexivity|].
  cbn [map words_by]. rewrite Hsep, IH.
  destruct (is_separator c) eqn:Ec; [reflexivity|].
  assert (Hc : is_stripped c = false).
  { unfold is_separator in Ec. now apply orb_false_iff in Ec. }
  rewrite Hc.
  replace (starts_word is_space (map (fun c0 => if is_stripped c0 then SP else c0) s))
    with (starts_word is_separator s); [reflexivity|].
  destruct s as [|d s]; [reflexivity|]. cbn [map starts_word]. now rewrite Hsep.
Qed.

(** What [squeeze] returns: the words of the text, joined by single spaces. *)
Lemma squeeze_words (s : jsstring) : squeeze s = unwords (words s).
Proof.
  unfold squeeze, trim, collapse_spaces.
  rewrite trimStart_collapse.
  rewrite (proj1 (trimEnd_collapse _)). now rewrite words_replace_stripped.
Qed.

Lemma words_by_map (f : N -> N) (sep1 sep2 : N -> bool) (s : jsstring) :
  (forall c, sep1 (f c) = sep2 c) ->
  (forall c, sep2 c = false -> f c = c) ->
  words_by sep1 (map f s) = words_by sep2 s.
Proof.
  intros Hsep Hid. induction s as [|c s IH]; [reflexivity|].
  cbn [map words_by]. rewrite Hsep, IH.
  destruct (sep2 c) eqn:Ec; [reflexivity|]. rewrite (Hid c Ec).
  replace (starts_word sep1 (map f s)) with (starts_word sep2 s); [reflexivity|].
  destruct s as [|d s]; [reflexivity|]. cbn [map starts_word]. now rewrite Hsep.
Qed.

(** A stripped character separates words exactly as a space does. *)
Lemma words_replace_by_space (s : jsstring) : words (replace_stripped s) = words s.
Proof.
  unfold words, replace_stripped. apply words_by_map.
  - intros c. unfold is_separator at 2. destruct (is_stripped c) eqn:E.
    + now rewrite orb_true_r.
    + unfold is_separator. now rewrite E.
  - intros c Hc. unfold is_separator in Hc. apply orb_false_iff in Hc as [_ ->].
    reflexivity.
Qed.

(** A separator at the end of the text adds no word. *)
Lemma words_app_separator (s : jsstring) (c : N) :
  is_separator c = true -> words (s ++ [c]) = words s.
Proof.
  intros Hc. unfold words. induction s as [|d s IH].
  - cbn [app words_by]. now rewrite Hc.
  - cbn [app words_by]. rewrite IH.
    replace (starts_word is_separator (s ++ [c])) with (starts_word is_separator s);
      [reflexivity|].
    destruct s as [|e s]; [|reflexivity]. cbn [app starts_word]. now rewrite Hc.
Qed.

Lemma ascii_lower_unit_idempotent (c : N) :
  ascii_lower_unit (ascii_lower_unit c) = ascii_lower_unit c.
Proof.
  unfold ascii_lower_unit.
  destruct ((65 <=? c) && (c <=? 90))%N eqn:E; [|now rewrite E].
  apply andb_true_iff in E as [H1 H2]. apply N.leb_le in H1, H2.
  replace (c + 32 <=? 90)%N with false by (symmetry; apply N.leb_gt; lia).
  now rewrite andb_false_r.
Qed.

Lemma ascii_toLowerCase_idempotent (s : jsstring) :
  ascii_toLowerCase (ascii_toLowerCase s) = ascii_toLowerCase s.
Proof.
  unfold ascii_toLowerCase. rewrite map_map. apply map_ext.
  exact ascii_lower_unit_idempotent.
Qed.

(** C8, as the code has it.  The normalized question, and so the selected
    intent, depends only on the words of the lower-cased question, where
    white space and the stripped characters separate words: two questions
    whose lower-cased texts have the same words select the same intent, so
    punctuation and white space that neither joins nor splits a word does
    not matter.  Nor does the case of the letters A-Z: two questions that
    are the same once those letters are lower-cased select the same
    intent, provided [toLowerCase] gives the same for a text and for that
    text with its letters A-Z lower-cased first, as
    String.prototype.toLowerCase does. *)
Theorem classify_invariant_same_words (toLowerCase : jsstring -> jsstring)
    (q1 q2 : jsstring) :
  words (toLowerCase q1) = words (toLowerCase q2) \/
  ((forall s, toLowerCase (ascii_toLowerCase s) = toLowerCase s) /\
   ascii_toLowerCase q1 = ascii_toLowerCase q2) ->
  normalize toLowerCase q1 = normalize toLowerCase q2 /\
  classify (normalize toLowerCase q1) = classify (normalize toLowerCase q2).
Proof.
  intros H.
  assert (W : words (toLowerCase q1) = words (toLowerCase q2)).
  { destruct H as [H | [Hl Hq]]; [exact H|].
    now rewrite <- (Hl q1), <- (Hl q2), Hq. }
  assert (E : normalize toLowerCase q1 = normalize toLowerCase q2).
  { unfold normalize. now rewrite !squeeze_words, W. }
  split; [exact E | now rewrite E].
Qed.

Lemma classify_invariant_same_words_witness :
  (normalize ascii_toLowerCase (js "Tomato price?")
     = normalize ascii_toLowerCase (js "tomato price") /\
   classify (normalize ascii_toLowerCase (js "Tomato price?"))
     = classify (normalize ascii_toLowerCase (js "tomato price"))) /\
  (normalize ascii_toLowerCase (js "Kitna BHAV hai")
     = normalize ascii_toLowerCase (js "kitna bhav hai") /\
   classify (normalize ascii_toLowerCase (js "Kitna BHAV hai"))
     = classify (normalize ascii_toLowerCase (js "kitna bhav hai"))).
Proof.
  split.
  - apply (classify_invariant_same_words ascii_toLowerCase
             (js "Tomato price?") (js "tomato price")).
    left. vm_compute. reflexivity.
  - apply (classify_invariant_same_words ascii_toLowerCase
             (js "Kitna BHAV hai") (js "kitna bhav hai")).
    right. split; [apply ascii_toLowerCase_idempotent | vm_compute; reflexivity].
Defined.

(** C8 fails as stated, twice.  The stripped characters are replaced by a
    space, not removed, so deleting the comma of "how,much" joins two
    words and loses the literal "how much" of [price].  And a change of
    letter case can change the lower-cased text: the dotless "ı" of "kıtna"
    is a lower-case letter that [toLowerCase] leaves as it is (as
    [ascii_toLowerCase] does), and the question matches no literal; its
    upper-case form "KITNA" is lower-cased to "kitna", which holds the
    literal "kitna" of [price]. *)
Lemma comma_and_case_change_the_intent :
  (filter (fun c => negb (is_stripped c)) (js "how,much") = js "howmuch" /\
   normalize ascii_toLowerCase (js "how,much") = js "how much" /\
   classify (normalize ascii_toLowerCase (js "how,much")) = Some Intent.price /\
   classify (normalize ascii_toLowerCase (js "howmuch")) = Some Intent.general) /\
  (normalize ascii_toLowerCase (js "kıtna") = js "kıtna" /\
   normalize ascii_toLowerCase (js "KITNA") = js "kitna" /\
   classify (normalize ascii_toLowerCase (js "kıtna")) = Some Intent.general /\
   classify (normalize ascii_toLowerCase (js "KITNA")) = Some Intent.price).
Proof. run_all. Qed.

(* ================================================================== *)
(** ** The crop resolver *)
(* ================================================================== *)

Lemma plain_head {x : N} {w : jsstring} :
  plain (x :: w) -> is_space x = false /\ is_stripped x = false /\ plain w.
Proof.
  intros H. inversion H as [|? ? Hx Hw]; subst. unfold is_separator in Hx.
  apply orb_false_iff in Hx as [Hs Hp]. now repeat split.
Qed.

Lemma unit_eqb_space_plain {d x : N} :
  is_space d = true -> is_space x = false -> unit_eqb d x = false.
Proof.
  intros Hd Hx. destruct (unit_eqb d x) eqn:E; [|reflexivity].
  apply unit_eqb_eq in E. congruence.
Qed.

Lemma unit_eqb_stripped_plain {d x : N} :
  is_stripped d = true -> is_stripped x = false -> unit_eqb d x = false.
Proof.
  intros Hd Hx. destruct (unit_eqb d x) eqn:E; [|reflexivity].
  apply unit_eqb_eq in E. congruence.
Qed.

Lemma includes_cons (a : N) (s t : jsstring) :
  includes (a :: s) t = startsWith (a :: s) t || includes s t.
Proof. reflexivity. Qed.

Lemma startsWith_cons (a b : N) (s t : jsstring) :
  startsWith (a :: s) (b :: t) = unit_eqb a b && startsWith s t.
Proof. reflexivity. Qed.

Lemma startsWith_replace_stripped (s w : jsstring) :
  plain w -> startsWith (replace_stripped s) w = startsWith s w.
Proof.
  revert s; induction w as [|x w IH]; intros s Hw; [reflexivity|].
  apply plain_head in Hw as (Hs & Hp & Hw).
  destruct s as [|d s]; [reflexivity|].
  unfold replace_stripped in *. cbn [map]. rewrite !startsWith_cons, (IH s Hw).
  destruct (is_stripped d) eqn:Ed; [|reflexivity].
  rewrite (unit_eqb_space_plain is_space_SP Hs), (unit_eqb_stripped_plain Ed Hp).
  reflexivity.
Qed.

Lemma includes_replace_stripped (s w : jsstring) :
  plain w -> includes (replace_stripped s) w = includes s w.
Proof.
  intros Hw. induction s as [|d s IH]; [reflexivity|].
  change (replace_stripped (d :: s))
    with ((if is_stripped d then SP else d) :: replace_stripped s) at 1.
  rewrite !includes_cons, IH.
  change ((if is_stripped d then SP else d) :: replace_stripped s)
    with (replace_stripped (d :: s)).
  now rewrite startsWith_replace_stripped.
Qed.

Lemma startsWith_collapse (s : jsstring) {w : jsstring} :
  plain w -> startsWith (collapse_from false s) w = startsWith s w.
Proof.
  revert s; induction w as [|x w IH]; intros s Hw; [reflexivity|].
  apply plain_head in Hw as (Hs & _ & Hw).
  destruct s as [|d s]; [reflexivity|].
  cbn [collapse_from]. destruct (is_space d) eqn:Ed.
  - rewrite !startsWith_cons.
    now rewrite (unit_eqb_space_plain is_space_SP Hs), (unit_eqb_space_plain Ed Hs).
  - rewrite !startsWith_cons. now rewrite (IH s Hw).
Qed.

Lemma includes_collapse (b : bool) (s w : jsstring) :
  plain w -> w <> [] -> includes (collapse_from b s) w = includes s w.
Proof.
  intros Hw Hne. destruct w as [|x w]; [contradiction|].
  pose proof (plain_head Hw) as (Hs & _ & Hw').
  revert b; induction s as [|d s IH]; intros b; [reflexivity|].
  cbn [collapse_from]. rewrite (includes_cons d s). destruct (is_space d) eqn:Ed.
  - rewrite startsWith_cons, (unit_eqb_space_plain Ed Hs). cbn [andb orb].
    destruct b; [apply IH|].
    rewrite includes_cons, startsWith_cons, (unit_eqb_space_plain is_space_SP Hs).
    cbn [andb orb]. apply IH.
  - rewrite includes_cons, !startsWith_cons, IH.
    now rewrite (startsWith_collapse s Hw').
Qed.

Lemma includes_trimStart (s w : jsstring) :
  plain w -> w <> [] -> includes (trimStart s) w = includes s w.
Proof.
  intros Hw Hne. destruct w as [|x w]; [contradiction|].
  pose proof (plain_head Hw) as (Hs & _ & _).
  induction s as [|d s IH]; [reflexivity|].
  cbn [trimStart]. destruct (is_space d) eqn:Ed; [|reflexivity].
  rewrite IH, (includes_cons d s), startsWith_cons, (unit_eqb_space_plain Ed Hs).
  reflexivity.
Qed.

Lemma startsWith_trimEnd (s : jsstring) {w : jsstring} :
  plain w -> startsWith (trimEnd s) w = startsWith s w.
Proof.
  revert s; induction w as [|x w IH]; intros s Hw; [reflexivity|].
  apply plain_head in Hw as (Hs & _ & Hw).
  destruct s as [|d s]; [reflexivity|].
  destruct (is_space d) eqn:Ed.
  - rewrite (trimEnd_cons_space s Ed), startsWith_cons, (unit_eqb_space_plain Ed Hs).
    destruct (trimEnd s); [reflexivity|].
    now rewrite startsWith_cons, (unit_eqb_space_plain Ed Hs).
  - now rewrite (trimEnd_cons_keep s Ed), !startsWith_cons, (IH s Hw).
Qed.

Lemma includes_trimEnd (s w : jsstring) :
  plain w -> w <> [] -> includes (trimEnd s) w = includes s w.
Proof.
  intros Hw Hne. induction s as [|d s IH]; [reflexivity|].
  rewrite (includes_cons d s), <- IH, <- (startsWith_trimEnd (d :: s) Hw).
  destruct (is_space d) eqn:Ed.
  - rewrite (trimEnd_cons_space s Ed). destruct (trimEnd s) as [|e r] eqn:Er.
    + destruct w; [contradiction | reflexivity].
    + reflexivity.
  - now rewrite (trimEnd_cons_keep s Ed).
Qed.

(** A plain text occurs in the squeezed text exactly when it occurs in the
    text itself. *)
Lemma includes_squeeze (s w : jsstring) :
  plain w -> w <> [] -> includes (squeeze s) w = includes s w.
Proof.
  intros Hw Hne. unfold squeeze, trim, collapse_spaces.
  rewrite includes_trimEnd, includes_trimStart, includes_collapse by assumption.
  now apply includes_replace_stripped.
Qed.

Lemma find_ext_on {A : Type} (f g : A -> bool) (l : list A) :
  (forall x, In x l -> f x = g x) -> find f l = find g l.
Proof.
  induction l as [|x l IH]; intros H; [reflexivity|]. cbn [find].
  rewrite (H x (or_introl eq_refl)), IH; [reflexivity|].
  intros y Hy. apply H. now right.
Qed.

Lemma find_none_on {A : Type} (f : A -> bool) (l : list A) :
  (forall x, In x l -> f x = false) -> find f l = None.
Proof.
  induction l as [|x l IH]; intros H; [reflexivity|]. cbn [find].
  rewrite (H x (or_introl eq_refl)). apply IH. intros y Hy. apply H. now right.
Qed.

Lemma find_first {A : Type} (f : A -> bool) (before after : list A) (x : A) :
  f x = true -> (forall y, In y before -> f y = false) ->
  find f (before ++ x :: after) = Some x.
Proof.
  intros Hx. induction before as [|y before IH]; intros H; cbn [app find].
  - now rewrite Hx.
  - rewrite (H y (or_introl eq_refl)). apply IH. intros z Hz. apply H. now right.
Qed.

Lemma plain_of_forallb (w : jsstring) :
  forallb (fun c => negb (is_separator c)) w = true -> plain w.
Proof.
  intros H. apply Forall_forall. intros c Hc.
  rewrite forallb_forall in H. specialize (H c Hc). now apply negb_true_iff in H.
Qed.

(** The ten crop names: none is empty, each has its record and its tip,
    and in lower case each is plain text. *)
Lemma crops_facts (c : jsstring) :
  In c CROPS ->
  truthy c = true /\
  plain (ascii_toLowerCase c) /\ ascii_toLowerCase c <> [] /\
  match get CROP_META c with Own _ => True | _ => False end /\
  match get CROP_TIPS c with Own t => truthy t = true | _ => False end.
Proof.
  intros Hc. cbn [In CROPS] in Hc.
  repeat (destruct Hc as [<-|Hc];
          [split; [run|]; split; [apply plain_of_forallb; run|];
           split; [vm_compute; discriminate|]; split; [exact I | run] |]).
  destruct Hc.
Qed.

Lemma mentionedCrop_of_raw (toLowerCase : jsstring -> jsstring) (msg crop : jsstring) :
  (forall c, In c CROPS -> toLowerCase c = ascii_toLowerCase c) ->
  mentionedCrop_of toLowerCase (normalize toLowerCase msg) crop =
  match find (fun c => includes (toLowerCase msg) (toLowerCase c)) CROPS with
  | Some c => c
  | None => crop
  end.
Proof.
  intros Hlow. unfold mentionedCrop_of, normalize.
  rewrite (find_ext_on (fun c => includes (squeeze (toLowerCase msg)) (toLowerCase c))
             (fun c => includes (toLowerCase msg) (toLowerCase c))).
  - destruct (find _ CROPS) as [c|] eqn:Ef; [|reflexivity].
    apply find_some in Ef as [Hc _]. unfold or_str.
    now rewrite (proj1 (crops_facts c Hc)).
  - intros c Hc. rewrite (Hlow c Hc).
    destruct (crops_facts c Hc) as (_ & Hp & Hne & _).
    now apply includes_squeeze.
Qed.

(** C6.  Provided [toLowerCase] lower-cases the ten crop names as the
    ASCII text they are: when the lower-cased question contains none of the
    lower-cased crop names, the resolver returns the caller's crop; when it
    contains one, the resolver returns the first crop of [CROPS] whose name
    it contains, wherever the names stand in the question. *)
Theorem mentioned_crop_first_in_CROPS (toLowerCase : jsstring -> jsstring)
    (msg crop : jsstring) :
  (forall c, In c CROPS -> toLowerCase c = ascii_toLowerCase c) ->
  ((forall c, In c CROPS -> includes (toLowerCase msg) (toLowerCase c) = false) ->
   mentionedCrop_of toLowerCase (normalize toLowerCase msg) crop = crop) /\
  (forall before c after,
     CROPS = before ++ c :: after ->
     includes (toLowerCase msg) (toLowerCase c) = true ->
     (forall c', In c' before -> includes (toLowerCase msg) (toLowerCase c') = false) ->
     mentionedCrop_of toLowerCase (normalize toLowerCase msg) crop = c).
Proof.
  intros Hlow. rewrite (mentionedCrop_of_raw toLowerCase msg crop Hlow). split.
  - intros Hnone.
    now rewrite (find_none_on (fun c => includes (toLowerCase msg) (toLowerCase c)) CROPS).
  - intros before c after Hsplit Hc Hbefore. rewrite Hsplit.
    now rewrite (find_first (fun c => includes (toLowerCase msg) (toLowerCase c))
                   before after c).
Qed.

Lemma mentioned_crop_first_in_CROPS_witness :
  mentionedCrop_of ascii_toLowerCase
    (normalize ascii_toLowerCase (js "When should I irrigate?")) (js "Onion") = js "Onion" /\
  mentionedCrop_of ascii_toLowerCase
    (normalize ascii_toLowerCase (js "Compare rice and wheat")) (js "Onion") = js "Wheat".
Proof.
  split.
  - apply (proj1 (mentioned_crop_first_in_CROPS ascii_toLowerCase
                    (js "When should I irrigate?") (js "Onion") (fun c _ => eq_refl))).
    intros c Hc. cbn [In CROPS] in Hc.
    repeat (destruct Hc as [<-|Hc]; [run|]). destruct Hc.
  - apply (proj2 (mentioned_crop_first_in_CROPS ascii_toLowerCase
                    (js "Compare rice and wheat") (js "Onion") (fun c _ => eq_refl))
             [] (js "Wheat") (tl CROPS)).
    + reflexivity.
    + run.
    + intros c' [].
Defined.

(** The name of a crop inside another word counts too: "price" holds
    "rice". *)
Example price_mentions_rice :
  mentionedCrop_of ascii_toLowerCase
    (normalize ascii_toLowerCase (js "Tomato price?")) (js "Onion") = js "Rice".
Proof. run. Qed.

(* ================================================================== *)
(** ** Lookups and the two entry points *)
(* ================================================================== *)

Lemma classify_some (q : jsstring) : exists i, classify q = Some i.
Proof.
  destruct (classify_spec q) as (w & _ & _ & Hc & _).
  now exists (if (0 <? score q w)%Z then w else Intent.general).
Qed.

Lemma getLocalFallback_returns (toLowerCase : jsstring -> jsstring) (msg crop : jsstring) :
  exists out, getLocalFallback toLowerCase msg crop = Returns out.
Proof.
  unfold getLocalFallback.
  destruct (classify_some (normalize toLowerCase msg)) as [i ->]. now eexists.
Qed.

Lemma get_undefined {V : Type} (o : list (jsstring * V)) (k : jsstring) :
  get o k = Undefined <->
  get_own o k = None /\ existsb (str_eqb k) Object_prototype_keys = false.
Proof.
  unfold get. destruct (get_own o k); [split; [discriminate | intros [H _]; discriminate]|].
  destruct (existsb (str_eqb k) Object_prototype_keys); split;
    try discriminate; try (intros [_ H]; discriminate); auto.
Qed.

Lemma get_own_absent {V : Type} (o : list (jsstring * V)) (k : jsstring) :
  ~ In k (map fst o) -> get_own o k = None.
Proof.
  induction o as [|[k' v] o IH]; intros H; [reflexivity|]. cbn [get_own].
  rewrite str_neq_eqb.
  - apply IH. intros Hin. apply H. now right.
  - intros ->. apply H. now left.
Qed.

Lemma existsb_str_absent (k : jsstring) (l : list jsstring) :
  ~ In k l -> existsb (str_eqb k) l = false.
Proof.
  intros H. destruct (existsb (str_eqb k) l) eqn:E; [|reflexivity].
  now apply existsb_str_In in E.
Qed.

Lemma incl_of_forallb (l1 l2 : list jsstring) :
  forallb (fun k => existsb (str_eqb k) l2) l1 = true -> incl l1 l2.
Proof.
  intros H k Hk. rewrite forallb_forall in H. now apply existsb_str_In, H.
Qed.

Lemma meta_keys_are_crops : incl (map fst CROP_META) CROPS.
Proof. apply incl_of_forallb. run. Qed.

Lemma tip_keys_are_crops : incl (map fst CROP_TIPS) CROPS.
Proof. apply incl_of_forallb. run. Qed.

(** X24.  For every question and every crop string [getLocalFallback]
    returns a string.  When the read of [CROP_META] for the resolved crop
    yields [undefined], the record used is the generic one (base 2000,
    volatility 0.1, season and harvest "varies"); when the read of
    [CROP_TIPS] does, the tip is the empty string.  Both reads yield
    [undefined] for every crop string that is neither one of the ten names
    nor the name of a member of [Object.prototype]. *)
Theorem lookups_never_fail (toLowerCase : jsstring -> jsstring) (msg crop : jsstring) :
  (exists out, getLocalFallback toLowerCase msg crop = Returns out) /\
  (get CROP_META (mentionedCrop_of toLowerCase (normalize toLowerCase msg) crop) = Undefined ->
   cm_of toLowerCase (normalize toLowerCase msg) crop = default_meta) /\
  (get CROP_TIPS (mentionedCrop_of toLowerCase (normalize toLowerCase msg) crop) = Undefined ->
   ct_of toLowerCase (normalize toLowerCase msg) crop = TipText []) /\
  (base default_meta = Some 2000%Z /\ vol default_meta = Some (1 # 10)%Q /\
   season default_meta = Some (js "varies") /\ harvest default_meta = Some (js "varies")) /\
  (~ In crop CROPS -> ~ In crop Object_prototype_keys ->
   get CROP_META crop = Undefined /\ get CROP_TIPS crop = Undefined).
Proof.
  split; [apply getLocalFallback_returns|].
  assert (Hres : forall q,
            mentionedCrop_of toLowerCase q crop = crop \/
            In (mentionedCrop_of toLowerCase q crop) CROPS).
  { intros q. unfold mentionedCrop_of.
    destruct (find _ CROPS) as [c|] eqn:Ef; [|now left].
    apply find_some in Ef as [Hc _]. right. unfold or_str.
    now rewrite (proj1 (crops_facts c Hc)). }
  split; [|split; [|split]].
  - intros Hu. unfold cm_of. rewrite Hu. cbn [meta_or].
    destruct (Hres (normalize toLowerCase msg)) as [E|Hin].
    + rewrite E in Hu. unfold m_of. now rewrite Hu.
    + destruct (crops_facts _ Hin) as (_ & _ & _ & Hm & _). now rewrite Hu in Hm.
  - intros Hu. unfold ct_of. rewrite Hu. cbn [tip_or].
    destruct (Hres (normalize toLowerCase msg)) as [E|Hin].
    + rewrite E in Hu. unfold tip_of. now rewrite Hu.
    + destruct (crops_facts _ Hin) as (_ & _ & _ & _ & Ht). now rewrite Hu in Ht.
  - repeat (apply conj); reflexivity.
  - intros Hc Hp. split; apply get_undefined; split;
      try (apply existsb_str_absent; exact Hp);
      apply get_own_absent; intros Hin; apply Hc.
    + now apply meta_keys_are_crops.
    + now apply tip_keys_are_crops.
Qed.


(** An unknown crop gets the generic record; the name of a member of
    [Object.prototype] is not unknown to the read, the answer is still a
    string, and the record read has no harvest window. *)
Example unknown_and_inherited_crops :
  cm_of ascii_toLowerCase (normalize ascii_toLowerCase (js "hello")) (js "Mango")
    = default_meta /\
  ct_of ascii_toLowerCase (normalize ascii_toLowerCase (js "hello")) (js "Mango")
    = TipText [] /\
  get CROP_META (js "constructor") = Inherited (js "constructor") /\
  cm_of ascii_toLowerCase (normalize ascii_toLowerCase (js "hello")) (js "constructor")
    = no_meta /\
  (exists out,
     getLocalFallback ascii_toLowerCase (js "hello") (js "constructor") = Returns out /\
     includes out (js "Harvest: undefined") = true).
Proof.
  split; [run|]. split; [run|]. split; [run|]. split; [run|].
  exists (renderFallback Intent.general (js "hello") (js "constructor") no_meta
            (TipMember (js "constructor"))).
  run_all.
Qed.

(** C5.  [getAIReply] returns a string whatever the remote call does.  When
    [fetch] rejects, when the status is not a success, when the body is not
    JSON, and when reading the reply out of the parsed body throws, the
    result is that of [getLocalFallback] on the same question and crop.
    When the call succeeds the result is the trimmed reply text, or the
    fixed sentence [no_reply] when that text is empty, and the fallback is
    not consulted. *)
Theorem getAIReply_never_raises (toLowerCase : jsstring -> jsstring)
    (fetch : Request -> FetchOutcome) (userMessage crop : jsstring)
    (conversationHistory : list HistoryItem) :
  (exists out,
     getAIReply toLowerCase fetch userMessage crop conversationHistory = Returns out) /\
  (fetch (build_request userMessage crop conversationHistory) = FetchRejects ->
   getAIReply toLowerCase fetch userMessage crop conversationHistory
     = getLocalFallback toLowerCase userMessage crop) /\
  (forall status body,
     fetch (build_request userMessage crop conversationHistory)
       = FetchResolves false status body ->
     getAIReply toLowerCase fetch userMessage crop conversationHistory
       = getLocalFallback toLowerCase userMessage crop) /\
  (forall status,
     fetch (build_request userMessage crop conversationHistory)
       = FetchResolves true status JsonRejects ->
     getAIReply toLowerCase fetch userMessage crop conversationHistory
       = getLocalFallback toLowerCase userMessage crop) /\
  (forall status data e,
     fetch (build_request userMessage crop conversationHistory)
       = FetchResolves true status (JsonResolves data) ->
     reply_text data = Throws e ->
     getAIReply toLowerCase fetch userMessage crop conversationHistory
       = getLocalFallback toLowerCase userMessage crop) /\
  (forall status data text,
     fetch (build_request userMessage crop conversationHistory)
       = FetchResolves true status (JsonResolves data) ->
     reply_text data = Returns text ->
     getAIReply toLowerCase fetch userMessage crop conversationHistory
       = Returns (or_str (trim text) no_reply) /\
     (trim text = [] ->
      getAIReply toLowerCase fetch userMessage crop conversationHistory
        = Returns no_reply)).
Proof.
  unfold getAIReply, remote_reply.
  split; [|split; [|split; [|split; [|split]]]].
  - destruct (getLocalFallback_returns toLowerCase userMessage crop) as [out Hout].
    destruct (fetch _) as [|[|] status [|data]]; cbn [negb try_catch bind];
      try (exists out; exact Hout).
    destruct (reply_text data) as [text|e]; cbn [try_catch bind];
      [now eexists | exists out; exact Hout].
  - intros ->. reflexivity.
  - intros status body ->. reflexivity.
  - intros status ->. reflexivity.
  - intros status data e -> He. cbn [negb try_catch bind]. now rewrite He.
  - intros status data text -> Ht. cbn [negb try_catch bind]. rewrite Ht.
    cbn [try_catch bind]. split; [reflexivity|]. intros ->. reflexivity.
Qed.

(** A reply whose only block is white space gives the fixed sentence; a
    reply with a [null] block gives the fallback answer; so does a failed
    call. *)
Example getAIReply_examples :
  let reply blocks := fun _ : Request =>
        FetchResolves true 200 (JsonResolves (Data (ContentBlocks blocks))) in
  getAIReply ascii_toLowerCase (reply [Block (Some (js "  \n"))]) (js "loan") (js "Wheat") []
    = Returns no_reply /\
  getAIReply ascii_toLowerCase (reply [Block (Some (js " Sell in ")); Block None;
                                       Block (Some (js "May. "))])
      (js "loan") (js "Wheat") []
    = Returns (js "Sell in May.") /\
  getAIReply ascii_toLowerCase (reply [Block (Some (js "Sell")); BlockNull])
      (js "loan") (js "Wheat") []
    = getLocalFallback ascii_toLowerCase (js "loan") (js "Wheat") /\
  getAIReply ascii_toLowerCase (fun _ => FetchResolves false 529 JsonRejects)
      (js "loan") (js "Wheat") []
    = getLocalFallback ascii_toLowerCase (js "loan") (js "Wheat").
Proof. cbv zeta. run_all. Qed.

(* ================================================================== *)
(** ** Further properties and the scenarios of the specification *)
(* ================================================================== *)

(** X1.  A question with keywords of one intent only is classified as
    that intent. *)
Theorem classify_single_intent (q : jsstring) (x : Intent.t) :
  (0 < score q x)%Z ->
  (forall j, j <> x -> score q j = 0%Z) ->
  classify q = Some x.
Proof.
  intros Hx Hothers.
  destruct (classify_spec q) as (w & before & after & Hc & Hk & Hlt & Hle).
  pose proof (score_le_winner q w before after Hk Hlt Hle x) as Hmax.
  assert (E : w = x).
  { destruct (Intent_eq_dec w x) as [E|N]; [exact E|].
    rewrite (Hothers w N) in Hmax. lia. }
  subst w. rewrite Hc. destruct (Z.ltb_spec 0 (score q x)); [reflexivity | lia].
Qed.

Lemma classify_single_intent_witness : classify (js "urea") = Some Intent.fertilizer.
Proof.
  apply (classify_single_intent (js "urea") Intent.fertilizer).
  - run.
  - intros j Hj. destruct j; try run. congruence.
Defined.

(** X2.  The normalized question is the words of the lower-cased question,
    joined by single spaces; the empty question normalizes to the empty
    string. *)
Theorem normalize_words (toLowerCase : jsstring -> jsstring) (msg : jsstring) :
  normalize toLowerCase msg = unwords (words (toLowerCase msg)) /\
  normalize ascii_toLowerCase [] = [].
Proof. split; [apply squeeze_words | reflexivity]. Qed.

(** X3.  A crop name is found inside other words too: a question that holds
    "price" and not "wheat" is resolved to Rice, whatever crop it names and
    whatever crop is selected. *)
Theorem price_resolves_to_rice (toLowerCase : jsstring -> jsstring) (msg crop : jsstring) :
  (forall c, In c CROPS -> toLowerCase c = ascii_toLowerCase c) ->
  includes (toLowerCase msg) (js "price") = true ->
  includes (toLowerCase msg) (js "wheat") = false ->
  mentionedCrop_of toLowerCase (normalize toLowerCase msg) crop = js "Rice".
Proof.
  intros Hlow Hprice Hwheat. rewrite (mentionedCrop_of_raw toLowerCase msg crop Hlow).
  assert (Hw : toLowerCase (js "Wheat") = js "wheat").
  { rewrite Hlow; [run | apply existsb_str_In; run]. }
  assert (Hr : toLowerCase (js "Rice") = js "rice").
  { rewrite Hlow; [run | apply existsb_str_In; run]. }
  change CROPS with (js "Wheat" :: js "Rice" :: tl (tl CROPS)).
  cbn [find]. rewrite Hw, Hwheat, Hr.
  replace (includes (toLowerCase msg) (js "rice")) with true; [reflexivity|].
  symmetry. apply includes_spec. apply includes_spec in Hprice as (pre & post & E).
  exists (pre ++ js "p"), post. rewrite E, <- app_assoc. reflexivity.
Qed.

Lemma price_resolves_to_rice_witness :
  mentionedCrop_of ascii_toLowerCase
    (normalize ascii_toLowerCase (js "Onion price today")) (js "Potato") = js "Rice".
Proof.
  apply (price_resolves_to_rice ascii_toLowerCase (js "Onion price today") (js "Potato")
           (fun c _ => eq_refl)); run.
Defined.

(** X4.  The scenarios of the specification.  The MSP question with Rice
    selected: the crop is Wheat, the intent [msp], and the answer holds
    "Wheat" and the helpline number.  The empty question: [general], with
    the empty question between its quotes.  "kab beche onion" with Potato
    selected: [sell], and the answer names Onion and not Potato. *)
Theorem specification_scenarios :
  (exists out,
     getLocalFallback ascii_toLowerCase
       (js "What is the MSP for wheat and how do I register?") (js "Rice") = Returns out /\
     mentionedCrop_of ascii_toLowerCase
       (normalize ascii_toLowerCase (js "What is the MSP for wheat and how do I register?"))
       (js "Rice") = js "Wheat" /\
     classify (normalize ascii_toLowerCase
                 (js "What is the MSP for wheat and how do I register?"))
       = Some Intent.msp /\
     includes out (js "Wheat") = true /\
     includes out (js "1800-180-1551") = true) /\
  (exists out,
     getLocalFallback ascii_toLowerCase [] (js "Wheat") = Returns out /\
     normalize ascii_toLowerCase [] = [] /\
     classify [] = Some Intent.general /\
     includes out (js "Your question: " ++ dquote ++ dquote) = true) /\
  (exists out,
     getLocalFallback ascii_toLowerCase (js "kab beche onion") (js "Potato") = Returns out /\
     classify (normalize ascii_toLowerCase (js "kab beche onion")) = Some Intent.sell /\
     (1 <= score (normalize ascii_toLowerCase (js "kab beche onion")) Intent.sell)%Z /\
     includes out (js "Onion") = true /\
     includes out (js "Potato") = false).
Proof.
  split; [|split].
  - exists (renderFallback Intent.msp (js "What is the MSP for wheat and how do I register?")
              (js "Wheat") default_meta (TipText [])).
    run_all.
  - exists (renderFallback Intent.general [] (js "Wheat")
              (m_of (js "Wheat")) (tip_of (js "Wheat"))).
    run_all.
  - exists (renderFallback Intent.sell (js "kab beche onion") (js "Onion")
              (m_of (js "Onion")) (tip_of (js "Onion"))).
    repeat (apply conj); try run. vm_compute. discriminate.
Qed.

(* ================================================================== *)
(** ** The advisor's chat *)
(* ================================================================== *)

Lemma slice_from {A : Type} (l : list A) (k : Z) :
  (0 <= k)%Z -> slice l k None = skipn (Z.to_nat k) l.
Proof.
  intros Hk. unfold slice, relative_index.
  destruct (Z.ltb_spec k 0) as [H|_]; [lia|].
  destruct (Z.le_ge_cases k (Z.of_nat (List.length l))) as [Hle|Hge].
  - rewrite Z.min_l by exact Hle. apply firstn_all2. rewrite length_skipn. lia.
  - rewrite Z.min_r by exact Hge. rewrite Nat2Z.id.
    rewrite (skipn_all2 l (n := List.length l)) by lia.
    rewrite (skipn_all2 l (n := Z.to_nat k)) by lia. now rewrite firstn_nil.
Qed.

Lemma slice_last_n {A : Type} (l : list A) {n : nat} :
  (0 < n)%nat -> slice l (- Z.of_nat n) None = skipn (List.length l - n) l.
Proof.
  intros Hn. unfold slice, relative_index.
  destruct (Z.ltb_spec (- Z.of_nat n) 0) as [_|H]; [|lia].
  replace (Z.to_nat (Z.max (Z.of_nat (List.length l) + - Z.of_nat n) 0))
    with (List.length l - n)%nat by lia.
  apply firstn_all2. rewrite length_skipn. lia.
Qed.

Lemma slice_last_ten {A : Type} (l : list A) :
  slice l (-10)%Z None = skipn (List.length l - 10) l.
Proof. apply (slice_last_n l (n := 10)). lia. Qed.

Lemma slice_drop_last {A : Type} (l : list A) :
  slice l 0 (Some (-1)%Z) = firstn (List.length l - 1) l.
Proof.
  unfold slice, relative_index. cbn [Z.ltb Z.compare].
  rewrite Z.min_l by lia. cbn [Z.to_nat skipn]. f_equal. lia.
Qed.

(** X5.  The context [send] passes to [getAIReply] is the last nine
    messages that precede the new question, the first message of the chat
    (the welcome) left out: never more than nine messages, never the
    welcome, never the question itself. *)
Theorem send_history_window (ms : list HistoryItem) (question : HistoryItem) :
  slice (historyForAPI (ms ++ [question])) 0 (Some (-1)%Z)
    = skipn (List.length (tl ms) - 9) (tl ms) /\
  (List.length (slice (historyForAPI (ms ++ [question])) 0 (Some (-1)%Z)) <= 9)%nat /\
  (List.length (slice (historyForAPI (ms ++ [question])) 0 (Some (-1)%Z))
     <= List.length ms - 1)%nat.
Proof.
  assert (E : slice (historyForAPI (ms ++ [question])) 0 (Some (-1)%Z)
              = skipn (List.length (tl ms) - 9) (tl ms)).
  { unfold historyForAPI. rewrite slice_drop_last.
    rewrite (slice_from (ms ++ [question]) 1) by lia.
    rewrite slice_last_ten.
    change (Z.to_nat 1) with 1%nat. destruct ms as [|m r].
    - reflexivity.
    - cbn [app skipn tl]. rewrite length_app. cbn [List.length].
      rewrite skipn_app.
      replace (List.length r + 1 - 10 - List.length r)%nat with 0%nat by lia.
      cbn [skipn]. rewrite length_app, length_skipn. cbn [List.length].
      replace (List.length r + 1 - 10)%nat with (List.length r - 9)%nat by lia.
      rewrite firstn_app, length_skipn.
      replace (List.length r - (List.length r - 9) + 1 - 1 -
               (List.length r - (List.length r - 9)))%nat with 0%nat by lia.
      cbn [firstn]. rewrite app_nil_r. apply firstn_all2. rewrite length_skipn. lia. }
  rewrite E. rewrite length_skipn. split; [reflexivity|].
  destruct ms; cbn [tl List.length]; lia.
Qed.

Lemma getAIReply_returns (toLowerCase : jsstring -> jsstring)
    (fetch : Request -> FetchOutcome) (userMessage crop : jsstring)
    (conversationHistory : list HistoryItem) :
  exists out,
    getAIReply toLowerCase fetch userMessage crop conversationHistory = Returns out.
Proof.
  unfold getAIReply, remote_reply.
  destruct (getLocalFallback_returns toLowerCase userMessage crop) as [out Hout].
  destruct (fetch _) as [|[|] status [|data]]; cbn [negb try_catch bind];
    try (exists out; exact Hout).
  destruct (reply_text data) as [text|e]; cbn [try_catch bind];
    [now eexists | exists out; exact Hout].
Qed.

Lemma build_messages_length (systemPrompt userMessage : jsstring)
    (conversationHistory : list HistoryItem) :
  List.length (build_messages systemPrompt userMessage conversationHistory)
    = S (List.length conversationHistory).
Proof.
  unfold build_messages. destruct conversationHistory as [|m r]; [reflexivity|].
  cbn [map]. rewrite length_app. cbn [List.length]. rewrite length_map. lia.
Qed.

Lemma history_window (ms : list HistoryItem) (question : HistoryItem) :
  slice (historyForAPI (ms ++ [question])) 0 (Some (-1)%Z)
    = skipn (List.length (tl ms) - 9) (tl ms).
Proof.
  unfold historyForAPI. rewrite slice_drop_last.
  rewrite (slice_from (ms ++ [question]) 1) by lia.
  rewrite slice_last_ten.
  change (Z.to_nat 1) with 1%nat. destruct ms as [|m r].
  - reflexivity.
  - cbn [app skipn tl]. rewrite length_app. cbn [List.length].
    rewrite skipn_app.
    replace (List.length r + 1 - 10 - List.length r)%nat with 0%nat by lia.
    cbn [skipn]. rewrite length_app, length_skipn. cbn [List.length].
    replace (List.length r + 1 - 10)%nat with (List.length r - 9)%nat by lia.
    rewrite firstn_app, length_skipn.
    replace (List.length r - (List.length r - 9) + 1 - 1 -
             (List.length r - (List.length r - 9)))%nat with 0%nat by lia.
    cbn [firstn]. rewrite app_nil_r. apply firstn_all2. rewrite length_skipn. lia.
Qed.

(** X6.  A call of [send] with a loaded chat and a question that is not
    blank first appends the question and saves the chat, and sets
    [typing].  As long as the request is not settled, and for ever when it
    never is, that is all: the question is the last message, the chat was
    saved once and [typing] stays set.  Once the request has settled, the
    call has appended exactly two messages, the question and then the
    advisor's reply, has saved the chat after each and has cleared
    [typing]; the messages that were there stay as they were; the reply is
    what [getAIReply] returns for the window of X5 and the outcome of the
    request, and the error bubble of the [catch] is never shown.  The
    request carries at most ten messages.  A blank question changes and
    saves nothing. *)
Theorem send_appends_exchange (toLowerCase : jsstring -> jsstring)
    (network : Network) (ms : list HistoryItem) (typing : bool) (crop msg : jsstring) :
  let window := skipn (List.length (tl ms) - 9) (tl ms) in
  let updated := ms ++ [{| role := js "user"; text := msg |}] in
  (truthy (trim msg) = false ->
   send toLowerCase network (Some ms) typing crop msg
   = {| msgs_after := Some ms; typing_after := typing; saved := [] |}) /\
  (truthy (trim msg) = true ->
   network (build_request msg crop window) = None ->
   send toLowerCase network (Some ms) typing crop msg
   = {| msgs_after := Some updated; typing_after := true; saved := [updated] |}) /\
  (truthy (trim msg) = true ->
   forall outcome, network (build_request msg crop window) = Some outcome ->
   exists replyText,
     getAIReply toLowerCase (fun _ => outcome) msg crop window = Returns replyText /\
     send toLowerCase network (Some ms) typing crop msg
     = {| msgs_after := Some (updated ++ [{| role := js "ai"; text := replyText |}]);
          typing_after := false;
          saved := [updated; updated ++ [{| role := js "ai"; text := replyText |}]] |}) /\
  (List.length (messages (build_request msg crop window)) <= 10)%nat.
Proof.
  cbv zeta. split; [|split; [|split]].
  - intros Hmsg. unfold send. rewrite Hmsg. reflexivity.
  - intros Hmsg Hn. unfold send, await_getAIReply. rewrite Hmsg. cbn [negb].
    rewrite history_window, Hn. reflexivity.
  - intros Hmsg outcome Hn. unfold send, await_getAIReply. rewrite Hmsg. cbn [negb].
    rewrite history_window, Hn.
    destruct (getAIReply_returns toLowerCase (fun _ => outcome) msg crop
                (skipn (List.length (tl ms) - 9) (tl ms))) as [replyText Hr].
    exists replyText. rewrite Hr. split; reflexivity.
  - unfold build_request. cbn [messages]. rewrite build_messages_length, length_skipn. lia.
Qed.

(** The chat after the first question: with the service down, and with a
    request that never settles. *)
Example send_example :
  msgs_after (send ascii_toLowerCase (fun _ => Some FetchRejects)
                (Some (DEFAULT_CHAT (js "Asha"))) false (js "Wheat") (js "urea?"))
  = option_map (fun out =>
        DEFAULT_CHAT (js "Asha") ++
        [{| role := js "user"; text := js "urea?" |}; {| role := js "ai"; text := out |}])
      (match getLocalFallback ascii_toLowerCase (js "urea?") (js "Wheat") with
       | Returns out => Some out
       | Throws _ => None
       end) /\
  send ascii_toLowerCase (fun _ => None) (Some (DEFAULT_CHAT (js "Asha"))) false
    (js "Wheat") (js "urea?")
  = {| msgs_after :=
         Some (DEFAULT_CHAT (js "Asha") ++ [{| role := js "user"; text := js "urea?" |}]);
       typing_after := true;
       saved := [DEFAULT_CHAT (js "Asha") ++ [{| role := js "user"; text := js "urea?" |}]] |} /\
  send ascii_toLowerCase (fun _ => Some FetchRejects) (Some (DEFAULT_CHAT (js "Asha")))
    false (js "Wheat") (js "  ")
  = {| msgs_after := Some (DEFAULT_CHAT (js "Asha")); typing_after := false; saved := [] |}.
Proof. run_all. Qed.

(** X7.  The messages of a request: one more than the history; each history
    entry becomes a message with the same text, of role "assistant" when its
    role is "ai" and "user" otherwise; the last message is the user's.  With
    a history the last message is the bare question; without one it is the
    system prompt, a separator and the question. *)
Theorem build_messages_shape (systemPrompt userMessage : jsstring)
    (conversationHistory : list HistoryItem) :
  exists init last,
    build_messages systemPrompt userMessage conversationHistory = init ++ [last] /\
    msg_role last = js "user" /\
    Forall (fun m => msg_role m = js "user" \/ msg_role m = js "assistant") init /\
    (conversationHistory <> [] ->
     msg_content last = userMessage /\
     map msg_content init = map text conversationHistory /\
     map msg_role init =
       map (fun h => if str_eqb (role h) (js "ai") then js "assistant" else js "user")
           conversationHistory) /\
    (conversationHistory = [] ->
     init = [] /\
     msg_content last = systemPrompt ++ js "\n\n---\nFarmer's question: " ++ userMessage).
Proof.
  unfold build_messages. destruct conversationHistory as [|h r].
  - exists [], {| msg_role := js "user";
                 msg_content := systemPrompt ++ js "\n\n---\nFarmer's question: "
                                ++ userMessage |}.
    repeat (apply conj); try reflexivity; [constructor | congruence | intros _; now split].
  - set (f := fun m : HistoryItem =>
                {| msg_role := if str_eqb (role m) (js "ai") then js "assistant" else js "user";
                   msg_content := text m |}).
    exists (map f (h :: r)), {| msg_role := js "user"; msg_content := userMessage |}.
    split; [reflexivity|]. split; [reflexivity|]. split.
    + apply Forall_forall. intros m Hm. apply in_map_iff in Hm as (x & <- & _).
      cbn [f msg_role]. destruct (str_eqb (role x) (js "ai")); [now right | now left].
    + split; [|discriminate]. intros _. split; [reflexivity|].
      rewrite !map_map. split; reflexivity.
Qed.

(* ================================================================== *)
(** ** Bold markup and speech text *)
(* ================================================================== *)

Lemma split_from_nonempty (k : nat) (sep s : jsstring) : split_from k sep s <> [].
Proof.
  revert k; induction s as [|c s IH]; intros k; cbn [split_from]; [discriminate|].
  destruct k; [|apply IH]. destruct (startsWith (c :: s) sep); [discriminate|].
  unfold push_unit. destruct (split_from 0 sep s); discriminate.
Qed.

Lemma join_cons (sep p : jsstring) (rest : list jsstring) :
  rest <> [] -> join sep (p :: rest) = p ++ sep ++ join sep rest.
Proof. destruct rest; [contradiction | reflexivity]. Qed.

Lemma join_push (sep : jsstring) (c : N) (parts : list jsstring) :
  parts <> [] -> join sep (push_unit c parts) = c :: join sep parts.
Proof.
  destruct parts as [|p rest]; [contradiction|]. intros _.
  cbn [push_unit join]. now destruct rest.
Qed.

Lemma startsWith_skipn (s sep : jsstring) :
  startsWith s sep = true -> s = sep ++ skipn (List.length sep) s.
Proof.
  intros H. apply startsWith_spec in H as [post ->].
  rewrite skipn_app, skipn_all, Nat.sub_diag. reflexivity.
Qed.

(** Joining the parts with the separator gives the text back. *)
Lemma join_split_from (sep : jsstring) (k : nat) (s : jsstring) :
  sep <> [] -> join sep (split_from k sep s) = skipn k s.
Proof.
  intros Hsep. revert k; induction s as [|c s IH]; intros k.
  - now destruct k.
  - cbn [split_from]. destruct k as [|k]; [|apply IH].
    destruct (startsWith (c :: s) sep) eqn:Em.
    + rewrite join_cons by apply split_from_nonempty. rewrite IH. cbn [app skipn].
      apply startsWith_spec in Em as [post Em].
      destruct sep as [|x sep]; [contradiction|]. injection Em as -> ->.
      cbn [List.length app].
      replace (S (List.length sep) - 1)%nat with (List.length sep) by lia.
      rewrite skipn_app, skipn_all, Nat.sub_diag. reflexivity.
    + rewrite join_push by apply split_from_nonempty. now rewrite IH.
Qed.

Lemma concat_push (c : N) (parts : list jsstring) :
  concat (push_unit c parts) = c :: concat parts.
Proof. destruct parts; reflexivity. Qed.

(** Concatenating the parts is removing the separators. *)
Lemma concat_split_from (sep : jsstring) (k : nat) (s : jsstring) :
  concat (split_from k sep s) = replace_from k sep [] s.
Proof.
  revert k; induction s as [|c s IH]; intros k; [reflexivity|].
  cbn [split_from replace_from]. destruct k; [|apply IH].
  destruct (startsWith (c :: s) sep).
  - cbn [concat app]. apply IH.
  - rewrite concat_push. now rewrite IH.
Qed.

Lemma startsWith_app (a b t : jsstring) :
  startsWith a t = true -> startsWith (a ++ b) t = true.
Proof.
  rewrite !startsWith_spec. intros [post ->]. exists (post ++ b).
  now rewrite app_assoc.
Qed.

Lemma split_head_prefix (sep : jsstring) (k : nat) (s : jsstring) :
  sep <> [] -> exists post, skipn k s = hd [] (split_from k sep s) ++ post.
Proof.
  intros Hsep. rewrite <- (join_split_from sep k s Hsep).
  destruct (split_from k sep s) as [|p rest]; [now exists []|].
  destruct rest; cbn [hd join]; [exists []; now rewrite app_nil_r | now eexists].
Qed.

(** No part contains the separator. *)
Lemma split_parts_free (sep : jsstring) (k : nat) (s : jsstring) :
  sep <> [] -> Forall (fun p => includes p sep = false) (split_from k sep s).
Proof.
  intros Hsep. assert (Hnil : includes [] sep = false).
  { destruct sep; [contradiction | reflexivity]. }
  revert k; induction s as [|c s IH]; intros k.
  - cbn [split_from]. now constructor.
  - cbn [split_from]. destruct k; [|apply IH].
    destruct (startsWith (c :: s) sep) eqn:Em.
    + constructor; [exact Hnil | apply IH].
    + pose proof (IH 0%nat) as Hfree.
      destruct (split_head_prefix sep 0 s Hsep) as [post Hpost]. cbn [skipn] in Hpost.
      pose proof (split_from_nonempty 0 sep s) as Hne.
      destruct (split_from 0 sep s) as [|p rest]; [contradiction|].
      cbn [push_unit hd] in *.
      pose proof (Forall_inv Hfree) as Hp. pose proof (Forall_inv_tail Hfree) as Hrest.
      cbn beta in Hp. constructor; [|exact Hrest].
      rewrite includes_cons, Hp, orb_false_r.
      destruct (startsWith (c :: p) sep) eqn:Ep; [|reflexivity].
      apply (startsWith_app _ post) in Ep. cbn [app] in Ep.
      rewrite <- Hpost in Ep. congruence.
Qed.

Lemma span_text_spans (odd : bool) (parts : list jsstring) :
  map span_text (spans_from odd parts) = parts.
Proof.
  revert odd; induction parts as [|p rest IH]; intros odd; [reflexivity|].
  cbn [spans_from map]. rewrite IH. now destruct odd.
Qed.

Lemma spans_from_nth (odd : bool) (parts : list jsstring) (j : nat) :
  nth_error (spans_from odd parts) j =
  option_map (fun p => if xorb odd (Nat.odd j) then Strong p else Plain p)
    (nth_error parts j).
Proof.
  revert odd j; induction parts as [|p rest IH]; intros odd j.
  - now destruct j.
  - destruct j as [|j]; cbn [spans_from nth_error option_map].
    + now destruct odd.
    + rewrite IH. rewrite Nat.odd_succ, <- Nat.negb_odd.
      now destruct odd, (Nat.odd j).
Qed.

(** X8.  The bold markup of a chat bubble: the text splits at every "**"
    into parts that, joined by "**", give the text back; no part contains
    "**"; the parts are shown in order, plain and strong in turn starting
    with plain, so what the bubble shows is the text with every "**"
    removed, which is also the first step of [speak]. *)
Theorem bubble_spans_markup (text : jsstring) :
  join (js "**") (split (js "**") text) = text /\
  Forall (fun p => includes p (js "**") = false) (split (js "**") text) /\
  map span_text (bubble_spans text) = split (js "**") text /\
  concat (map span_text (bubble_spans text)) = replaceAll (js "**") [] text /\
  (forall j,
     nth_error (bubble_spans text) j =
     option_map (fun p => if Nat.odd j then Strong p else Plain p)
       (nth_error (split (js "**") text) j)).
Proof.
  assert (Hsep : js "**" <> []) by (vm_compute; discriminate).
  split; [exact (join_split_from (js "**") 0 text Hsep)|].
  split; [exact (split_parts_free (js "**") 0 text Hsep)|].
  split; [apply span_text_spans|].
  split; [|intros j; apply spans_from_nth].
  unfold bubble_spans. rewrite span_text_spans. apply concat_split_from.
Qed.

Example bubble_spans_example :
  bubble_spans (js "📊 **Rice Market Price**\n\nCurrent")
  = [Plain (js "📊 "); Strong (js "Rice Market Price"); Plain (js "\n\nCurrent")] /\
  split (js "**") (js "a***b") = [js "a"; js "*b"] /\
  split (js "**") [] = [[]].
Proof. run_all. Qed.

Lemma replace_from_skip (pat rep : jsstring) (k : nat) (s : jsstring) :
  replace_from k pat rep s = replace_from 0 pat rep (skipn k s).
Proof.
  revert k; induction s as [|c s IH]; intros k; [now destruct k|].
  destruct k; [reflexivity|]. cbn [replace_from skipn]. apply IH.
Qed.

(** Replacing one unit by a text is a [flat_map]. *)
Lemma replaceAll_unit (c : N) (rep s : jsstring) :
  replaceAll [c] rep s = flat_map (fun d => if unit_eqb d c then rep else [d]) s.
Proof.
  unfold replaceAll. induction s as [|d s IH]; [reflexivity|].
  cbn [replace_from flat_map startsWith List.length Nat.sub]. rewrite andb_true_r, IH.
  now destruct (unit_eqb d c).
Qed.

Lemma flat_replace_keeps (P : N -> Prop) (c : N) (rep s : jsstring) :
  Forall P rep -> Forall P s ->
  Forall P (flat_map (fun d => if unit_eqb d c then rep else [d]) s).
Proof.
  intros Hrep Hs. induction Hs as [|d s Hd Hs IH]; cbn [flat_map]; [constructor|].
  apply Forall_app. split; [|exact IH].
  destruct (unit_eqb d c); [exact Hrep | now constructor].
Qed.

Lemma flat_replace_removes (c : N) (rep s : jsstring) :
  Forall (fun d => d <> c) rep ->
  Forall (fun d => d <> c) (flat_map (fun d => if unit_eqb d c then rep else [d]) s).
Proof.
  intros Hrep. induction s as [|d s IH]; cbn [flat_map]; [constructor|].
  apply Forall_app. split; [|exact IH].
  destruct (unit_eqb d c) eqn:E; [exact Hrep|]. constructor; [|constructor].
  intros ->. now rewrite unit_eqb_refl in E.
Qed.

Lemma Forall_neq_of_forallb (c : N) (s : jsstring) :
  forallb (fun d => negb (unit_eqb d c)) s = true -> Forall (fun d => d <> c) s.
Proof.
  intros H. apply Forall_forall. intros d Hd E. rewrite forallb_forall in H.
  specialize (H d Hd). subst d. now rewrite unit_eqb_refl in H.
Qed.

Ltac unit_free := apply Forall_neq_of_forallb; vm_compute; reflexivity.

(** X9.  The text handed to the speech synthesis never holds a bullet, an
    arrow, a rupee sign or a line feed, whatever the reply was. *)
Theorem speech_text_has_no_symbols (text : jsstring) :
  Forall (fun d => d <> 8226%N /\ d <> 8594%N /\ d <> 8377%N /\ d <> 10%N)
    (speech_text text) /\
  js "•" = [8226%N] /\ js "→" = [8594%N] /\ js "₹" = [8377%N] /\ js "\n" = [10%N].
Proof.
  split; [|run_all].
  unfold speech_text.
  change (js "\n") with [10%N]. change (js "₹") with [8377%N].
  change (js "→") with [8594%N]. change (js "•") with [8226%N].
  rewrite !replaceAll_unit.
  set (t0 := strip_headings (replaceAll (js "**") [] text)).
  set (f1 := fun d => if unit_eqb d 8226 then js "," else [d]).
  set (f2 := fun d => if unit_eqb d 8594 then js "means" else [d]).
  set (f3 := fun d => if unit_eqb d 8377 then js "rupees " else [d]).
  set (f4 := fun d => if unit_eqb d 10 then js ". " else [d]).
  assert (H1 : Forall (fun d => d <> 8226%N) (flat_map f1 t0)).
  { apply flat_replace_removes. unit_free. }
  assert (H2 : Forall (fun d => d <> 8226%N /\ d <> 8594%N) (flat_map f2 (flat_map f1 t0))).
  { apply Forall_and.
    - apply flat_replace_keeps; [unit_free | exact H1].
    - apply flat_replace_removes. unit_free. }
  assert (H3 : Forall (fun d => (d <> 8226%N /\ d <> 8594%N) /\ d <> 8377%N)
                 (flat_map f3 (flat_map f2 (flat_map f1 t0)))).
  { apply Forall_and.
    - apply flat_replace_keeps; [|exact H2].
      apply Forall_and; unit_free.
    - apply flat_replace_removes. unit_free. }
  assert (H4 : Forall (fun d => ((d <> 8226%N /\ d <> 8594%N) /\ d <> 8377%N) /\ d <> 10%N)
                 (flat_map f4 (flat_map f3 (flat_map f2 (flat_map f1 t0))))).
  { apply Forall_and.
    - apply flat_replace_keeps; [|exact H3].
      apply Forall_and; [apply Forall_and|]; unit_free.
    - apply flat_replace_removes. unit_free. }
  revert H4. apply Forall_impl. tauto.
Qed.

Lemma includes_pair_cons (c : N) (s : jsstring) :
  includes (c :: s) [STAR; STAR] = unit_eqb c STAR && heads_star s || includes s [STAR; STAR].
Proof.
  rewrite includes_cons. f_equal. destruct s as [|d s]; cbn; [now rewrite andb_false_r|].
  now rewrite andb_true_r.
Qed.

Lemma replace_pairs_head (s : jsstring) :
  heads_star s = false -> heads_star (replace_from 0 [STAR; STAR] [] s) = false.
Proof.
  destruct s as [|c s]; [reflexivity|]. cbn [heads_star]. intros Hc.
  cbn [replace_from startsWith]. rewrite Hc. cbn [andb heads_star]. exact Hc.
Qed.

(** Once the pairs of stars are removed, no two stars are adjacent. *)
Lemma replace_pairs_free (k : nat) (s : jsstring) :
  includes (replace_from k [STAR; STAR] [] s) [STAR; STAR] = false.
Proof.
  revert k; induction s as [|c s IH]; intros k; [reflexivity|].
  cbn [replace_from]. destruct k; [|apply IH].
  destruct (startsWith (c :: s) [STAR; STAR]) eqn:Em; [apply IH|].
  rewrite includes_pair_cons, IH, orb_false_r.
  destruct (unit_eqb c STAR) eqn:Ec; [|reflexivity]. cbn [andb].
  apply replace_pairs_head. destruct s as [|d s]; [reflexivity|].
  cbn [heads_star]. cbn [startsWith] in Em. rewrite Ec in Em.
  cbn [andb] in Em. now rewrite andb_true_r in Em.
Qed.

Lemma heading_at_none (c : N) (s : jsstring) :
  c <> 35%N -> heading_at (c :: s) = None.
Proof.
  intros Hc. unfold heading_at.
  change (js "### ") with [35%N; 35%N; 35%N; 32%N].
  change (js "## ") with [35%N; 35%N; 32%N]. change (js "# ") with [35%N; 32%N].
  cbn [startsWith]. replace (unit_eqb c 35) with false; [reflexivity|].
  symmetry. destruct (unit_eqb c 35) eqn:E; [|reflexivity].
  apply unit_eqb_eq in E. contradiction.
Qed.

Lemma strip_headings_no_hash (s : jsstring) :
  Forall (fun d => d <> 35%N) s -> strip_headings s = s.
Proof.
  unfold strip_headings. induction 1 as [|c s Hc Hs IH]; [reflexivity|].
  cbn [strip_headings_from]. rewrite (heading_at_none c s Hc). now rewrite IH.
Qed.

Lemma replace_from_keeps (P : N -> Prop) (pat rep : jsstring) (k : nat) (s : jsstring) :
  Forall P rep -> Forall P s -> Forall P (replace_from k pat rep s).
Proof.
  intros Hrep Hs. revert k. induction Hs as [|c s Hc Hs IH]; intros k; [constructor|].
  cbn [replace_from]. destruct k; [|apply IH].
  destruct (startsWith (c :: s) pat).
  - apply Forall_app. split; [exact Hrep | apply IH].
  - constructor; [exact Hc | apply IH].
Qed.

Lemma includes_pair_app_free (a b : jsstring) :
  Forall (fun d => d <> STAR) a ->
  includes (a ++ b) [STAR; STAR] = includes b [STAR; STAR].
Proof.
  induction 1 as [|c a Hc Ha IH]; [reflexivity|].
  cbn [app]. rewrite includes_pair_cons, IH.
  destruct (unit_eqb c STAR) eqn:E; [|reflexivity].
  apply unit_eqb_eq in E. contradiction.
Qed.

Lemma flat_replace_head (c : N) (rep s : jsstring) :
  rep <> [] -> Forall (fun d => d <> STAR) rep ->
  heads_star s = false ->
  heads_star (flat_map (fun d => if unit_eqb d c then rep else [d]) s) = false.
Proof.
  intros Hne Hrep. destruct s as [|d s]; [reflexivity|].
  cbn [heads_star flat_map]. intros Hd. destruct (unit_eqb d c).
  - destruct rep as [|x rep]; [contradiction|]. cbn [app heads_star].
    apply Forall_inv in Hrep. destruct (unit_eqb x STAR) eqn:E; [|reflexivity].
    apply unit_eqb_eq in E. contradiction.
  - exact Hd.
Qed.

(** Replacing a unit other than the star by a text without stars, and not
    empty, brings no two stars together. *)
Lemma flat_replace_pair_free (c : N) (rep s : jsstring) :
  rep <> [] -> Forall (fun d => d <> STAR) rep -> c <> STAR ->
  includes s [STAR; STAR] = false ->
  includes (flat_map (fun d => if unit_eqb d c then rep else [d]) s) [STAR; STAR] = false.
Proof.
  intros Hne Hrep Hc. induction s as [|d s IH]; [reflexivity|].
  rewrite includes_pair_cons. intros H. apply orb_false_iff in H as [Hd Hs].
  cbn [flat_map]. destruct (unit_eqb d c) eqn:Edc.
  - rewrite (includes_pair_app_free _ _ Hrep). now apply IH.
  - cbn [app]. rewrite includes_pair_cons, (IH Hs), orb_false_r.
    destruct (unit_eqb d STAR) eqn:Ed; [|reflexivity]. cbn [andb] in *.
    now apply flat_replace_head.
Qed.

(** X10.  When the reply holds no "#", the text handed to the speech
    synthesis holds no "**". *)
Theorem speech_text_has_no_bold_marker (text : jsstring) :
  Forall (fun d => d <> 35%N) text ->
  includes (speech_text text) (js "**") = false.
Proof.
  intros Hhash. unfold speech_text.
  change (js "\n") with [10%N]. change (js "₹") with [8377%N].
  change (js "→") with [8594%N]. change (js "•") with [8226%N].
  change (js "**") with [STAR; STAR].
  rewrite !replaceAll_unit.
  rewrite strip_headings_no_hash
    by (apply replace_from_keeps; [constructor | exact Hhash]).
  apply flat_replace_pair_free; [vm_compute; discriminate | unit_free | discriminate|].
  apply flat_replace_pair_free; [vm_compute; discriminate | unit_free | discriminate|].
  apply flat_replace_pair_free; [vm_compute; discriminate | unit_free | discriminate|].
  apply flat_replace_pair_free; [vm_compute; discriminate | unit_free | discriminate|].
  apply replace_pairs_free.
Qed.

Lemma speech_text_has_no_bold_marker_witness :
  includes (speech_text (js "📊 **Rice Market Price**\n• eNAM → ₹3100")) (js "**") = false.
Proof.
  apply (speech_text_has_no_bold_marker (js "📊 **Rice Market Price**\n• eNAM → ₹3100")).
  unit_free.
Defined.

(** What is spoken for a line of a fallback answer; and a reply with a
    heading mark between two stars, whose removal brings the stars
    together. *)
Example speech_text_examples :
  speech_text (js "📊 **Rice Market Price**\n• eNAM → ₹3100")
    = js "📊 Rice Market Price. , eNAM means rupees 3100" /\
  speech_text (js "## Prices") = js "Prices" /\
  speech_text (js "#### Prices") = js "#Prices" /\
  speech_text (js "*# *") = js "**".
Proof. run_all. Qed.

(* ================================================================== *)
(** ** Alerts *)
(* ================================================================== *)

Lemma mark_read_idem (a : Alerts.Alert) : Alerts.mark (Alerts.mark a) = Alerts.mark a.
Proof. reflexivity. Qed.

Lemma mark_of_read (a : Alerts.Alert) : Alerts.read a = true -> Alerts.mark a = a.
Proof. destruct a as [i t c m tm r s]. cbn. now intros ->. Qed.

Lemma unread_markAllRead (alerts : list Alerts.Alert) :
  Alerts.unread (Alerts.markAllRead alerts) = 0%nat.
Proof.
  unfold Alerts.unread, Alerts.markAllRead. induction alerts as [|x l IH]; [reflexivity|].
  cbn [map filter Alerts.mark Alerts.read negb]. exact IH.
Qed.

Lemma unread_markRead (a : Alerts.Alert) (alerts : list Alerts.Alert) :
  (Alerts.unread (Alerts.markRead a alerts) +
   List.length (filter (fun x => negb (Alerts.read x) && (Alerts.id x =? Alerts.id a)%Z) alerts)
   = Alerts.unread alerts)%nat.
Proof.
  unfold Alerts.unread, Alerts.markRead.
  induction alerts as [|x l IH]; [reflexivity|]. cbn [map filter].
  destruct (Alerts.id x =? Alerts.id a)%Z; destruct (Alerts.read x) eqn:Er;
    cbn [Alerts.mark Alerts.read negb andb List.length]; rewrite ?Er;
    cbn [negb List.length]; lia.
Qed.

Lemma no_unread_with_id (i : Z) (alerts : list Alerts.Alert) :
  ~ In i (map Alerts.id alerts) ->
  filter (fun x => negb (Alerts.read x) && (Alerts.id x =? i)%Z) alerts = [].
Proof.
  induction alerts as [|y l IH]; intros Hn; [reflexivity|]. cbn [filter map In] in *.
  destruct (Z.eqb_spec (Alerts.id y) i) as [E|N].
  - exfalso. apply Hn. now left.
  - rewrite andb_false_r. apply IH. tauto.
Qed.

Lemma one_unread_with_id (a : Alerts.Alert) (alerts : list Alerts.Alert) :
  In a alerts -> Alerts.read a = false -> NoDup (map Alerts.id alerts) ->
  List.length (filter (fun x => negb (Alerts.read x) && (Alerts.id x =? Alerts.id a)%Z) alerts)
  = 1%nat.
Proof.
  intros Hin Hread. induction alerts as [|x l IH]; intros Hnd; [destruct Hin|].
  cbn [map] in Hnd. pose proof (NoDup_cons_iff (Alerts.id x) (map Alerts.id l)) as Hc.
  apply Hc in Hnd as [Hnotin Hnd]. cbn [filter]. destruct Hin as [->|Hin].
  - rewrite Hread, Z.eqb_refl. cbn [negb andb List.length].
    now rewrite (no_unread_with_id _ l Hnotin).
  - destruct (Z.eqb_spec (Alerts.id x) (Alerts.id a)) as [E|N].
    + exfalso. apply Hnotin. rewrite E. now apply in_map.
    + rewrite andb_false_r. now apply IH.
Qed.

(** X11.  Marking alerts read.  "Mark all read" leaves no alert unread.  A
    click on an alert marks every alert of the same id read and nothing
    else: the list keeps its length, its order and every other field; no
    read alert becomes unread; the number of unread alerts falls by the
    number of unread alerts with that id, which is one when the clicked
    alert is unread and the ids are all different; a second click changes
    nothing. *)
Theorem marking_alerts_read (a : Alerts.Alert) (alerts : list Alerts.Alert) :
  Alerts.unread (Alerts.markAllRead alerts) = 0%nat /\
  Forall2 (fun x y => y = x \/ (Alerts.id x = Alerts.id a /\ y = Alerts.mark x))
    alerts (Alerts.markRead a alerts) /\
  Forall2 (fun x y => Alerts.read x = true -> Alerts.read y = true)
    alerts (Alerts.markRead a alerts) /\
  (Alerts.unread (Alerts.markRead a alerts) +
   List.length (filter (fun x => negb (Alerts.read x) && (Alerts.id x =? Alerts.id a)%Z) alerts)
   = Alerts.unread alerts)%nat /\
  (In a alerts -> Alerts.read a = false -> NoDup (map Alerts.id alerts) ->
   S (Alerts.unread (Alerts.markRead a alerts)) = Alerts.unread alerts) /\
  Alerts.markRead a (Alerts.markRead a alerts) = Alerts.markRead a alerts.
Proof.
  split; [apply unread_markAllRead|].
  split; [|split; [|split; [apply unread_markRead|split]]].
  - unfold Alerts.markRead. induction alerts as [|x l IH]; cbn [map]; constructor; [|exact IH].
    destruct (Z.eqb_spec (Alerts.id x) (Alerts.id a)); [right; now split | now left].
  - unfold Alerts.markRead. induction alerts as [|x l IH]; cbn [map]; constructor; [|exact IH].
    now destruct (Alerts.id x =? Alerts.id a)%Z.
  - intros Hin Hread Hnd. rewrite <- (unread_markRead a alerts).
    rewrite (one_unread_with_id a alerts Hin Hread Hnd). lia.
  - unfold Alerts.markRead. rewrite map_map. apply map_ext. intros x.
    destruct (Alerts.id x =? Alerts.id a)%Z eqn:E; cbn [Alerts.mark Alerts.id]; now rewrite E.
Qed.

(** The alerts the application starts with: two unread; a click on the
    first leaves one, a click on the third changes nothing. *)
Example init_alerts_unread :
  Alerts.unread Alerts.INIT_ALERTS = 2%nat /\
  option_map (fun a => Alerts.unread (Alerts.markRead a Alerts.INIT_ALERTS))
    (nth_error Alerts.INIT_ALERTS 0) = Some 1%nat /\
  option_map (fun a => Alerts.markRead a Alerts.INIT_ALERTS)
    (nth_error Alerts.INIT_ALERTS 2) = Some Alerts.INIT_ALERTS.
Proof. run_all. Qed.

Lemma str_eqb_refl (a : jsstring) : str_eqb a a = true.
Proof. now apply str_eqb_eq. Qed.

Lemma str_in_dec (x : jsstring) (l : list jsstring) : {In x l} + {~ In x l}.
Proof. apply in_dec. apply (list_eq_dec N.eq_dec). Qed.

Lemma indexOf_from_found (i : Z) (a : list jsstring) (v : jsstring) :
  In v a ->
  (i <= Alerts.indexOf_from i a v < i + Z.of_nat (List.length a))%Z.
Proof.
  revert i; induction a as [|x a IH]; intros i Hin; [destruct Hin|].
  cbn [Alerts.indexOf_from List.length]. destruct (str_eqb x v) eqn:E; [lia|].
  destruct Hin as [->|Hin]; [now rewrite str_eqb_refl in E|].
  specialize (IH (i + 1)%Z Hin). lia.
Qed.

Lemma indexOf_from_app_in (i : Z) (pre post : list jsstring) (v : jsstring) :
  In v pre -> Alerts.indexOf_from i (pre ++ post) v = Alerts.indexOf_from i pre v.
Proof.
  revert i; induction pre as [|x pre IH]; intros i Hin; [destruct Hin|].
  cbn [app Alerts.indexOf_from]. destruct (str_eqb x v) eqn:E; [reflexivity|].
  destruct Hin as [->|Hin]; [now rewrite str_eqb_refl in E|]. now apply IH.
Qed.

Lemma indexOf_from_app_notin (i : Z) (pre post : list jsstring) (v : jsstring) :
  ~ In v pre ->
  Alerts.indexOf_from i (pre ++ post) v
  = Alerts.indexOf_from (i + Z.of_nat (List.length pre)) post v.
Proof.
  revert i; induction pre as [|x pre IH]; intros i Hn.
  - cbn [app List.length]. f_equal. lia.
  - cbn [app Alerts.indexOf_from List.length]. rewrite str_neq_eqb.
    + rewrite IH; [f_equal; lia|]. intros H. apply Hn. now right.
    + intros ->. apply Hn. now left.
Qed.

(** An element is kept exactly at its first occurrence. *)
Lemma first_index_test (pre post : list jsstring) (x : jsstring) :
  (Alerts.indexOf (pre ++ x :: post) x =? Z.of_nat (List.length pre))%Z
  = if str_in_dec x pre then false else true.
Proof.
  unfold Alerts.indexOf. destruct (str_in_dec x pre) as [Hin|Hn].
  - rewrite indexOf_from_app_in by exact Hin.
    pose proof (indexOf_from_found 0 pre x Hin). apply Z.eqb_neq. lia.
  - rewrite indexOf_from_app_notin by exact Hn. cbn [Alerts.indexOf_from].
    rewrite str_eqb_refl. apply Z.eqb_eq. lia.
Qed.

Lemma filter_from_first (a rest pre : list jsstring) :
  a = pre ++ rest ->
  NoDup (Alerts.filter_from (fun v i => (Alerts.indexOf a v =? i)%Z)
           (Z.of_nat (List.length pre)) rest) /\
  forall y,
    In y (Alerts.filter_from (fun v i => (Alerts.indexOf a v =? i)%Z)
            (Z.of_nat (List.length pre)) rest)
    <-> In y rest /\ ~ In y pre.
Proof.
  revert pre; induction rest as [|x r IH]; intros pre Ha.
  - cbn [Alerts.filter_from]. split; [constructor | intros y; cbn [In]; tauto].
  - cbn [Alerts.filter_from].
    assert (Et : (Alerts.indexOf a x =? Z.of_nat (List.length pre))%Z
                 = if str_in_dec x pre then false else true)
      by (rewrite Ha; apply first_index_test).
    rewrite Et. clear Et.
    assert (Ha' : a = (pre ++ [x]) ++ r) by (now rewrite <- app_assoc).
    destruct (IH (pre ++ [x]) Ha') as [Hnd Hin].
    rewrite length_app in Hnd, Hin. cbn [List.length] in Hnd, Hin.
    replace (Z.of_nat (List.length pre + 1)) with (Z.of_nat (List.length pre) + 1)%Z
      in Hnd, Hin by lia.
    destruct (str_in_dec x pre) as [Hx|Hx].
    + split; [exact Hnd|]. intros y. rewrite Hin. cbn [In]. rewrite in_app_iff. cbn [In].
      split.
      * intros [Hr Hn]. split; [now right | tauto].
      * intros [[->|Hr] Hn]; [contradiction|]. split; [exact Hr|].
        intros [H|[->|[]]]; [contradiction | contradiction].
    + split.
      * constructor; [|exact Hnd]. rewrite Hin, in_app_iff. cbn [In]. tauto.
      * intros y. cbn [In]. rewrite Hin, in_app_iff. cbn [In].
        destruct (list_eq_dec N.eq_dec x y) as [->|N]; [tauto|]. tauto.
Qed.

(** X12.  The idiom [a.filter((v,i,a) => a.indexOf(v) === i)] keeps the
    first occurrence of every value: the result has no duplicates and the
    same members.  So the crops watched are Wheat, Onion and Tomato, and
    after them the selected crop when it is another one. *)
Theorem watched_crops (a : list jsstring) (selected : jsstring) :
  NoDup (Alerts.first_occurrences a) /\
  (forall y, In y (Alerts.first_occurrences a) <-> In y a) /\
  (In selected [js "Wheat"; js "Onion"; js "Tomato"] ->
   Alerts.watched selected = [js "Wheat"; js "Onion"; js "Tomato"]) /\
  (~ In selected [js "Wheat"; js "Onion"; js "Tomato"] ->
   Alerts.watched selected = [js "Wheat"; js "Onion"; js "Tomato"; selected]).
Proof.
  destruct (filter_from_first a a [] eq_refl) as [Hnd Hin].
  split; [exact Hnd|]. split; [intros y; rewrite (Hin y); cbn [In]; tauto|].
  split.
  - cbn [In]. intros [<-|[<-|[<-|[]]]]; run.
  - cbn [In]. intros Hn.
    assert (Hw : str_eqb (js "Wheat") selected = false) by (apply str_neq_eqb; tauto).
    assert (Ho : str_eqb (js "Onion") selected = false) by (apply str_neq_eqb; tauto).
    assert (Ht : str_eqb (js "Tomato") selected = false) by (apply str_neq_eqb; tauto).
    unfold Alerts.watched, Alerts.first_occurrences, Alerts.indexOf.
    cbn [Alerts.filter_from Alerts.indexOf_from].
    rewrite Hw, Ho, Ht, !str_eqb_refl.
    replace (str_eqb (js "Wheat") (js "Onion")) with false by (symmetry; run).
    replace (str_eqb (js "Wheat") (js "Tomato")) with false by (symmetry; run).
    replace (str_eqb (js "Onion") (js "Tomato")) with false by (symmetry; run).
    reflexivity.
Qed.

(* ================================================================== *)
(** ** The password encoding *)
(* ================================================================== *)

Example hashPass_examples :
  hashPass (js "secret1") = Ok (js "c2VjcmV0MV9hZ3JvdnVlX3NhbHRfMjAyNQ==") /\
  recoverPass (js "c2VjcmV0MV9hZ3JvdnVlX3NhbHRfMjAyNQ==") = Some (js "secret1") /\
  hashPass (js "पासवर्ड 🌾") = Ok (js "4KSq4KS+4KS44KS14KSw4KWN4KShIPCfjL5fYWdyb3Z1ZV9zYWx0XzIwMjU=") /\
  recoverPass (js "4KSq4KS+4KS44KS14KSw4KWN4KShIPCfjL5fYWdyb3Z1ZV9zYWx0XzIwMjU=")
    = Some (js "पासवर्ड 🌾") /\
  encodeURIComponent (js "a b%c/é") = Ok (js "a%20b%25c%2F%C3%A9") /\
  unescape (js "%u0041%41%4g%") = js "AA%4g%" /\
  hashPass [55357%N] = Raise URIError.
Proof. run_all. Qed.

Ltac div_lia := zify; Z.to_euclidean_division_equations; lia.

(** A property checked for every number below a bound. *)
Lemma below_forallb (k : nat) (P : N -> bool) :
  forallb P (map N.of_nat (seq 0 k)) = true ->
  forall n, (n < N.of_nat k)%N -> P n = true.
Proof.
  intros H n Hn. rewrite forallb_forall in H. apply H.
  apply in_map_iff. exists (N.to_nat n). split; [apply N2Nat.id|].
  apply in_seq. lia.
Qed.

Lemma hex_digit_value (d : N) :
  (d < 16)%N -> hex_value (hex_digit d) = Some d /\ (hex_digit d =? 117)%N = false.
Proof.
  intros Hd.
  pose proof (below_forallb 16
    (fun d => match hex_value (hex_digit d) with
              | Some v => (v =? d)%N
              | None => false
              end && negb (hex_digit d =? 117)%N) eq_refl d Hd) as H.
  cbn beta in H. apply andb_true_iff in H as [Hv Hu].
  destruct (hex_value (hex_digit d)) as [v|]; [|discriminate].
  apply N.eqb_eq in Hv. subst v. split; [reflexivity | now apply negb_true_iff].
Qed.

Lemma escape_at_percent (b : N) (rest : jsstring) :
  (b < 256)%N -> escape_at (percent b ++ rest) = Some (b, 3%nat).
Proof.
  intros Hb. unfold percent. cbn [app escape_at N.eqb Pos.eqb].
  assert (H1 : (b / 16 < 16)%N) by div_lia.
  assert (H2 : (b mod 16 < 16)%N) by div_lia.
  destruct (hex_digit_value (b / 16) H1) as [V1 U1].
  destruct (hex_digit_value (b mod 16) H2) as [V2 _].
  assert (Eu : escape_u (hex_digit (b / 16) :: hex_digit (b mod 16) :: rest) = None).
  { unfold escape_u. destruct rest as [|c [|d [|e r]]]; try reflexivity. now rewrite U1. }
  rewrite Eu. unfold escape_2. rewrite V1, V2. do 2 f_equal. div_lia.
Qed.

Lemma unescape_percent (b : N) (rest : jsstring) :
  (b < 256)%N -> unescape_from 0 (percent b ++ rest) = b :: unescape_from 0 rest.
Proof.
  intros Hb. pose proof (escape_at_percent b rest Hb) as E.
  unfold percent in *. cbn [app] in *. cbn [unescape_from]. rewrite E. reflexivity.
Qed.

Lemma unescape_octets (bs rest : jsstring) :
  Forall (fun b => (b < 256)%N) bs ->
  unescape_from 0 (flat_map percent bs ++ rest) = bs ++ unescape_from 0 rest.
Proof.
  induction 1 as [|b bs Hb Hbs IH]; [reflexivity|].
  cbn [flat_map]. rewrite <- app_assoc, (unescape_percent b _ Hb), IH. reflexivity.
Qed.

Lemma unreserved_ascii (c : N) : is_unreserved c = true -> (c < 128)%N /\ c <> 37%N.
Proof.
  unfold is_unreserved.
  repeat rewrite ?orb_true_iff, ?andb_true_iff, ?N.leb_le, ?N.eqb_eq. lia.
Qed.

Lemma unescape_unreserved (c : N) (rest : jsstring) :
  is_unreserved c = true -> unescape_from 0 (c :: rest) = c :: unescape_from 0 rest.
Proof.
  intros Hc. apply unreserved_ascii in Hc as [_ Hc]. cbn [unescape_from escape_at].
  apply N.eqb_neq in Hc. now rewrite Hc.
Qed.

Lemma utf8_encode_octets (cp : N) :
  (cp < 1114112)%N -> Forall (fun b => (b < 256)%N) (utf8_encode cp).
Proof.
  intros Hcp. unfold utf8_encode.
  destruct (N.ltb_spec cp 128); [repeat constructor; lia|].
  destruct (N.ltb_spec cp 2048); [repeat constructor; div_lia|].
  destruct (N.ltb_spec cp 65536); repeat constructor; div_lia.
Qed.

(** Unescaping what [encodeURIComponent] wrote leaves the UTF-8 octets. *)
Lemma unescape_encoded (cps : list N) :
  Forall (fun cp => (cp < 1114112)%N) cps ->
  unescape (flat_map (fun cp => if is_unreserved cp then [cp]
                                else flat_map percent (utf8_encode cp)) cps)
  = flat_map utf8_encode cps.
Proof.
  unfold unescape. induction 1 as [|cp cps Hcp Hcps IH]; [reflexivity|].
  cbn [flat_map]. destruct (is_unreserved cp) eqn:Eu.
  - cbn [app]. rewrite (unescape_unreserved cp _ Eu), IH.
    destruct (unreserved_ascii cp Eu) as [Hlt _]. unfold utf8_encode.
    apply N.ltb_lt in Hlt. now rewrite Hlt.
  - rewrite (unescape_octets _ _ (utf8_encode_octets cp Hcp)), IH. reflexivity.
Qed.

(** Induction over a list two and three elements at a time. *)
Lemma pair_induction {A : Type} (P : list A -> Prop) :
  P [] -> (forall a, P [a]) ->
  (forall a b l, P l -> P (b :: l) -> P (a :: b :: l)) ->
  forall l, P l.
Proof.
  intros H0 H1 H2 l.
  assert (H : P l /\ forall a, P (a :: l)); [|apply H].
  induction l as [|b l [IH1 IH2]]; [now split|].
  split; [apply IH2|]. intros a. apply H2; [exact IH1 | apply IH2].
Qed.

Lemma triple_induction {A : Type} (P : list A -> Prop) :
  P [] -> (forall a, P [a]) -> (forall a b, P [a; b]) ->
  (forall a b c l, P l -> P (a :: b :: c :: l)) ->
  forall l, P l.
Proof.
  intros H0 H1 H2 H3 l.
  assert (H : P l /\ (forall a, P (a :: l)) /\ forall a b, P (a :: b :: l)); [|apply H].
  induction l as [|c l (IH0 & IH1 & IH2)]; [now repeat split|].
  split; [apply IH1|]. split; [intros a; apply IH2|]. intros a b. now apply H3.
Qed.

Lemma b64_char_value (n : N) :
  (n < 64)%N -> b64_value (b64_char n) = Some n /\ (b64_char n =? 61)%N = false.
Proof.
  intros Hn.
  pose proof (below_forallb 64
    (fun n => match b64_value (b64_char n) with
              | Some v => (v =? n)%N
              | None => false
              end && negb (b64_char n =? 61)%N) eq_refl n Hn) as H.
  cbn beta in H. apply andb_true_iff in H as [Hv Hu].
  destruct (b64_value (b64_char n)) as [v|]; [|discriminate].
  apply N.eqb_eq in Hv. subst v. split; [reflexivity | now apply negb_true_iff].
Qed.

Lemma b64_char_ascii (n : N) : (b64_char n < 128)%N.
Proof.
  unfold b64_char.
  destruct (N.ltb_spec n 26); [lia|]. destruct (N.ltb_spec n 52); [lia|].
  destruct (N.ltb_spec n 62); [lia|]. destruct (n =? 62)%N; lia.
Qed.

Lemma base64_ascii (bs : list N) : Forall (fun c => (c < 128)%N) (base64 bs).
Proof.
  induction bs as [| a | a b | a b c l IH] using triple_induction;
    cbn [base64 app]; repeat constructor;
    try apply b64_char_ascii; try lia; exact IH.
Qed.

Ltac b64_step :=
  match goal with
  | |- context [b64_value (b64_char ?n)] =>
      let V := fresh "V" in let U := fresh "U" in
      assert (n < 64)%N as V by div_lia;
      apply b64_char_value in V as [V U]; rewrite ?V, ?U; clear V U
  end.

(** Base64 is read back as the octets it was written from. *)
Lemma base64_decode_base64 (bs : list N) :
  Forall (fun b => (b < 256)%N) bs -> base64_decode (base64 bs) = Some bs.
Proof.
  induction bs as [| a | a b | a b c l IH] using triple_induction; intros H.
  - reflexivity.
  - apply Forall_inv in H. cbn [base64 base64_decode].
    repeat b64_step. cbn [N.eqb Pos.eqb andb]. do 2 f_equal. div_lia.
  - pose proof (Forall_inv H) as Ha. pose proof (Forall_inv (Forall_inv_tail H)) as Hb.
    cbn beta in Ha, Hb. cbn [base64 base64_decode].
    repeat b64_step. cbn [N.eqb Pos.eqb andb]. repeat f_equal; div_lia.
  - pose proof (Forall_inv H) as Ha. pose proof (Forall_inv (Forall_inv_tail H)) as Hb.
    pose proof (Forall_inv (Forall_inv_tail (Forall_inv_tail H))) as Hc.
    pose proof (Forall_inv_tail (Forall_inv_tail (Forall_inv_tail H))) as Hl.
    cbn beta in Ha, Hb, Hc. cbn [base64 base64_decode app].
    repeat b64_step. cbn [andb]. rewrite (IH Hl). cbn [option_map].
    repeat f_equal; div_lia.
Qed.

Lemma land_low (b : N) (k : N) : N.land b (N.ones k) = (b mod 2 ^ k)%N.
Proof. apply N.land_ones. Qed.

Lemma continuation_bits (x : N) : (x < 64)%N -> N.land (128 + x) 63 = x.
Proof.
  intros Hx. change 63%N with (N.ones 6). rewrite land_low.
  change (2 ^ 6)%N with 64%N. div_lia.
Qed.

Lemma lead2_bits (x : N) : (x < 32)%N -> N.land (192 + x) 31 = x.
Proof.
  intros Hx. change 31%N with (N.ones 5). rewrite land_low.
  change (2 ^ 5)%N with 32%N. div_lia.
Qed.

Lemma lead3_bits (x : N) : (x < 16)%N -> N.land (224 + x) 15 = x.
Proof.
  intros Hx. change 15%N with (N.ones 4). rewrite land_low.
  change (2 ^ 4)%N with 16%N. div_lia.
Qed.

Lemma lead4_bits (x : N) : (x < 8)%N -> N.land (240 + x) 7 = x.
Proof.
  intros Hx. change 7%N with (N.ones 3). rewrite land_low.
  change (2 ^ 3)%N with 8%N. div_lia.
Qed.

(** UTF-8 is read back as the code point it was written from. *)
Lemma utf8_decode_encode (cp : N) (rest : list N) :
  (cp < 1114112)%N ->
  utf8_decode 0 0 (utf8_encode cp ++ rest) = cp :: utf8_decode 0 0 rest.
Proof.
  intros Hcp. unfold utf8_encode.
  destruct (N.ltb_spec cp 128) as [H1|H1].
  { cbn [app utf8_decode]. apply N.ltb_lt in H1. now rewrite H1. }
  destruct (N.ltb_spec cp 2048) as [H2|H2].
  { cbn [app utf8_decode].
    replace (192 + cp / 64 <? 128)%N with false by (symmetry; apply N.ltb_ge; div_lia).
    replace (192 + cp / 64 <? 224)%N with true by (symmetry; apply N.ltb_lt; div_lia).
    rewrite lead2_bits, continuation_bits by div_lia. f_equal. div_lia. }
  destruct (N.ltb_spec cp 65536) as [H3|H3].
  { cbn [app utf8_decode].
    replace (224 + cp / 4096 <? 128)%N with false by (symmetry; apply N.ltb_ge; div_lia).
    replace (224 + cp / 4096 <? 224)%N with false by (symmetry; apply N.ltb_ge; div_lia).
    replace (224 + cp / 4096 <? 240)%N with true by (symmetry; apply N.ltb_lt; div_lia).
    rewrite lead3_bits, !continuation_bits by div_lia. f_equal. div_lia. }
  cbn [app utf8_decode].
  replace (240 + cp / 262144 <? 128)%N with false by (symmetry; apply N.ltb_ge; div_lia).
  replace (240 + cp / 262144 <? 224)%N with false by (symmetry; apply N.ltb_ge; div_lia).
  replace (240 + cp / 262144 <? 240)%N with false by (symmetry; apply N.ltb_ge; div_lia).
  rewrite lead4_bits, !continuation_bits by div_lia. f_equal. div_lia.
Qed.

Lemma utf8_decode_encoded (cps : list N) :
  Forall (fun cp => (cp < 1114112)%N) cps ->
  utf8_decode 0 0 (flat_map utf8_encode cps) = cps.
Proof.
  induction 1 as [|cp cps Hcp Hcps IH]; [reflexivity|].
  cbn [flat_map]. rewrite (utf8_decode_encode cp _ Hcp), IH. reflexivity.
Qed.

Lemma utf8_encoded_octets (cps : list N) :
  Forall (fun cp => (cp < 1114112)%N) cps ->
  Forall (fun b => (b < 256)%N) (flat_map utf8_encode cps).
Proof.
  induction 1 as [|cp cps Hcp Hcps IH]; [constructor|].
  cbn [flat_map]. apply Forall_app. split; [now apply utf8_encode_octets | exact IH].
Qed.

Lemma surrogate_pair_units (u l : N) :
  is_high_surrogate u = true -> is_low_surrogate l = true ->
  (65536 + (u - 55296) * 1024 + (l - 56320) < 1114112)%N /\
  utf16_of_code_point (65536 + (u - 55296) * 1024 + (l - 56320)) = [u; l].
Proof.
  unfold is_high_surrogate, is_low_surrogate.
  rewrite !andb_true_iff, !N.leb_le. intros [Hu1 Hu2] [Hl1 Hl2].
  split; [lia|]. unfold utf16_of_code_point.
  replace (65536 + (u - 55296) * 1024 + (l - 56320) <? 65536)%N with false
    by (symmetry; apply N.ltb_ge; lia).
  cbv zeta. rewrite N.shiftr_div_pow2. change 1023%N with (N.ones 10).
  rewrite N.land_ones. change (2 ^ 10)%N with 1024%N.
  f_equal; [|f_equal]; div_lia.
Qed.

Lemma Some_eq {A : Type} (a b : A) : Some a = Some b -> a = b.
Proof. congruence. Qed.

Lemma Ok_eq {A : Type} (a b : A) : Ok a = Ok b -> a = b.
Proof. congruence. Qed.

(** The code points of a string are code points, and written as UTF-16
    they are the string. *)
Lemma code_points_units (s : jsstring) :
  is_string s -> forall cps, code_points s = Some cps ->
  Forall (fun cp => (cp < 1114112)%N) cps /\ flat_map utf16_of_code_point cps = s.
Proof.
  unfold is_string.
  induction s as [| u | u l s IH1 IH2] using pair_induction; intros Hs cps E.
  - injection E as <-. now split.
  - pose proof (Forall_inv Hs) as Hu. cbn beta in Hu. cbn [code_points] in E.
    destruct (is_high_surrogate u); [discriminate|].
    destruct (is_low_surrogate u); [discriminate|].
    injection E as <-. split; [repeat constructor; lia|].
    cbn [flat_map app]. unfold utf16_of_code_point.
    apply N.ltb_lt in Hu. now rewrite Hu.
  - pose proof (Forall_inv Hs) as Hu. cbn beta in Hu.
    pose proof (Forall_inv_tail Hs) as Hs1.
    pose proof (Forall_inv_tail Hs1) as Hs2.
    destruct (is_high_surrogate u) eqn:Eh.
    + assert (E' : code_points (u :: l :: s)
                   = if is_low_surrogate l then
                       option_map (cons (65536 + (u - 55296) * 1024 + (l - 56320))%N)
                         (code_points s)
                     else None).
      { cbn [code_points]. now rewrite Eh. }
      rewrite E' in E. clear E'.
      destruct (is_low_surrogate l) eqn:El; [|discriminate].
      destruct (code_points s) as [cps'|] eqn:Es; [|discriminate].
      cbn [option_map] in E. apply Some_eq in E. subst cps. destruct (IH1 Hs2 cps' eq_refl) as [Hb Hr].
      destruct (surrogate_pair_units u l Eh El) as [Hcp Hul].
      split; [constructor; assumption|]. cbn [flat_map]. rewrite Hul, Hr. reflexivity.
    + assert (E' : code_points (u :: l :: s)
                   = if is_low_surrogate u then None
                     else option_map (cons u) (code_points (l :: s))).
      { cbn [code_points]. now rewrite Eh. }
      rewrite E' in E. clear E'.
      destruct (is_low_surrogate u); [discriminate|].
      destruct (code_points (l :: s)) as [cps'|] eqn:Es; [|discriminate].
      cbn [option_map] in E. apply Some_eq in E. subst cps. destruct (IH2 Hs1 cps' eq_refl) as [Hb Hr].
      split; [constructor; [lia | exact Hb]|].
      cbn [flat_map]. rewrite Hr. unfold utf16_of_code_point.
      apply N.ltb_lt in Hu. now rewrite Hu.
Qed.

Lemma Forall_of_forallb {A : Type} (f : A -> bool) (l : list A) :
  forallb f l = true -> Forall (fun a => f a = true) l.
Proof. intros H. apply Forall_forall. now apply forallb_forall. Qed.

Lemma not_surrogate (u : N) :
  negb (is_high_surrogate u) && negb (is_low_surrogate u) = true ->
  is_high_surrogate u = false /\ is_low_surrogate u = false.
Proof.
  intros H. apply andb_true_iff in H as [H1 H2].
  now apply negb_true_iff in H1, H2.
Qed.

(** Text without surrogates is its own list of code points, and adding it
    to a string adds it to the code points. *)
Lemma code_points_plain (t : jsstring) :
  forallb (fun u => negb (is_high_surrogate u) && negb (is_low_surrogate u)) t = true ->
  code_points t = Some t.
Proof.
  induction t as [|u t IH]; [reflexivity|]. cbn [forallb]. intros H.
  apply andb_true_iff in H as [Hu Ht]. apply not_surrogate in Hu as [H1 H2].
  cbn [code_points]. rewrite H1, H2, (IH Ht). reflexivity.
Qed.

Lemma code_points_app (p t : jsstring) :
  forallb (fun u => negb (is_high_surrogate u) && negb (is_low_surrogate u)) t = true ->
  code_points (p ++ t) = option_map (fun cps => cps ++ t) (code_points p).
Proof.
  intros Ht. induction p as [| u | u l s IH1 IH2] using pair_induction.
  - cbn [app code_points option_map]. now apply code_points_plain.
  - cbn [app code_points]. destruct (is_high_surrogate u).
    + destruct t as [|v t]; [reflexivity|]. cbn [forallb] in Ht.
      apply andb_true_iff in Ht as [Hv _]. apply not_surrogate in Hv as [_ Hv].
      now rewrite Hv.
    + destruct (is_low_surrogate u); [reflexivity|].
      rewrite (code_points_plain t Ht). reflexivity.
  - destruct (is_high_surrogate u) eqn:Eh.
    + assert (E : forall r, code_points (u :: l :: r)
                   = if is_low_surrogate l then
                       option_map (cons (65536 + (u - 55296) * 1024 + (l - 56320))%N)
                         (code_points r)
                     else None).
      { intros r. cbn [code_points]. now rewrite Eh. }
      change ((u :: l :: s) ++ t) with (u :: l :: s ++ t). rewrite !E.
      destruct (is_low_surrogate l); [|reflexivity].
      rewrite IH1. destruct (code_points s); reflexivity.
    + assert (E : forall r, code_points (u :: r)
                   = if is_low_surrogate u then None
                     else option_map (cons u) (code_points r)).
      { intros r. cbn [code_points]. now rewrite Eh. }
      change ((u :: l :: s) ++ t) with (u :: (l :: s) ++ t). rewrite !E.
      destruct (is_low_surrogate u); [reflexivity|].
      rewrite IH2. destruct (code_points (l :: s)); reflexivity.
Qed.

Lemma salt_plain :
  forallb (fun u => negb (is_high_surrogate u) && negb (is_low_surrogate u)) salt = true.
Proof. run. Qed.

Lemma salt_units : Forall (fun cp => (cp < 1114112)%N) salt /\ is_string salt.
Proof.
  split.
  - eapply Forall_impl; [|apply (Forall_of_forallb (fun u => (u <? 1114112)%N)); run].
    intros u Hu. now apply N.ltb_lt.
  - eapply Forall_impl; [|apply (Forall_of_forallb (fun u => (u <? 65536)%N)); run].
    intros u Hu. now apply N.ltb_lt.
Qed.

Lemma unsalt_salted (p : jsstring) : unsalt (p ++ salt) = Some p.
Proof.
  unfold unsalt. rewrite length_app.
  replace (List.length p + List.length salt - List.length salt)%nat
    with (List.length p + 0)%nat by lia.
  rewrite skipn_app, firstn_app.
  replace (List.length p + 0 - List.length p)%nat with 0%nat by lia.
  rewrite Nat.add_0_r, skipn_all, firstn_all. cbn [skipn firstn app].
  rewrite str_eqb_refl, app_nil_r. reflexivity.
Qed.

(** What [hashPass] computes: Base64 of the UTF-8 octets of the password
    followed by the salt, and a URIError when the password has a surrogate
    without its partner. *)
Lemma hashPass_value (p : jsstring) :
  is_string p ->
  hashPass p = match code_points p with
               | Some cps => Ok (base64 (flat_map utf8_encode (cps ++ salt)))
               | None => Raise URIError
               end.
Proof.
  intros Hp. unfold hashPass, encodeURIComponent.
  rewrite (code_points_app p salt salt_plain).
  destruct (code_points p) as [cps|] eqn:E; [|reflexivity]. cbn [option_map].
  destruct (code_points_units p Hp cps E) as [Hcps _].
  assert (Hall : Forall (fun cp => (cp < 1114112)%N) (cps ++ salt)).
  { apply Forall_app. split; [exact Hcps | apply salt_units]. }
  rewrite (unescape_encoded _ Hall). unfold btoa.
  replace (forallb (fun u => (u <? 256)%N) (flat_map utf8_encode (cps ++ salt))) with true;
    [reflexivity|].
  symmetry. apply forallb_forall. intros b Hb.
  pose proof (utf8_encoded_octets _ Hall) as Ho. rewrite Forall_forall in Ho.
  apply N.ltb_lt. now apply Ho.
Qed.

Lemma recoverPass_hashPass (p h : jsstring) :
  is_string p -> hashPass p = Ok h -> recoverPass h = Some p.
Proof.
  intros Hp E. rewrite (hashPass_value p Hp) in E.
  destruct (code_points p) as [cps|] eqn:Ec; [|discriminate].
  apply Ok_eq in E. subst h.
  destruct (code_points_units p Hp cps Ec) as [Hcps Hr].
  assert (Hall : Forall (fun cp => (cp < 1114112)%N) (cps ++ salt)).
  { apply Forall_app. split; [exact Hcps | apply salt_units]. }
  unfold recoverPass.
  rewrite (base64_decode_base64 _ (utf8_encoded_octets _ Hall)).
  rewrite (utf8_decode_encoded _ Hall), flat_map_app, Hr.
  destruct (code_points_units salt (proj2 salt_units) salt (code_points_plain salt salt_plain))
    as [_ Hs].
  rewrite Hs. apply unsalt_salted.
Qed.

(** X13. [hashPass] is Base64 of UTF-8: the three calls
    btoa(unescape(encodeURIComponent(p + salt))) together write the UTF-8
    octets of the salted password in Base64. The only exception it raises
    is the URIError of a password with an unpaired surrogate, never the
    InvalidCharacterError of btoa, and its result is ASCII text. *)
Theorem hashPass_is_base64_of_utf8 (p : jsstring) :
  is_string p ->
  (forall cps, code_points p = Some cps ->
     hashPass p = Ok (base64 (flat_map utf8_encode (cps ++ salt)))) /\
  (code_points p = None <-> hashPass p = Raise URIError) /\
  hashPass p <> Raise InvalidCharacterError /\
  (forall h, hashPass p = Ok h -> Forall (fun c => (c < 128)%N) h).
Proof.
  intros Hp. pose proof (hashPass_value p Hp) as E.
  destruct (code_points p) as [cps|]; rewrite E.
  - split; [intros ? [= <-]; reflexivity|].
    split; [split; discriminate|]. split; [discriminate|].
    intros h Hh. apply Ok_eq in Hh. subst h. apply base64_ascii.
  - split; [discriminate|]. split; [split; reflexivity|].
    split; discriminate.
Qed.

Lemma hashPass_is_base64_of_utf8_witness :
  is_string (js "secret1") /\
  hashPass (js "secret1") = Ok (js "c2VjcmV0MV9hZ3JvdnVlX3NhbHRfMjAyNQ==").
Proof.
  assert (Hs : is_string (js "secret1")).
  { eapply Forall_impl; [|apply (Forall_of_forallb (fun u => (u <? 65536)%N)); run].
    intros u Hu. now apply N.ltb_lt. }
  split; [exact Hs|].
  rewrite (proj1 (hashPass_is_base64_of_utf8 (js "secret1") Hs) (js "secret1") eq_refl).
  reflexivity.
Defined.

(** X14. The stored password hash is reversible: decoding the Base64
    text and taking the salt off its end gives the password back. Two
    passwords therefore never share a hash. *)
Theorem hashPass_reversible (p h : jsstring) :
  is_string p -> hashPass p = Ok h ->
  recoverPass h = Some p /\
  forall p', is_string p' -> hashPass p' = Ok h -> p' = p.
Proof.
  intros Hp E. pose proof (recoverPass_hashPass p h Hp E) as R.
  split; [exact R|]. intros p' Hp' E'.
  pose proof (recoverPass_hashPass p' h Hp' E') as R'. congruence.
Qed.

Lemma hashPass_reversible_witness :
  recoverPass (js "c2VjcmV0MV9hZ3JvdnVlX3NhbHRfMjAyNQ==") = Some (js "secret1").
Proof.
  assert (Hs : is_string (js "secret1")).
  { eapply Forall_impl; [|apply (Forall_of_forallb (fun u => (u <? 65536)%N)); run].
    intros u Hu. now apply N.ltb_lt. }
  exact (proj1 (hashPass_reversible (js "secret1")
                  (js "c2VjcmV0MV9hZ3JvdnVlX3NhbHRfMjAyNQ==") Hs eq_refl)).
Defined.

(* ================================================================== *)
(** ** Accounts and the session *)
(* ================================================================== *)

Lemma get_own_app_old {V : Type} (o o' : list (jsstring * V)) (k : jsstring) (v : V) :
  get_own o k = Some v -> get_own (o ++ o') k = Some v.
Proof.
  induction o as [|[k' v'] o IH]; [discriminate|]. cbn [app get_own].
  destruct (str_eqb k k'); [trivial | exact IH].
Qed.

Lemma get_own_app_new {V : Type} (o : list (jsstring * V)) (k : jsstring) (v : V) :
  get_own o k = None -> get_own (o ++ [(k, v)]) k = Some v.
Proof.
  induction o as [|[k' v'] o IH]; cbn [app get_own].
  - now rewrite str_eqb_refl.
  - destruct (str_eqb k k'); [discriminate | exact IH].
Qed.

Lemma get_own_app_other {V : Type} (o : list (jsstring * V)) (k k' : jsstring) (v : V) :
  k <> k' -> get_own (o ++ [(k', v)]) k = get_own o k.
Proof.
  intros Hk. induction o as [|[k0 v0] o IH]; cbn [app get_own].
  - now rewrite (str_neq_eqb Hk).
  - destruct (str_eqb k k0); [reflexivity | exact IH].
Qed.

Lemma pair_eq {A B : Type} (a a' : A) (b b' : B) : (a, b) = (a', b') -> a = a' /\ b = b'.
Proof. intros H. split; congruence. Qed.

(** The profile [handleRegister] makes of a form. *)
Lemma handleRegister_created (lower : jsstring -> jsstring) (w w' : Window)
    (form : RegisterForm.t) (t1 t2 : N) (msg : jsstring) (prof : Profile.t) :
  handleRegister lower w form t1 t2 = (w', AccountCreated msg prof) ->
  validate form = None /\
  get (load Storage.AgroVue_users [] w) (lower (trim (RegisterForm.username form)))
    = Undefined /\
  Profile.username prof = Some (lower (trim (RegisterForm.username form))) /\
  exists hash,
    hashPass (RegisterForm.password form) = Ok hash /\
    w' = option_map
           (fun s =>
              Storage.set_profile (Some prof)
                (Storage.set_session
                   (Some {| Session.username := lower (trim (RegisterForm.username form));
                            Session.loggedInAt := t2 |})
                   (Storage.set_users
                      (Some (load Storage.AgroVue_users [] w
                             ++ [(lower (trim (RegisterForm.username form)),
                                  {| User.passwordHash := hash; User.profile := prof;
                                     User.createdAt := t1 |})])) s))) w.
Proof.
  unfold handleRegister. intros H.
  destruct (validate form); [apply pair_eq in H as [_ H]; discriminate|].
  destruct (get _ _); try (apply pair_eq in H as [_ H]; discriminate).
  destruct (hashPass _) as [hash|]; [|apply pair_eq in H as [_ H]; discriminate].
  apply pair_eq in H as [Hw Hr].
  assert (Hp : prof = {| Profile.name := trim (RegisterForm.name form);
               Profile.role := RegisterForm.role form;
               Profile.state := RegisterForm.state form;
               Profile.district := [];
               Profile.farmSize := [];
               Profile.phone := Some (RegisterForm.phone form);
               Profile.crops := Some [];
               Profile.username := Some (lower (trim (RegisterForm.username form))) |})
    by congruence.
  repeat split; [now rewrite Hp|]. exists hash. split; [reflexivity|].
  rewrite <- Hw, Hp. unfold save. destruct w; reflexivity.
Qed.

Lemma validate_accepts (form : RegisterForm.t) :
  validate form = None ->
  truthy (trim (RegisterForm.username form)) = true /\
  (3 <= List.length (trim (RegisterForm.username form)))%nat /\
  only_word_units (trim (RegisterForm.username form)) = true /\
  (6 <= List.length (RegisterForm.password form))%nat /\
  RegisterForm.confirmPassword form = RegisterForm.password form /\
  truthy (trim (RegisterForm.name form)) = true.
Proof.
  unfold validate.
  destruct (truthy (trim (RegisterForm.username form))); [|discriminate].
  destruct (Nat.ltb_spec (List.length (trim (RegisterForm.username form))) 3);
    [discriminate|].
  destruct (only_word_units (trim (RegisterForm.username form))); [|discriminate].
  destruct (truthy (RegisterForm.password form)); [|discriminate].
  destruct (Nat.ltb_spec (List.length (RegisterForm.password form)) 6); [discriminate|].
  destruct (str_eqb (RegisterForm.password form) (RegisterForm.confirmPassword form)) eqn:E;
    [|discriminate].
  destruct (truthy (trim (RegisterForm.name form))); [|discriminate].
  intros _. apply str_eqb_eq in E. repeat split; auto.
Qed.

Lemma load_users_saved (s : Storage.t) (users : list (jsstring * User.t))
    (session : option Session.t) (profile : option Profile.t) :
  load Storage.AgroVue_users []
    (Some (Storage.set_profile profile
             (Storage.set_session session (Storage.set_users (Some users) s))))
  = users.
Proof. reflexivity. Qed.

(** X15. Registration followed by login.  After [handleRegister] has
    created an account, [handleLogin] with the same user name and password
    logs in with the profile of the registration, on two conditions the
    register screen does not check: the password is not white space only
    (then the login screen asks for both fields, although the account
    exists), and the page has a storage (without one the account is
    reported as created and then not found). *)
Theorem register_then_login (lower : jsstring -> jsstring) (w w' : Window)
    (form : RegisterForm.t) (t1 t2 : N) (msg : jsstring) (prof : Profile.t) :
  handleRegister lower w form t1 t2 = (w', AccountCreated msg prof) ->
  forall now,
    handleLogin lower w' (RegisterForm.username form) (RegisterForm.password form) now
    = if truthy (trim (RegisterForm.password form)) then
        match w with
        | Some _ =>
            (save Storage.set_session
               {| Session.username := lower (trim (RegisterForm.username form));
                  Session.loggedInAt := now |} w',
             LoggedIn prof)
        | None => (w', LoginError (js "❌ Username not found. Please register first."))
        end
      else (w', LoginError (js "Please enter both username and password.")).
Proof.
  intros H now. apply handleRegister_created in H as (Hv & Hg & _ & hash & Hh & Hw).
  apply validate_accepts in Hv as (Hu & _). unfold handleLogin. rewrite Hu.
  cbn [negb orb]. destruct (truthy (trim (RegisterForm.password form))); [|reflexivity].
  cbn [negb]. destruct w as [s|]; cbn [option_map] in Hw; subst w'.
  - rewrite load_users_saved. apply get_undefined in Hg as [Hg _].
    unfold get at 1. rewrite (get_own_app_new _ _ _ Hg), Hh.
    cbn [User.passwordHash User.profile]. rewrite str_eqb_refl. reflexivity.
  - cbn [load] in *. rewrite Hg. reflexivity.
Qed.

Lemma js_is_string (s : jsstring) :
  forallb (fun u => (u <? 65536)%N) s = true -> is_string s.
Proof.
  intros H. eapply Forall_impl; [|apply (Forall_of_forallb _ _ H)].
  intros u Hu. now apply N.ltb_lt.
Qed.

(** X16. Only the registered password logs in.  After a registration, a
    login to the same account (a user name with the same key) succeeds
    only with exactly the password of the registration, and gives the
    registered profile. *)
Theorem login_needs_registered_password (lower : jsstring -> jsstring) (w w' w'' : Window)
    (form : RegisterForm.t) (t1 t2 now : N) (msg : jsstring) (prof p : Profile.t)
    (username password : jsstring) :
  handleRegister lower w form t1 t2 = (w', AccountCreated msg prof) ->
  is_string (RegisterForm.password form) -> is_string password ->
  lower (trim username) = lower (trim (RegisterForm.username form)) ->
  handleLogin lower w' username password now = (w'', LoggedIn p) ->
  password = RegisterForm.password form /\ p = prof.
Proof.
  intros H Hs1 Hs2 Hk L.
  apply handleRegister_created in H as (_ & Hg & _ & hash & Hh & Hw).
  unfold handleLogin in L. rewrite Hk in L.
  destruct (negb (truthy (trim username)) || negb (truthy (trim password)));
    [apply pair_eq in L as [_ L]; discriminate|].
  destruct w as [s|]; cbn [option_map] in Hw; subst w'.
  - rewrite load_users_saved in L. apply get_undefined in Hg as [Hg _].
    unfold get in L. rewrite (get_own_app_new _ _ _ Hg) in L.
    destruct (hashPass password) as [hash'|] eqn:Hh';
      [|apply pair_eq in L as [_ L]; discriminate].
    cbn [User.passwordHash User.profile] in L.
    destruct (str_eqb hash hash') eqn:E; [|apply pair_eq in L as [_ L]; discriminate].
    apply str_eqb_eq in E. subst hash'. apply pair_eq in L as [_ L].
    split; [|congruence].
    pose proof (recoverPass_hashPass _ _ Hs1 Hh) as R1.
    pose proof (recoverPass_hashPass _ _ Hs2 Hh') as R2. congruence.
  - cbn [load] in *. rewrite Hg in L. apply pair_eq in L as [_ L]. discriminate.
Qed.

(** X17. Registration does not disturb what is stored: an account that
    exists is never changed or removed (the new one is only added under a
    key that reads as undefined), the entries under other keys read as
    before, and a registration that ends with an error leaves the storage
    as it was. *)
Theorem register_keeps_accounts (lower : jsstring -> jsstring) (w : Window)
    (form : RegisterForm.t) (t1 t2 : N) :
  let w' := fst (handleRegister lower w form t1 t2) in
  (forall k u, get_own (load Storage.AgroVue_users [] w) k = Some u ->
               get_own (load Storage.AgroVue_users [] w') k = Some u) /\
  (forall k, k <> lower (trim (RegisterForm.username form)) ->
             get (load Storage.AgroVue_users [] w') k
             = get (load Storage.AgroVue_users [] w) k) /\
  (forall e, snd (handleRegister lower w form t1 t2) = RegisterError e -> w' = w).
Proof.
  cbv zeta. unfold handleRegister.
  destruct (validate form); [cbn [fst snd]; split; [|split]; solve [trivial]|].
  destruct (get _ _);
    [cbn [fst snd]; split; [|split]; solve [trivial]
    |cbn [fst snd]; split; [|split]; solve [trivial] |].
  destruct (hashPass _); cbn [fst snd]; [|split; [|split]; solve [trivial]].
  destruct w as [s|]; [|split; [|split]; [trivial | trivial | discriminate]].
  unfold save. cbn [option_map]. rewrite load_users_saved.
  split; [|split]; [| | discriminate].
  - intros k u Hk. now apply get_own_app_old.
  - intros k Hk. unfold get. now rewrite (get_own_app_other _ _ _ _ Hk).
Qed.

Lemma register_then_login_witness :
  let created := js "✅ Account created! Logging you in…" in
  let form := RegisterForm.Build_t (js " Ravi_01 ") (js "secret1") (js "secret1")
                (js "Ravi") (js "Farmer") (js "Punjab") [] in
  let blank := RegisterForm.Build_t (js "sita") (js "       ") (js "       ")
                 (js "Sita") (js "Trader") (js "Kerala") [] in
  let prof := Profile.Build_t (js "Ravi") (js "Farmer") (js "Punjab") [] []
                (Some []) (Some []) (Some (js "ravi_01")) in
  let prof' := Profile.Build_t (js "Sita") (js "Trader") (js "Kerala") [] []
                 (Some []) (Some []) (Some (js "sita")) in
  let r := handleRegister ascii_toLowerCase (Some Storage.empty) form 1000 1001 in
  let r' := handleRegister ascii_toLowerCase (Some Storage.empty) blank 1000 1001 in
  let r'' := handleRegister ascii_toLowerCase None form 1000 1001 in
  (snd r = AccountCreated created prof /\
   snd (handleLogin ascii_toLowerCase (fst r) (RegisterForm.username form)
          (RegisterForm.password form) 2000)
   = LoggedIn prof) /\
  (snd r' = AccountCreated created prof' /\
   snd (handleLogin ascii_toLowerCase (fst r') (RegisterForm.username blank)
          (RegisterForm.password blank) 2000)
   = LoginError (js "Please enter both username and password.")) /\
  (snd r'' = AccountCreated created prof /\
   snd (handleLogin ascii_toLowerCase (fst r'') (RegisterForm.username form)
          (RegisterForm.password form) 2000)
   = LoginError (js "❌ Username not found. Please register first.")).
Proof.
  intros created form blank prof prof' r r' r''.
  assert (H : r = (fst r, AccountCreated created prof)) by (vm_compute; reflexivity).
  assert (H' : r' = (fst r', AccountCreated created prof')) by (vm_compute; reflexivity).
  assert (H'' : r'' = (fst r'', AccountCreated created prof)) by (vm_compute; reflexivity).
  split; [|split]; (split; [vm_compute; reflexivity|]).
  - rewrite (register_then_login ascii_toLowerCase (Some Storage.empty) (fst r) form
               1000 1001 created prof H 2000).
    vm_compute; reflexivity.
  - rewrite (register_then_login ascii_toLowerCase (Some Storage.empty) (fst r') blank
               1000 1001 created prof' H' 2000).
    vm_compute; reflexivity.
  - rewrite (register_then_login ascii_toLowerCase None (fst r'') form
               1000 1001 created prof H'' 2000).
    vm_compute; reflexivity.
Defined.

Lemma login_needs_registered_password_witness :
  let form := RegisterForm.Build_t (js "Ravi_01") (js "secret1") (js "secret1")
                (js "Ravi") (js "Farmer") (js "Punjab") [] in
  let prof := Profile.Build_t (js "Ravi") (js "Farmer") (js "Punjab") [] []
                (Some []) (Some []) (Some (js "ravi_01")) in
  let r := handleRegister ascii_toLowerCase (Some Storage.empty) form 1000 1001 in
  let l := handleLogin ascii_toLowerCase (fst r) (js "RAVI_01 ") (js "secret1") 2000 in
  snd l = LoggedIn prof /\ js "secret1" = RegisterForm.password form /\ prof = prof.
Proof.
  intros form prof r l.
  assert (H : r = (fst r, AccountCreated (js "✅ Account created! Logging you in…") prof))
    by (vm_compute; reflexivity).
  assert (L : l = (fst l, LoggedIn prof)) by (vm_compute; reflexivity).
  split; [vm_compute; reflexivity|].
  apply (login_needs_registered_password ascii_toLowerCase (Some Storage.empty)
           (fst r) (fst l) form 1000 1001 2000 _ prof prof (js "RAVI_01 ") (js "secret1") H).
  - apply js_is_string. vm_compute; reflexivity.
  - apply js_is_string. vm_compute; reflexivity.
  - vm_compute; reflexivity.
  - exact L.
Defined.

Lemma get_inherited {V : Type} (o : list (jsstring * V)) (k : jsstring) :
  In k Object_prototype_keys -> get_own o k = None -> get o k = Inherited k.
Proof.
  intros Hk Ho. unfold get. rewrite Ho.
  replace (existsb (str_eqb k) Object_prototype_keys) with true; [reflexivity|].
  symmetry. apply existsb_exists. exists k. split; [exact Hk | apply str_eqb_refl].
Qed.

Lemma get_not_undefined {V : Type} (o : list (jsstring * V)) (k : jsstring) :
  In k Object_prototype_keys -> get o k <> Undefined.
Proof.
  intros Hk. destruct (get_own o k) as [v|] eqn:E.
  - unfold get. rewrite E. discriminate.
  - rewrite (get_inherited o k Hk E). discriminate.
Qed.

(** X18. User names that are properties of Object.prototype.  As long
    as the users object has no own property of such a name (true of the
    empty storage, and kept by every registration), a user name whose key
    is one of them ("constructor", "__proto__", which pass [validate]) can
    never be registered: a form that passes [validate] is answered with
    "Username already taken" although no such account exists; and a login
    under such a name is answered with an error, which is "Incorrect
    password" and not "Username not found" whenever both fields are filled
    in and the password can be hashed. *)
Theorem prototype_names_are_taken (lower : jsstring -> jsstring) (w : Window) :
  (forall k, In k Object_prototype_keys ->
             get_own (load Storage.AgroVue_users [] w) k = None) ->
  (forall form t1 t2 k, In k Object_prototype_keys ->
     get_own (load Storage.AgroVue_users [] (fst (handleRegister lower w form t1 t2))) k
     = None) /\
  (forall form t1 t2,
     In (lower (trim (RegisterForm.username form))) Object_prototype_keys ->
     handleRegister lower w form t1 t2
     = (w, RegisterError
             match validate form with
             | Some err => js "❌ " ++ err
             | None => js "❌ Username already taken. Please choose another."
             end)) /\
  (forall username password now,
     In (lower (trim username)) Object_prototype_keys ->
     handleLogin lower w username password now
     = (w, LoginError
             (if negb (truthy (trim username)) || negb (truthy (trim password)) then
                js "Please enter both username and password."
              else
                match hashPass password with
                | Ok _ => js "❌ Incorrect password. Please try again."
                | Raise _ => something_went_wrong
                end))).
Proof.
  intros Inv. split; [|split].
  - intros form t1 t2 k Hk. unfold handleRegister.
    destruct (validate form); [now apply Inv|].
    destruct (get _ _) eqn:Eg; [now apply Inv | now apply Inv |].
    destruct (hashPass _); [|now apply Inv]. cbn [fst].
    destruct w as [s|]; [|reflexivity]. unfold save. cbn [option_map].
    rewrite load_users_saved. rewrite get_own_app_other; [now apply Inv|].
    intros ->. now apply (get_not_undefined _ _ Hk) in Eg.
  - intros form t1 t2 Hk. unfold handleRegister.
    destruct (validate form); [reflexivity|].
    rewrite (get_inherited _ _ Hk (Inv _ Hk)). reflexivity.
  - intros username password now Hk. unfold handleLogin.
    destruct (negb (truthy (trim username)) || negb (truthy (trim password)));
      [reflexivity|].
    rewrite (get_inherited _ _ Hk (Inv _ Hk)).
    destruct (hashPass password); reflexivity.
Qed.

Lemma prototype_names_are_taken_witness :
  let form := RegisterForm.Build_t (js "Constructor") (js "secret1") (js "secret1")
                (js "Ravi") (js "Farmer") (js "Punjab") [] in
  validate form = None /\
  handleRegister ascii_toLowerCase (Some Storage.empty) form 1000 1001
  = (Some Storage.empty,
     RegisterError (js "❌ Username already taken. Please choose another.")) /\
  handleLogin ascii_toLowerCase (Some Storage.empty) (js "__proto__") (js "secret1") 2000
  = (Some Storage.empty, LoginError (js "❌ Incorrect password. Please try again.")).
Proof.
  intros form.
  assert (Inv : forall k, In k Object_prototype_keys ->
                  get_own (load Storage.AgroVue_users [] (Some Storage.empty)) k = None)
    by reflexivity.
  destruct (prototype_names_are_taken ascii_toLowerCase (Some Storage.empty) Inv)
    as (_ & R & L).
  split; [vm_compute; reflexivity|]. split.
  - rewrite (R form 1000%N 1001%N); [vm_compute; reflexivity|].
    apply existsb_str_In. vm_compute; reflexivity.
  - rewrite (L (js "__proto__") (js "secret1") 2000%N); [vm_compute; reflexivity|].
    apply existsb_str_In. vm_compute; reflexivity.
Defined.

(** X19. The login screen does not store the profile.  After two
    registrations on a page with storage, a login to the first account
    answers with the first profile, but the storage still holds the
    profile of the second: the page opened again ([restoreSession]) shows
    the second user's profile, and so does the form of the profile page. *)
Theorem login_leaves_stored_profile (lower : jsstring -> jsstring)
    (s : Storage.t) (w1 w2 : Window) (formA formB : RegisterForm.t) (tA tA' tB tB' now : N)
    (msgA msgB : jsstring) (profA profB : Profile.t) :
  handleRegister lower (Some s) formA tA tA' = (w1, AccountCreated msgA profA) ->
  handleRegister lower w1 formB tB tB' = (w2, AccountCreated msgB profB) ->
  truthy (trim (RegisterForm.password formA)) = true ->
  truthy (lower (trim (RegisterForm.username formA))) = true ->
  exists w3,
    handleLogin lower w2 (RegisterForm.username formA) (RegisterForm.password formA) now
    = (w3, LoggedIn profA) /\
    restoreSession w3 = {| user := profB; loggedIn := true |} /\
    profileForm w3 = profB /\
    profB <> profA.
Proof.
  intros HA HB Hpw Hkey.
  pose proof (handleRegister_created _ _ _ _ _ _ _ _ HA)
    as (HvA & HgA & HuA & hashA & HhA & ->).
  pose proof (handleRegister_created _ _ _ _ _ _ _ _ HB)
    as (HvB & HgB & HuB & hashB & HhB & ->).
  cbn [option_map] in *. rewrite load_users_saved in HgB.
  apply get_undefined in HgA as [HgA _].
  set (keyA := lower (trim (RegisterForm.username formA))) in *.
  set (keyB := lower (trim (RegisterForm.username formB))) in *.
  assert (Hneq : keyB <> keyA).
  { intros E. apply get_undefined in HgB as [HgB _].
    rewrite E, (get_own_app_new _ _ _ HgA) in HgB. discriminate. }
  eexists. split; [|split; [|split]].
  - unfold handleLogin. apply validate_accepts in HvA as (Hu & _).
    rewrite Hu, Hpw. cbn [negb orb]. rewrite !load_users_saved.
    fold keyA. unfold get at 1.
    rewrite (get_own_app_old _ _ _ _ (get_own_app_new _ _ _ HgA)), HhA.
    cbn [User.passwordHash User.profile]. rewrite str_eqb_refl. reflexivity.
  - unfold restoreSession, save. cbn. rewrite Hkey. reflexivity.
  - reflexivity.
  - intros E. rewrite E, HuA in HuB. congruence.
Qed.

Lemma login_leaves_stored_profile_witness :
  let formA := RegisterForm.Build_t (js "Ravi_01") (js "secret1") (js "secret1")
                 (js "Ravi") (js "Farmer") (js "Punjab") [] in
  let formB := RegisterForm.Build_t (js "sita") (js "Passw0rd") (js "Passw0rd")
                 (js "Sita") (js "Trader") (js "Kerala") [] in
  let profA := Profile.Build_t (js "Ravi") (js "Farmer") (js "Punjab") [] []
                 (Some []) (Some []) (Some (js "ravi_01")) in
  let profB := Profile.Build_t (js "Sita") (js "Trader") (js "Kerala") [] []
                 (Some []) (Some []) (Some (js "sita")) in
  let w1 := fst (handleRegister ascii_toLowerCase (Some Storage.empty) formA 1000 1001) in
  let w2 := fst (handleRegister ascii_toLowerCase w1 formB 2000 2001) in
  exists w3,
    handleLogin ascii_toLowerCase w2 (RegisterForm.username formA)
      (RegisterForm.password formA) 3000
    = (w3, LoggedIn profA) /\
    restoreSession w3 = {| user := profB; loggedIn := true |} /\
    profileForm w3 = profB /\
    profB <> profA.
Proof.
  intros formA formB profA profB w1 w2.
  apply (login_leaves_stored_profile ascii_toLowerCase Storage.empty w1 w2 formA formB
           1000 1001 2000 2001 3000
           (js "✅ Account created! Logging you in…")
           (js "✅ Account created! Logging you in…") profA profB);
    vm_compute; reflexivity.
Defined.

Lemma handleLogin_users (lower : jsstring -> jsstring) (w w' : Window)
    (username password : jsstring) (now : N) :
  load Storage.AgroVue_users [] w' = load Storage.AgroVue_users [] w ->
  snd (handleLogin lower w' username password now)
  = snd (handleLogin lower w username password now).
Proof.
  intros E. unfold handleLogin. rewrite E.
  destruct (negb (truthy (trim username)) || negb (truthy (trim password)));
    [reflexivity|].
  destruct (get _ _); [|destruct (hashPass password); reflexivity | reflexivity].
  destruct (hashPass password); [|reflexivity].
  destruct (str_eqb _ _); reflexivity.
Qed.

Lemma delete_users {A : Type} (strict : bool) (key : Storage.t -> option A)
    (set : option A -> Storage.t -> Storage.t) (s s' : Storage.t) :
  (forall v x, Storage.AgroVue_users (set v x) = Storage.AgroVue_users x) ->
  delete strict key set s = Some s' ->
  Storage.AgroVue_users s' = Storage.AgroVue_users s.
Proof.
  intros Hset. unfold delete. destruct (key s).
  - intros [= <-]. apply Hset.
  - destruct strict; [discriminate | now intros [= <-]].
Qed.

Lemma clearAll_users (strict : bool) (w : Window) :
  load Storage.AgroVue_users [] (fst (clearAll strict w))
  = load Storage.AgroVue_users [] w.
Proof.
  destruct w as [s0|]; [|reflexivity]. unfold clearAll.
  destruct (delete strict Storage.AgroVue_profile Storage.set_profile s0) as [s1|] eqn:E1;
    [|reflexivity].
  apply delete_users in E1; [|reflexivity].
  destruct (delete strict Storage.AgroVue_chat Storage.set_chat s1) as [s2|] eqn:E2;
    [|cbn [fst load]; now rewrite E1].
  apply delete_users in E2; [|reflexivity].
  destruct (delete strict Storage.AgroVue_alerts Storage.set_alerts s2) as [s3|] eqn:E3;
    [|cbn [fst load]; now rewrite E2, E1].
  apply delete_users in E3; [|reflexivity].
  destruct (delete strict Storage.AgroVue_alert_thresholds Storage.set_alert_thresholds s3)
    as [s4|] eqn:E4; [|cbn [fst load]; now rewrite E3, E2, E1].
  apply delete_users in E4; [|reflexivity].
  destruct (delete strict Storage.AgroVue_session Storage.set_session s4) as [s5|] eqn:E5;
    [|cbn [fst load]; now rewrite E4, E3, E2, E1].
  apply delete_users in E5; [|reflexivity].
  cbn [fst load]. now rewrite E5, E4, E3, E2, E1.
Qed.

(** X20. Clearing all data keeps the accounts.  [clearAll], which asks
    whether to delete all data including the account, never deletes the
    key of the users, whatever the storage does with keys that are not
    there: every login is answered after it as before it.  When it gets
    as far as opening the page again, nobody is logged in. *)
Theorem clearAll_keeps_accounts (strict : bool) (w : Window) :
  load Storage.AgroVue_users [] (fst (clearAll strict w))
  = load Storage.AgroVue_users [] w /\
  (forall lower username password now,
     snd (handleLogin lower (fst (clearAll strict w)) username password now)
     = snd (handleLogin lower w username password now)) /\
  (forall app, snd (clearAll strict w) = Reloaded app ->
     app = {| user := DEFAULT_USER; loggedIn := false |} /\
     restoreSession (fst (clearAll strict w)) = app).
Proof.
  split; [apply clearAll_users|]. split.
  - intros lower username password now. apply handleLogin_users, clearAll_users.
  - intros app. destruct w as [s0|]; [|discriminate]. unfold clearAll, delete.
    destruct s0 as [u se p c a t].
    destruct strict, p, c, a, t, se; cbn; intros H; try discriminate;
      injection H as <-; split; reflexivity.
Qed.

(** X21. The session read back.  Opening the page again after a logout
    shows the state the logout left (nobody logged in); after a
    registration on a page with storage it shows the state [onLogin]
    gives, the new profile, provided the key of the user name is not
    empty; after a save on the profile page it shows the saved form
    whenever a session is stored. *)
Theorem session_read_back (w : Window) :
  restoreSession (fst (handleLogout w)) = snd (handleLogout w) /\
  (forall lower s form t1 t2 w' msg prof,
     w = Some s ->
     handleRegister lower w form t1 t2 = (w', AccountCreated msg prof) ->
     restoreSession w'
     = if truthy (lower (trim (RegisterForm.username form))) then onLogin prof
       else {| user := DEFAULT_USER; loggedIn := false |}) /\
  (forall s app form,
     w = Some s -> loggedIn (restoreSession w) = true ->
     restoreSession (fst (handleSave w app form)) = {| user := form; loggedIn := true |} /\
     profileForm (fst (handleSave w app form)) = form).
Proof.
  split; [|split].
  - destruct w as [s|]; [|reflexivity]. unfold handleLogout, restoreSession.
    cbn. reflexivity.
  - intros lower s form t1 t2 w' msg prof -> H.
    apply handleRegister_created in H as (_ & _ & _ & hash & _ & ->).
    unfold restoreSession. cbn.
    destruct (truthy (lower (trim (RegisterForm.username form)))); reflexivity.
  - intros s app form -> H. unfold restoreSession in *. cbn in *.
    destruct (Storage.AgroVue_session s) as [se|]; [|discriminate]. cbn in *.
    destruct (truthy (Session.username se)); [|discriminate]. split; reflexivity.
Qed.

Lemma existsb_app_mono {A : Type} (f : A -> bool) (l l' : list A) :
  existsb f l = true -> existsb f (l ++ l') = true.
Proof. intros H. rewrite existsb_app, H. reflexivity. Qed.

(** X22. The strength meter.  The level is between 1 and 4; a password
    that [validate] accepts is never shown as level 1 ("Weak"); level 4
    needs ten characters with a capital letter and a digit among them; and
    typing more never lowers the level. *)
Theorem password_strength (password : jsstring) :
  (1 <= strength password <= 4)%nat /\
  (forall more, (strength password <= strength (password ++ more))%nat) /\
  (forall form, validate form = None -> RegisterForm.password form = password ->
                (2 <= strength password)%nat) /\
  (strength password = 4%nat <->
   (10 <= List.length password)%nat /\
   (exists c, In c password /\ (65 <= c <= 90)%N) /\
   (exists c, In c password /\ (48 <= c <= 57)%N)).
Proof.
  unfold strength.
  set (up := existsb (fun c => (65 <=? c) && (c <=? 90))%N) in *.
  set (dg := existsb (fun c => (48 <=? c) && (c <=? 57))%N) in *.
  split; [|split; [|split]].
  - destruct (_ && _ && _); [lia|].
    destruct (8 <=? _)%nat; [lia|]. destruct (6 <=? _)%nat; lia.
  - intros more. rewrite length_app.
    assert (HU : up password = true -> up (password ++ more) = true)
      by apply existsb_app_mono.
    assert (HD : dg password = true -> dg (password ++ more) = true)
      by apply existsb_app_mono.
    destruct (up password); [rewrite (HU eq_refl)|];
      (destruct (dg password); [rewrite (HD eq_refl)|]);
      destruct (Nat.leb_spec 10 (List.length password));
      destruct (Nat.leb_spec 10 (List.length password + List.length more));
      destruct (Nat.leb_spec 8 (List.length password));
      destruct (Nat.leb_spec 8 (List.length password + List.length more));
      destruct (Nat.leb_spec 6 (List.length password));
      destruct (Nat.leb_spec 6 (List.length password + List.length more));
      try lia; cbn [andb]; try lia;
      destruct (up (password ++ more)); cbn [andb]; try lia;
      destruct (dg (password ++ more)); cbn [andb]; lia.
  - intros form Hv <-. apply validate_accepts in Hv as (_ & _ & _ & H6 & _).
    destruct (_ && _ && _); [lia|]. destruct (Nat.leb_spec 8 (List.length (RegisterForm.password form))); [lia|].
    destruct (Nat.leb_spec 6 (List.length (RegisterForm.password form))); lia.
  - assert (Hup : up password = true <-> exists c, In c password /\ (65 <= c <= 90)%N).
    { unfold up. rewrite existsb_exists. split; intros (c & Hc & H); exists c;
        (split; [exact Hc|]).
      - apply andb_true_iff in H as [H1 H2]. apply N.leb_le in H1, H2. lia.
      - apply andb_true_iff. split; apply N.leb_le; lia. }
    assert (Hdg : dg password = true <-> exists c, In c password /\ (48 <= c <= 57)%N).
    { unfold dg. rewrite existsb_exists. split; intros (c & Hc & H); exists c;
        (split; [exact Hc|]).
      - apply andb_true_iff in H as [H1 H2]. apply N.leb_le in H1, H2. lia.
      - apply andb_true_iff. split; apply N.leb_le; lia. }
    rewrite <- Hup, <- Hdg.
    destruct (Nat.leb_spec 10 (List.length password)); cbn [andb].
    + destruct (up password); destruct (dg password); cbn [andb].
      * split; [intros _; repeat split; trivial | reflexivity].
      * split; [|intros (_ & _ & ?); discriminate].
        destruct (8 <=? _)%nat; [discriminate|]. destruct (6 <=? _)%nat; discriminate.
      * split; [|intros (_ & ? & _); discriminate].
        destruct (8 <=? _)%nat; [discriminate|]. destruct (6 <=? _)%nat; discriminate.
      * split; [|intros (_ & ? & _); discriminate].
        destruct (8 <=? _)%nat; [discriminate|]. destruct (6 <=? _)%nat; discriminate.
    + split; [|intros (? & _); lia].
      destruct (8 <=? _)%nat; [discriminate|]. destruct (6 <=? _)%nat; discriminate.
Qed.

(* ================================================================== *)
(** ** The voice assistant *)
(* ================================================================== *)

(** X23. A spoken question.  When the last result of the recognition is
    final and no question is being processed, the question is the final
    transcripts joined by spaces and trimmed, and it is sent without any
    history, in a request of one message.  As long as the request is not
    settled, and for ever when it never is, the phase is processing and
    the flag of [processingRef] is up, and a further result changes the
    transcript only.  Once the request has settled, the reply [getAIReply]
    returns for its outcome is the response, the phase is speaking, the
    flag is lowered and the message "Could not get a response" has not
    been set.  The reply is spoken as the cleaned text of [speak] when the
    page has a speech synthesis; when it has none, nothing is spoken and
    no end of speech will come to take the phase from speaking back to
    idle. *)
Theorem voice_question (toLowerCase : jsstring -> jsstring)
    (network : Network) (speechSynthesis : bool) (crop : jsstring)
    (st : Voice.State) (results : list SpeechRecognitionResult.t)
    (r : SpeechRecognitionResult.t) :
  let interim := join [] (map SpeechRecognitionResult.transcript results) in
  let finalText :=
    trim (join (js " ")
            (map SpeechRecognitionResult.transcript
               (filter SpeechRecognitionResult.isFinal results))) in
  let waiting :=
    {| Voice.phase := Voice.processing; Voice.transcript := finalText;
       Voice.response := Voice.response st; Voice.error := Voice.error st;
       Voice.processingRef := true; Voice.utterance := Voice.utterance st |} in
  List.length (messages (build_request finalText crop [])) = 1%nat /\
  (nth_error results (List.length results - 1) = Some r ->
   SpeechRecognitionResult.isFinal r = true ->
   Voice.processingRef st = false ->
   network (build_request finalText crop []) = None ->
   Voice.onresult toLowerCase network speechSynthesis crop st results
   = (waiting, Returns tt) /\
   forall more, more <> [] ->
     Voice.onresult toLowerCase network speechSynthesis crop waiting more
     = ({| Voice.phase := Voice.processing;
           Voice.transcript := join [] (map SpeechRecognitionResult.transcript more);
           Voice.response := Voice.response st; Voice.error := Voice.error st;
           Voice.processingRef := true; Voice.utterance := Voice.utterance st |},
        Returns tt)) /\
  (nth_error results (List.length results - 1) = Some r ->
   SpeechRecognitionResult.isFinal r = true ->
   Voice.processingRef st = false ->
   forall outcome, network (build_request finalText crop []) = Some outcome ->
   exists reply,
     getAIReply toLowerCase (fun _ => outcome) finalText crop [] = Returns reply /\
     Voice.onresult toLowerCase network speechSynthesis crop st results
     = ({| Voice.phase := Voice.speaking; Voice.transcript := finalText;
           Voice.response := reply; Voice.error := Voice.error st;
           Voice.processingRef := false;
           Voice.utterance := if speechSynthesis then Some (speech_text reply)
                              else Voice.utterance st |},
        Returns tt)) /\
  (results <> [] -> Voice.processingRef st = true ->
   Voice.onresult toLowerCase network speechSynthesis crop st results
   = ({| Voice.phase := Voice.phase st; Voice.transcript := interim;
         Voice.response := Voice.response st; Voice.error := Voice.error st;
         Voice.processingRef := true; Voice.utterance := Voice.utterance st |},
      Returns tt)).
Proof.
  cbv zeta.
  assert (Busy : forall st' results',
            results' <> [] -> Voice.processingRef st' = true ->
            Voice.onresult toLowerCase network speechSynthesis crop st' results'
            = ({| Voice.phase := Voice.phase st';
                  Voice.transcript :=
                    join [] (map SpeechRecognitionResult.transcript results');
                  Voice.response := Voice.response st'; Voice.error := Voice.error st';
                  Voice.processingRef := true; Voice.utterance := Voice.utterance st' |},
               Returns tt)).
  { intros st' results' Hne Hp. unfold Voice.onresult.
    destruct (nth_error results' (List.length results' - 1)) as [r'|] eqn:E.
    - unfold Voice.processQuestion. cbn [Voice.processingRef]. rewrite Hp.
      destruct (SpeechRecognitionResult.isFinal r'); reflexivity.
    - apply nth_error_None in E.
      destruct results'; [congruence | cbn [List.length] in E; lia]. }
  split; [reflexivity|]. split; [|split].
  - intros Hr Hf Hp Hn. split.
    + unfold Voice.onresult. rewrite Hr, Hf. unfold Voice.processQuestion.
      cbn [Voice.processingRef]. rewrite Hp. unfold await_getAIReply. rewrite Hn.
      reflexivity.
    + intros more Hmore. rewrite (Busy _ more Hmore); reflexivity.
  - intros Hr Hf Hp outcome Hn.
    destruct (getAIReply_returns toLowerCase (fun _ => outcome)
                (trim (join (js " ")
                         (map SpeechRecognitionResult.transcript
                            (filter SpeechRecognitionResult.isFinal results))))
                crop []) as [reply Hreply].
    exists reply. split; [exact Hreply|].
    unfold Voice.onresult. rewrite Hr, Hf. unfold Voice.processQuestion.
    cbn [Voice.processingRef]. rewrite Hp. unfold await_getAIReply.
    rewrite Hn, Hreply. unfold Voice.speak.
    destruct speechSynthesis; reflexivity.
  - intros Hne Hp. now apply Busy.
Qed.

Example voice_question_example :
  let down := fun _ : Request => Some FetchRejects in
  let hung := fun _ : Request => @None FetchOutcome in
  let st := Voice.Build_State Voice.listening [] [] [] false None in
  let results := [SpeechRecognitionResult.Build_t (js "msp for") true;
                  SpeechRecognitionResult.Build_t (js " wheat ") true] in
  let spoken := fst (Voice.onresult ascii_toLowerCase down true (js "Rice") st results) in
  let silent := fst (Voice.onresult ascii_toLowerCase down false (js "Rice") st results) in
  let waiting := fst (Voice.onresult ascii_toLowerCase hung true (js "Rice") st results) in
  Voice.phase spoken = Voice.speaking /\
  Voice.transcript spoken = js "msp for  wheat" /\
  includes (Voice.response spoken) (js "**") = true /\
  includes (Voice.response spoken) (js "Wheat") = true /\
  Voice.utterance spoken = Some (speech_text (Voice.response spoken)) /\
  includes (speech_text (Voice.response spoken)) (js "Wheat") = true /\
  includes (speech_text (Voice.response spoken)) (js "**") = false /\
  Voice.phase silent = Voice.speaking /\
  Voice.response silent = Voice.response spoken /\
  Voice.utterance silent = None /\
  waiting = Voice.Build_State Voice.processing (js "msp for  wheat") [] [] true None.
Proof. cbv zeta. run_all. Qed.
